(** * data_cleaning.py: a shallow embedding of the sales-data cleaning pipeline

    The pipeline loads a CSV file into a pandas [DataFrame], normalises the
    column labels, trims text cells, fills missing values, drops invalid
    rows and writes the result.  This file embeds the table operations the
    script uses, the script's seven functions, and proves the properties the
    specification states about them.

    Conventions of the embedding.
    - A Python [str] is a Rocq [string]; a character is read as the code
      point of the same number (0..255), which fixes what [str.strip],
      [str.lower] and [str.replace] do on it.  The labels and the text cells
      of a table are such strings.  The string methods that normalise a
      label are given on sequences of any code points as well
      ([PyUnicode]), and agree with the former on the code points up to
      255.
    - A column has one of the three dtypes the script names: [int64]
      (cells in [Z]), [float64] (cells are IEEE-754 values, [spec_float],
      whose NaN is the missing value) and [object] (text cells,
      [option string], [None] being the missing value).
    - A function that can raise returns a sum [exn + A]; the functions of the
      script run in a state-and-error monad over the file system and the
      console. *)

From Stdlib Require Import ZArith String Ascii Bool Lia.
From Stdlib Require Import Floats.SpecFloat.
From stdpp Require Import base option list strings pretty gmap.

Local Open Scope Z_scope.
Local Open Scope stdpp_scope.

(** ** Python string methods *)

Module PyStr.

Definition code (c : ascii) : N := N_of_ascii c.

(** [c.isspace()], the characters [str.strip()] removes: TAB..CR,
    FS..US, SPACE, NEL (0x85) and NBSP (0xA0). *)
Definition is_space (c : ascii) : bool :=
  let n := code c in
  ((9 <=? n) && (n <=? 13) || (28 <=? n) && (n <=? 32)
   || (n =? 133) || (n =? 160))%N.

(** [c.isupper()]: A..Z and the Latin-1 capitals (0xC0..0xDE but the
    multiplication sign 0xD7). *)
Definition is_upper (c : ascii) : bool :=
  let n := code c in
  ((65 <=? n) && (n <=? 90)
   || (192 <=? n) && (n <=? 222) && negb (n =? 215))%N.

(** [c.lower()]: a capital moves 32 code points up. *)
Definition lower_char (c : ascii) : ascii :=
  if is_upper c then ascii_of_N (code c + 32) else c.

Fixpoint map_string (f : ascii -> ascii) (s : string) : string :=
  match s with
  | EmptyString => EmptyString
  | String c s' => String (f c) (map_string f s')
  end.

(** [s.lower()] *)
Definition lower (s : string) : string := map_string lower_char s.

(** [s.lstrip(chars)] and [s.rstrip(chars)], the set [chars] given by its
    membership test. *)
Fixpoint lstrip_by (strip_it : ascii -> bool) (s : string) : string :=
  match s with
  | EmptyString => EmptyString
  | String c s' => if strip_it c then lstrip_by strip_it s' else s
  end.

Fixpoint rstrip_by (strip_it : ascii -> bool) (s : string) : string :=
  match s with
  | EmptyString => EmptyString
  | String c s' =>
      match rstrip_by strip_it s' with
      | EmptyString => if strip_it c then EmptyString else String c EmptyString
      | r => String c r
      end
  end.

(** [s.lstrip()], [s.rstrip()] and [s.strip()] remove whitespace. *)
Definition lstrip : string -> string := lstrip_by is_space.
Definition rstrip : string -> string := rstrip_by is_space.
Definition strip (s : string) : string := rstrip (lstrip s).

(** [s.replace(old, new)] for a non-empty [old]: the occurrences of [old]
    are found from the left and do not overlap.  [skip] counts the
    characters of a matched occurrence that are still to be passed over. *)
Fixpoint replace_from (old new : string) (skip : nat) (s : string) : string :=
  match s with
  | EmptyString => EmptyString
  | String c s' =>
      match skip with
      | S k => replace_from old new k s'
      | O =>
          if String.prefix old s
          then new +:+ replace_from old new (Nat.pred (String.length old)) s'
          else String c (replace_from old new 0 s')
      end
  end.

(** With an empty [old], Python puts [new] before every character and at
    the end. *)
Fixpoint intersperse (new s : string) : string :=
  match s with
  | EmptyString => new
  | String c s' => new +:+ String c (intersperse new s')
  end.

Definition replace (old new s : string) : string :=
  match old with
  | EmptyString => intersperse new s
  | _ => replace_from old new 0 s
  end.

(** [old in s] *)
Fixpoint contains (old s : string) : bool :=
  String.prefix old s
  || match s with
     | EmptyString => false
     | String _ s' => contains old s'
     end.

Definition chars (s : string) : list ascii := String.list_ascii_of_string s.

End PyStr.

(** ** Python string methods, on every code point

    A [string] of Rocq holds the characters of code points 0 to 255, and
    that is how this file writes the labels and the text cells of a table.
    A Python [str] holds any code point.  This module has the string
    methods of [clean_column_names] on sequences of code points, with the
    tables of the Unicode database of CPython 3.11 (Unicode 14.0); [PyStr]
    is their restriction to the code points up to 255. *)

Module PyUnicode.

Local Open Scope N_scope.

Definition in_ranges (c : N) (ranges : list (N * N)) : bool :=
  existsb (fun r : N * N => (r.1 <=? c) && (c <=? r.2)) ranges.

(** [c.isspace()], the characters [str.strip()] removes. *)
Definition space_ranges : list (N * N) :=
 [(9, 13); (28, 32); (133, 133); (160, 160); (5760, 5760); (8192, 8202); (8232, 8233);
   (8239, 8239); (8287, 8287); (12288, 12288)].

Definition is_space (c : N) : bool := in_ranges c space_ranges.

(** [c.isupper()]: the code points with the property Uppercase. *)
Definition upper_ranges : list (N * N) :=
 [(65, 90); (192, 214); (216, 222); (256, 256); (258, 258); (260, 260); (262, 262);
   (264, 264); (266, 266); (268, 268); (270, 270); (272, 272); (274, 274); (276, 276);
   (278, 278); (280, 280); (282, 282); (284, 284); (286, 286); (288, 288); (290, 290);
   (292, 292); (294, 294); (296, 296); (298, 298); (300, 300); (302, 302); (304, 304);
   (306, 306); (308, 308); (310, 310); (313, 313); (315, 315); (317, 317); (319, 319);
   (321, 321); (323, 323); (325, 325); (327, 327); (330, 330); (332, 332); (334, 334);
   (336, 336); (338, 338); (340, 340); (342, 342); (344, 344); (346, 346); (348, 348);
   (350, 350); (352, 352); (354, 354); (356, 356); (358, 358); (360, 360); (362, 362);
   (364, 364); (366, 366); (368, 368); (370, 370); (372, 372); (374, 374); (376, 377);
   (379, 379); (381, 381); (385, 386); (388, 388); (390, 391); (393, 395); (398, 401);
   (403, 404); (406, 408); (412, 413); (415, 416); (418, 418); (420, 420); (422, 423);
   (425, 425); (428, 428); (430, 431); (433, 435); (437, 437); (439, 440); (444, 444);
   (452, 452); (455, 455); (458, 458); (461, 461); (463, 463); (465, 465); (467, 467);
   (469, 469); (471, 471); (473, 473); (475, 475); (478, 478); (480, 480); (482, 482);
   (484, 484); (486, 486); (488, 488); (490, 490); (492, 492); (494, 494); (497, 497);
   (500, 500); (502, 504); (506, 506); (508, 508); (510, 510); (512, 512); (514, 514);
   (516, 516); (518, 518); (520, 520); (522, 522); (524, 524); (526, 526); (528, 528);
   (530, 530); (532, 532); (534, 534); (536, 536); (538, 538); (540, 540); (542, 542);
   (544, 544); (546, 546); (548, 548); (550, 550); (552, 552); (554, 554); (556, 556);
   (558, 558); (560, 560); (562, 562); (570, 571); (573, 574); (577, 577); (579, 582);
   (584, 584); (586, 586); (588, 588); (590, 590); (880, 880); (882, 882); (886, 886);
   (895, 895); (902, 902); (904, 906); (908, 908); (910, 911); (913, 929); (931, 939);
   (975, 975); (978, 980); (984, 984); (986, 986); (988, 988); (990, 990); (992, 992);
   (994, 994); (996, 996); (998, 998); (1000, 1000); (1002, 1002); (1004, 1004);
   (1006, 1006); (1012, 1012); (1015, 1015); (1017, 1018); (1021, 1071); (1120, 1120);
   (1122, 1122); (1124, 1124); (1126, 1126); (1128, 1128); (1130, 1130); (1132, 1132);
   (1134, 1134); (1136, 1136); (1138, 1138); (1140, 1140); (1142, 1142); (1144, 1144);
   (1146, 1146); (1148, 1148); (1150, 1150); (1152, 1152); (1162, 1162); (1164, 1164);
   (1166, 1166); (1168, 1168); (1170, 1170); (1172, 1172); (1174, 1174); (1176, 1176);
   (1178, 1178); (1180, 1180); (1182, 1182); (1184, 1184); (1186, 1186); (1188, 1188);
   (1190, 1190); (1192, 1192); (1194, 1194); (1196, 1196); (1198, 1198); (1200, 1200);
   (1202, 1202); (1204, 1204); (1206, 1206); (1208, 1208); (1210, 1210); (1212, 1212);
   (1214, 1214); (1216, 1217); (1219, 1219); (1221, 1221); (1223, 1223); (1225, 1225);
   (1227, 1227); (1229, 1229); (1232, 1232); (1234, 1234); (1236, 1236); (1238, 1238);
   (1240, 1240); (1242, 1242); (1244, 1244); (1246, 1246); (1248, 1248); (1250, 1250);
   (1252, 1252); (1254, 1254); (1256, 1256); (1258, 1258); (1260, 1260); (1262, 1262);
   (1264, 1264); (1266, 1266); (1268, 1268); (1270, 1270); (1272, 1272); (1274, 1274);
   (1276, 1276); (1278, 1278); (1280, 1280); (1282, 1282); (1284, 1284); (1286, 1286);
   (1288, 1288); (1290, 1290); (1292, 1292); (1294, 1294); (1296, 1296); (1298, 1298);
   (1300, 1300); (1302, 1302); (1304, 1304); (1306, 1306); (1308, 1308); (1310, 1310);
   (1312, 1312); (1314, 1314); (1316, 1316); (1318, 1318); (1320, 1320); (1322, 1322);
   (1324, 1324); (1326, 1326); (1329, 1366); (4256, 4293); (4295, 4295); (4301, 4301);
   (5024, 5109); (7312, 7354); (7357, 7359); (7680, 7680); (7682, 7682); (7684, 7684);
   (7686, 7686); (7688, 7688); (7690, 7690); (7692, 7692); (7694, 7694); (7696, 7696);
   (7698, 7698); (7700, 7700); (7702, 7702); (7704, 7704); (7706, 7706); (7708, 7708);
   (7710, 7710); (7712, 7712); (7714, 7714); (7716, 7716); (7718, 7718); (7720, 7720);
   (7722, 7722); (7724, 7724); (7726, 7726); (7728, 7728); (7730, 7730); (7732, 7732);
   (7734, 7734); (7736, 7736); (7738, 7738); (7740, 7740); (7742, 7742); (7744, 7744);
   (7746, 7746); (7748, 7748); (7750, 7750); (7752, 7752); (7754, 7754); (7756, 7756);
   (7758, 7758); (7760, 7760); (7762, 7762); (7764, 7764); (7766, 7766); (7768, 7768);
   (7770, 7770); (7772, 7772); (7774, 7774); (7776, 7776); (7778, 7778); (7780, 7780);
   (7782, 7782); (7784, 7784); (7786, 7786); (7788, 7788); (7790, 7790); (7792, 7792);
   (7794, 7794); (7796, 7796); (7798, 7798); (7800, 7800); (7802, 7802); (7804, 7804);
   (7806, 7806); (7808, 7808); (7810, 7810); (7812, 7812); (7814, 7814); (7816, 7816);
   (7818, 7818); (7820, 7820); (7822, 7822); (7824, 7824); (7826, 7826); (7828, 7828);
   (7838, 7838); (7840, 7840); (7842, 7842); (7844, 7844); (7846, 7846); (7848, 7848);
   (7850, 7850); (7852, 7852); (7854, 7854); (7856, 7856); (7858, 7858); (7860, 7860);
   (7862, 7862); (7864, 7864); (7866, 7866); (7868, 7868); (7870, 7870); (7872, 7872);
   (7874, 7874); (7876, 7876); (7878, 7878); (7880, 7880); (7882, 7882); (7884, 7884);
   (7886, 7886); (7888, 7888); (7890, 7890); (7892, 7892); (7894, 7894); (7896, 7896);
   (7898, 7898); (7900, 7900); (7902, 7902); (7904, 7904); (7906, 7906); (7908, 7908);
   (7910, 7910); (7912, 7912); (7914, 7914); (7916, 7916); (7918, 7918); (7920, 7920);
   (7922, 7922); (7924, 7924); (7926, 7926); (7928, 7928); (7930, 7930); (7932, 7932);
   (7934, 7934); (7944, 7951); (7960, 7965); (7976, 7983); (7992, 7999); (8008, 8013);
   (8025, 8025); (8027, 8027); (8029, 8029); (8031, 8031); (8040, 8047); (8120, 8123);
   (8136, 8139); (8152, 8155); (8168, 8172); (8184, 8187); (8450, 8450); (8455, 8455);
   (8459, 8461); (8464, 8466); (8469, 8469); (8473, 8477); (8484, 8484); (8486, 8486);
   (8488, 8488); (8490, 8493); (8496, 8499); (8510, 8511); (8517, 8517); (8544, 8559);
   (8579, 8579); (9398, 9423); (11264, 11311); (11360, 11360); (11362, 11364);
   (11367, 11367); (11369, 11369); (11371, 11371); (11373, 11376); (11378, 11378);
   (11381, 11381); (11390, 11392); (11394, 11394); (11396, 11396); (11398, 11398);
   (11400, 11400); (11402, 11402); (11404, 11404); (11406, 11406); (11408, 11408);
   (11410, 11410); (11412, 11412); (11414, 11414); (11416, 11416); (11418, 11418);
   (11420, 11420); (11422, 11422); (11424, 11424); (11426, 11426); (11428, 11428);
   (11430, 11430); (11432, 11432); (11434, 11434); (11436, 11436); (11438, 11438);
   (11440, 11440); (11442, 11442); (11444, 11444); (11446, 11446); (11448, 11448);
   (11450, 11450); (11452, 11452); (11454, 11454); (11456, 11456); (11458, 11458);
   (11460, 11460); (11462, 11462); (11464, 11464); (11466, 11466); (11468, 11468);
   (11470, 11470); (11472, 11472); (11474, 11474); (11476, 11476); (11478, 11478);
   (11480, 11480); (11482, 11482); (11484, 11484); (11486, 11486); (11488, 11488);
   (11490, 11490); (11499, 11499); (11501, 11501); (11506, 11506); (42560, 42560);
   (42562, 42562); (42564, 42564); (42566, 42566); (42568, 42568); (42570, 42570);
   (42572, 42572); (42574, 42574); (42576, 42576); (42578, 42578); (42580, 42580);
   (42582, 42582); (42584, 42584); (42586, 42586); (42588, 42588); (42590, 42590);
   (42592, 42592); (42594, 42594); (42596, 42596); (42598, 42598); (42600, 42600);
   (42602, 42602); (42604, 42604); (42624, 42624); (42626, 42626); (42628, 42628);
   (42630, 42630); (42632, 42632); (42634, 42634); (42636, 42636); (42638, 42638);
   (42640, 42640); (42642, 42642); (42644, 42644); (42646, 42646); (42648, 42648);
   (42650, 42650); (42786, 42786); (42788, 42788); (42790, 42790); (42792, 42792);
   (42794, 42794); (42796, 42796); (42798, 42798); (42802, 42802); (42804, 42804);
   (42806, 42806); (42808, 42808); (42810, 42810); (42812, 42812); (42814, 42814);
   (42816, 42816); (42818, 42818); (42820, 42820); (42822, 42822); (42824, 42824);
   (42826, 42826); (42828, 42828); (42830, 42830); (42832, 42832); (42834, 42834);
   (42836, 42836); (42838, 42838); (42840, 42840); (42842, 42842); (42844, 42844);
   (42846, 42846); (42848, 42848); (42850, 42850); (42852, 42852); (42854, 42854);
   (42856, 42856); (42858, 42858); (42860, 42860); (42862, 42862); (42873, 42873);
   (42875, 42875); (42877, 42878); (42880, 42880); (42882, 42882); (42884, 42884);
   (42886, 42886); (42891, 42891); (42893, 42893); (42896, 42896); (42898, 42898);
   (42902, 42902); (42904, 42904); (42906, 42906); (42908, 42908); (42910, 42910);
   (42912, 42912); (42914, 42914); (42916, 42916); (42918, 42918); (42920, 42920);
   (42922, 42926); (42928, 42932); (42934, 42934); (42936, 42936); (42938, 42938);
   (42940, 42940); (42942, 42942); (42944, 42944); (42946, 42946); (42948, 42951);
   (42953, 42953); (42960, 42960); (42966, 42966); (42968, 42968); (42997, 42997);
   (65313, 65338); (66560, 66599); (66736, 66771); (66928, 66938); (66940, 66954);
   (66956, 66962); (66964, 66965); (68736, 68786); (71840, 71871); (93760, 93791);
   (119808, 119833); (119860, 119885); (119912, 119937); (119964, 119964);
   (119966, 119967); (119970, 119970); (119973, 119974); (119977, 119980);
   (119982, 119989); (120016, 120041); (120068, 120069); (120071, 120074);
   (120077, 120084); (120086, 120092); (120120, 120121); (120123, 120126);
   (120128, 120132); (120134, 120134); (120138, 120144); (120172, 120197);
   (120224, 120249); (120276, 120301); (120328, 120353); (120380, 120405);
   (120432, 120457); (120488, 120512); (120546, 120570); (120604, 120628);
   (120662, 120686); (120720, 120744); (120778, 120778); (125184, 125217);
   (127280, 127305); (127312, 127337); (127344, 127369)].

Definition is_upper (c : N) : bool := in_ranges c upper_ranges.

(** The lowercase mappings to one code point.  [(first, last, step, image)]
    maps [first + k * step] to [image + k * step] as long as the former is
    at most [last]. *)
Definition lower_ranges : list (N * N * N * N) :=
 [(65, 90, 1, 97); (192, 214, 1, 224); (216, 222, 1, 248); (256, 302, 2, 257);
   (306, 310, 2, 307); (313, 327, 2, 314); (330, 374, 2, 331); (376, 376, 1, 255);
   (377, 381, 2, 378); (385, 385, 1, 595); (386, 388, 2, 387); (390, 390, 1, 596);
   (391, 391, 1, 392); (393, 394, 1, 598); (395, 395, 1, 396); (398, 398, 1, 477);
   (399, 399, 1, 601); (400, 400, 1, 603); (401, 401, 1, 402); (403, 403, 1, 608);
   (404, 404, 1, 611); (406, 406, 1, 617); (407, 407, 1, 616); (408, 408, 1, 409);
   (412, 412, 1, 623); (413, 413, 1, 626); (415, 415, 1, 629); (416, 420, 2, 417);
   (422, 422, 1, 640); (423, 423, 1, 424); (425, 425, 1, 643); (428, 428, 1, 429);
   (430, 430, 1, 648); (431, 431, 1, 432); (433, 434, 1, 650); (435, 437, 2, 436);
   (439, 439, 1, 658); (440, 440, 1, 441); (444, 444, 1, 445); (452, 452, 1, 454);
   (453, 453, 1, 454); (455, 455, 1, 457); (456, 456, 1, 457); (458, 458, 1, 460);
   (459, 475, 2, 460); (478, 494, 2, 479); (497, 497, 1, 499); (498, 500, 2, 499);
   (502, 502, 1, 405); (503, 503, 1, 447); (504, 542, 2, 505); (544, 544, 1, 414);
   (546, 562, 2, 547); (570, 570, 1, 11365); (571, 571, 1, 572); (573, 573, 1, 410);
   (574, 574, 1, 11366); (577, 577, 1, 578); (579, 579, 1, 384); (580, 580, 1, 649);
   (581, 581, 1, 652); (582, 590, 2, 583); (880, 882, 2, 881); (886, 886, 1, 887);
   (895, 895, 1, 1011); (902, 902, 1, 940); (904, 906, 1, 941); (908, 908, 1, 972);
   (910, 911, 1, 973); (913, 929, 1, 945); (931, 939, 1, 963); (975, 975, 1, 983);
   (984, 1006, 2, 985); (1012, 1012, 1, 952); (1015, 1015, 1, 1016);
   (1017, 1017, 1, 1010); (1018, 1018, 1, 1019); (1021, 1023, 1, 891);
   (1024, 1039, 1, 1104); (1040, 1071, 1, 1072); (1120, 1152, 2, 1121);
   (1162, 1214, 2, 1163); (1216, 1216, 1, 1231); (1217, 1229, 2, 1218);
   (1232, 1326, 2, 1233); (1329, 1366, 1, 1377); (4256, 4293, 1, 11520);
   (4295, 4295, 1, 11559); (4301, 4301, 1, 11565); (5024, 5103, 1, 43888);
   (5104, 5109, 1, 5112); (7312, 7354, 1, 4304); (7357, 7359, 1, 4349);
   (7680, 7828, 2, 7681); (7838, 7838, 1, 223); (7840, 7934, 2, 7841);
   (7944, 7951, 1, 7936); (7960, 7965, 1, 7952); (7976, 7983, 1, 7968);
   (7992, 7999, 1, 7984); (8008, 8013, 1, 8000); (8025, 8031, 2, 8017);
   (8040, 8047, 1, 8032); (8072, 8079, 1, 8064); (8088, 8095, 1, 8080);
   (8104, 8111, 1, 8096); (8120, 8121, 1, 8112); (8122, 8123, 1, 8048);
   (8124, 8124, 1, 8115); (8136, 8139, 1, 8050); (8140, 8140, 1, 8131);
   (8152, 8153, 1, 8144); (8154, 8155, 1, 8054); (8168, 8169, 1, 8160);
   (8170, 8171, 1, 8058); (8172, 8172, 1, 8165); (8184, 8185, 1, 8056);
   (8186, 8187, 1, 8060); (8188, 8188, 1, 8179); (8486, 8486, 1, 969);
   (8490, 8490, 1, 107); (8491, 8491, 1, 229); (8498, 8498, 1, 8526);
   (8544, 8559, 1, 8560); (8579, 8579, 1, 8580); (9398, 9423, 1, 9424);
   (11264, 11311, 1, 11312); (11360, 11360, 1, 11361); (11362, 11362, 1, 619);
   (11363, 11363, 1, 7549); (11364, 11364, 1, 637); (11367, 11371, 2, 11368);
   (11373, 11373, 1, 593); (11374, 11374, 1, 625); (11375, 11375, 1, 592);
   (11376, 11376, 1, 594); (11378, 11378, 1, 11379); (11381, 11381, 1, 11382);
   (11390, 11391, 1, 575); (11392, 11490, 2, 11393); (11499, 11501, 2, 11500);
   (11506, 11506, 1, 11507); (42560, 42604, 2, 42561); (42624, 42650, 2, 42625);
   (42786, 42798, 2, 42787); (42802, 42862, 2, 42803); (42873, 42875, 2, 42874);
   (42877, 42877, 1, 7545); (42878, 42886, 2, 42879); (42891, 42891, 1, 42892);
   (42893, 42893, 1, 613); (42896, 42898, 2, 42897); (42902, 42920, 2, 42903);
   (42922, 42922, 1, 614); (42923, 42923, 1, 604); (42924, 42924, 1, 609);
   (42925, 42925, 1, 620); (42926, 42926, 1, 618); (42928, 42928, 1, 670);
   (42929, 42929, 1, 647); (42930, 42930, 1, 669); (42931, 42931, 1, 43859);
   (42932, 42946, 2, 42933); (42948, 42948, 1, 42900); (42949, 42949, 1, 642);
   (42950, 42950, 1, 7566); (42951, 42953, 2, 42952); (42960, 42960, 1, 42961);
   (42966, 42968, 2, 42967); (42997, 42997, 1, 42998); (65313, 65338, 1, 65345);
   (66560, 66599, 1, 66600); (66736, 66771, 1, 66776); (66928, 66938, 1, 66967);
   (66940, 66954, 1, 66979); (66956, 66962, 1, 66995); (66964, 66965, 1, 67003);
   (68736, 68786, 1, 68800); (71840, 71871, 1, 71872); (93760, 93791, 1, 93792);
   (125184, 125217, 1, 125218)].

Definition expand (r : N * N * N * N) : list (N * N) :=
  let '(first, last, step, image) := r in
  (fun k : nat => (first + N.of_nat k * step, image + N.of_nat k * step))
    <$> seq 0 (N.to_nat ((last - first) / step + 1)).

Definition lower_pairs : list (N * N) :=
  Eval vm_compute in (r ← lower_ranges; expand r).

Fixpoint lookup_pair (c : N) (pairs : list (N * N)) : option N :=
  match pairs with
  | [] => None
  | (c', d) :: pairs' => if c =? c' then Some d else lookup_pair c pairs'
  end.

(** [c.lower()] for one character that is not the capital sigma.  The
    capital I with a dot above (U+0130) becomes two characters, any other
    character with a lowercase form one, and a character without one stays
    as it is. *)
Definition lower_char (c : N) : list N :=
  if c =? 304 then [105; 775]
  else
    match lookup_pair c lower_pairs with
    | Some d => [d]
    | None => [c]
    end.

(** The capital sigma (U+03A3) becomes the final sigma (U+03C2) after a
    cased character and not before one, and the small sigma (U+03C3)
    otherwise; the case-ignorable characters around it are skipped.
    [case_ignorable] is the property Case_Ignorable, and [cased] tells the
    cased characters among those that are not case-ignorable, the only ones
    it is asked about. *)
Definition ignorable_ranges : list (N * N) :=
 [(39, 39); (46, 46); (58, 58); (94, 94); (96, 96); (168, 168); (173, 173); (175, 175);
   (180, 180); (183, 184); (688, 879); (884, 885); (890, 890); (900, 901); (903, 903);
   (1155, 1161); (1369, 1369); (1375, 1375); (1425, 1469); (1471, 1471); (1473, 1474);
   (1476, 1477); (1479, 1479); (1524, 1524); (1536, 1541); (1552, 1562); (1564, 1564);
   (1600, 1600); (1611, 1631); (1648, 1648); (1750, 1757); (1759, 1768); (1770, 1773);
   (1807, 1807); (1809, 1809); (1840, 1866); (1958, 1968); (2027, 2037); (2042, 2042);
   (2045, 2045); (2070, 2093); (2137, 2139); (2184, 2184); (2192, 2193); (2200, 2207);
   (2249, 2306); (2362, 2362); (2364, 2364); (2369, 2376); (2381, 2381); (2385, 2391);
   (2402, 2403); (2417, 2417); (2433, 2433); (2492, 2492); (2497, 2500); (2509, 2509);
   (2530, 2531); (2558, 2558); (2561, 2562); (2620, 2620); (2625, 2626); (2631, 2632);
   (2635, 2637); (2641, 2641); (2672, 2673); (2677, 2677); (2689, 2690); (2748, 2748);
   (2753, 2757); (2759, 2760); (2765, 2765); (2786, 2787); (2810, 2815); (2817, 2817);
   (2876, 2876); (2879, 2879); (2881, 2884); (2893, 2893); (2901, 2902); (2914, 2915);
   (2946, 2946); (3008, 3008); (3021, 3021); (3072, 3072); (3076, 3076); (3132, 3132);
   (3134, 3136); (3142, 3144); (3146, 3149); (3157, 3158); (3170, 3171); (3201, 3201);
   (3260, 3260); (3263, 3263); (3270, 3270); (3276, 3277); (3298, 3299); (3328, 3329);
   (3387, 3388); (3393, 3396); (3405, 3405); (3426, 3427); (3457, 3457); (3530, 3530);
   (3538, 3540); (3542, 3542); (3633, 3633); (3636, 3642); (3654, 3662); (3761, 3761);
   (3764, 3772); (3782, 3782); (3784, 3789); (3864, 3865); (3893, 3893); (3895, 3895);
   (3897, 3897); (3953, 3966); (3968, 3972); (3974, 3975); (3981, 3991); (3993, 4028);
   (4038, 4038); (4141, 4144); (4146, 4151); (4153, 4154); (4157, 4158); (4184, 4185);
   (4190, 4192); (4209, 4212); (4226, 4226); (4229, 4230); (4237, 4237); (4253, 4253);
   (4348, 4348); (4957, 4959); (5906, 5908); (5938, 5939); (5970, 5971); (6002, 6003);
   (6068, 6069); (6071, 6077); (6086, 6086); (6089, 6099); (6103, 6103); (6109, 6109);
   (6155, 6159); (6211, 6211); (6277, 6278); (6313, 6313); (6432, 6434); (6439, 6440);
   (6450, 6450); (6457, 6459); (6679, 6680); (6683, 6683); (6742, 6742); (6744, 6750);
   (6752, 6752); (6754, 6754); (6757, 6764); (6771, 6780); (6783, 6783); (6823, 6823);
   (6832, 6862); (6912, 6915); (6964, 6964); (6966, 6970); (6972, 6972); (6978, 6978);
   (7019, 7027); (7040, 7041); (7074, 7077); (7080, 7081); (7083, 7085); (7142, 7142);
   (7144, 7145); (7149, 7149); (7151, 7153); (7212, 7219); (7222, 7223); (7288, 7293);
   (7376, 7378); (7380, 7392); (7394, 7400); (7405, 7405); (7412, 7412); (7416, 7417);
   (7468, 7530); (7544, 7544); (7579, 7679); (8125, 8125); (8127, 8129); (8141, 8143);
   (8157, 8159); (8173, 8175); (8189, 8190); (8203, 8207); (8216, 8217); (8228, 8228);
   (8231, 8231); (8234, 8238); (8288, 8292); (8294, 8303); (8305, 8305); (8319, 8319);
   (8336, 8348); (8400, 8432); (11388, 11389); (11503, 11505); (11631, 11631);
   (11647, 11647); (11744, 11775); (11823, 11823); (12293, 12293); (12330, 12333);
   (12337, 12341); (12347, 12347); (12441, 12446); (12540, 12542); (40981, 40981);
   (42232, 42237); (42508, 42508); (42607, 42610); (42612, 42621); (42623, 42623);
   (42652, 42655); (42736, 42737); (42752, 42785); (42864, 42864); (42888, 42890);
   (42994, 42996); (43000, 43001); (43010, 43010); (43014, 43014); (43019, 43019);
   (43045, 43046); (43052, 43052); (43204, 43205); (43232, 43249); (43263, 43263);
   (43302, 43309); (43335, 43345); (43392, 43394); (43443, 43443); (43446, 43449);
   (43452, 43453); (43471, 43471); (43493, 43494); (43561, 43566); (43569, 43570);
   (43573, 43574); (43587, 43587); (43596, 43596); (43632, 43632); (43644, 43644);
   (43696, 43696); (43698, 43700); (43703, 43704); (43710, 43711); (43713, 43713);
   (43741, 43741); (43756, 43757); (43763, 43764); (43766, 43766); (43867, 43871);
   (43881, 43883); (44005, 44005); (44008, 44008); (44013, 44013); (64286, 64286);
   (64434, 64450); (65024, 65039); (65043, 65043); (65056, 65071); (65106, 65106);
   (65109, 65109); (65279, 65279); (65287, 65287); (65294, 65294); (65306, 65306);
   (65342, 65342); (65344, 65344); (65392, 65392); (65438, 65439); (65507, 65507);
   (65529, 65531); (66045, 66045); (66272, 66272); (66422, 66426); (67456, 67461);
   (67463, 67504); (67506, 67514); (68097, 68099); (68101, 68102); (68108, 68111);
   (68152, 68154); (68159, 68159); (68325, 68326); (68900, 68903); (69291, 69292);
   (69446, 69456); (69506, 69509); (69633, 69633); (69688, 69702); (69744, 69744);
   (69747, 69748); (69759, 69761); (69811, 69814); (69817, 69818); (69821, 69821);
   (69826, 69826); (69837, 69837); (69888, 69890); (69927, 69931); (69933, 69940);
   (70003, 70003); (70016, 70017); (70070, 70078); (70089, 70092); (70095, 70095);
   (70191, 70193); (70196, 70196); (70198, 70199); (70206, 70206); (70367, 70367);
   (70371, 70378); (70400, 70401); (70459, 70460); (70464, 70464); (70502, 70508);
   (70512, 70516); (70712, 70719); (70722, 70724); (70726, 70726); (70750, 70750);
   (70835, 70840); (70842, 70842); (70847, 70848); (70850, 70851); (71090, 71093);
   (71100, 71101); (71103, 71104); (71132, 71133); (71219, 71226); (71229, 71229);
   (71231, 71232); (71339, 71339); (71341, 71341); (71344, 71349); (71351, 71351);
   (71453, 71455); (71458, 71461); (71463, 71467); (71727, 71735); (71737, 71738);
   (71995, 71996); (71998, 71998); (72003, 72003); (72148, 72151); (72154, 72155);
   (72160, 72160); (72193, 72202); (72243, 72248); (72251, 72254); (72263, 72263);
   (72273, 72278); (72281, 72283); (72330, 72342); (72344, 72345); (72752, 72758);
   (72760, 72765); (72767, 72767); (72850, 72871); (72874, 72880); (72882, 72883);
   (72885, 72886); (73009, 73014); (73018, 73018); (73020, 73021); (73023, 73029);
   (73031, 73031); (73104, 73105); (73109, 73109); (73111, 73111); (73459, 73460);
   (78896, 78904); (92912, 92916); (92976, 92982); (92992, 92995); (94031, 94031);
   (94095, 94111); (94176, 94177); (94179, 94180); (110576, 110579); (110581, 110587);
   (110589, 110590); (113821, 113822); (113824, 113827); (118528, 118573);
   (118576, 118598); (119143, 119145); (119155, 119170); (119173, 119179);
   (119210, 119213); (119362, 119364); (121344, 121398); (121403, 121452);
   (121461, 121461); (121476, 121476); (121499, 121503); (121505, 121519);
   (122880, 122886); (122888, 122904); (122907, 122913); (122915, 122916);
   (122918, 122922); (123184, 123197); (123566, 123566); (123628, 123631);
   (125136, 125142); (125252, 125259); (127995, 127999); (917505, 917505);
   (917536, 917631); (917760, 917999)].

Definition cased_ranges : list (N * N) :=
 [(65, 90); (97, 122); (170, 170); (181, 181); (186, 186); (192, 214); (216, 246);
   (248, 442); (444, 447); (452, 659); (661, 687); (880, 883); (886, 887); (891, 893);
   (895, 895); (902, 902); (904, 906); (908, 908); (910, 929); (931, 1013);
   (1015, 1153); (1162, 1327); (1329, 1366); (1376, 1416); (4256, 4293); (4295, 4295);
   (4301, 4301); (4304, 4346); (4349, 4351); (5024, 5109); (5112, 5117); (7296, 7304);
   (7312, 7354); (7357, 7359); (7424, 7467); (7531, 7543); (7545, 7578); (7680, 7957);
   (7960, 7965); (7968, 8005); (8008, 8013); (8016, 8023); (8025, 8025); (8027, 8027);
   (8029, 8029); (8031, 8061); (8064, 8116); (8118, 8124); (8126, 8126); (8130, 8132);
   (8134, 8140); (8144, 8147); (8150, 8155); (8160, 8172); (8178, 8180); (8182, 8188);
   (8450, 8450); (8455, 8455); (8458, 8467); (8469, 8469); (8473, 8477); (8484, 8484);
   (8486, 8486); (8488, 8488); (8490, 8493); (8495, 8500); (8505, 8505); (8508, 8511);
   (8517, 8521); (8526, 8526); (8544, 8575); (8579, 8580); (9398, 9449);
   (11264, 11387); (11390, 11492); (11499, 11502); (11506, 11507); (11520, 11557);
   (11559, 11559); (11565, 11565); (42560, 42605); (42624, 42651); (42786, 42863);
   (42865, 42887); (42891, 42894); (42896, 42954); (42960, 42961); (42963, 42963);
   (42965, 42969); (42997, 42998); (43002, 43002); (43824, 43866); (43872, 43880);
   (43888, 43967); (64256, 64262); (64275, 64279); (65313, 65338); (65345, 65370);
   (66560, 66639); (66736, 66771); (66776, 66811); (66928, 66938); (66940, 66954);
   (66956, 66962); (66964, 66965); (66967, 66977); (66979, 66993); (66995, 67001);
   (67003, 67004); (68736, 68786); (68800, 68850); (71840, 71903); (93760, 93823);
   (119808, 119892); (119894, 119964); (119966, 119967); (119970, 119970);
   (119973, 119974); (119977, 119980); (119982, 119993); (119995, 119995);
   (119997, 120003); (120005, 120069); (120071, 120074); (120077, 120084);
   (120086, 120092); (120094, 120121); (120123, 120126); (120128, 120132);
   (120134, 120134); (120138, 120144); (120146, 120485); (120488, 120512);
   (120514, 120538); (120540, 120570); (120572, 120596); (120598, 120628);
   (120630, 120654); (120656, 120686); (120688, 120712); (120714, 120744);
   (120746, 120770); (120772, 120779); (122624, 122633); (122635, 122654);
   (125184, 125251); (127280, 127305); (127312, 127337); (127344, 127369)].

Definition case_ignorable (c : N) : bool := in_ranges c ignorable_ranges.
Definition cased (c : N) : bool := in_ranges c cased_ranges.

Fixpoint first_regarded (s : list N) : option N :=
  match s with
  | [] => None
  | c :: s' => if case_ignorable c then first_regarded s' else Some c
  end.

(** [before] holds the characters before the sigma, the nearest first. *)
Definition final_sigma (before after : list N) : bool :=
  match first_regarded before with
  | Some c => cased c
  | None => false
  end
  && match first_regarded after with
     | Some c => negb (cased c)
     | None => true
     end.

(** [s.lower()] *)
Fixpoint lower_from (before s : list N) : list N :=
  match s with
  | [] => []
  | c :: s' =>
      (if c =? 931
       then [if final_sigma before s' then 962 else 963]
       else lower_char c)
      ++ lower_from (c :: before) s'
  end.

Definition lower (s : list N) : list N := lower_from [] s.

(** [s.lstrip()], [s.rstrip()] and [s.strip()] *)
Fixpoint lstrip (s : list N) : list N :=
  match s with
  | [] => []
  | c :: s' => if is_space c then lstrip s' else s
  end.

Fixpoint rstrip (s : list N) : list N :=
  match s with
  | [] => []
  | c :: s' =>
      match rstrip s' with
      | [] => if is_space c then [] else [c]
      | r => c :: r
      end
  end.

Definition strip (s : list N) : list N := rstrip (lstrip s).

(** [s.replace(old, new)] for strings of one character. *)
Definition replace_char (old new : N) (s : list N) : list N :=
  (fun c => if c =? old then new else c) <$> s.

(** The label [clean_column_names] makes of a label:
    [.str.strip().str.lower().str.replace(" ", "_").str.replace("-", "_")]. *)
Definition clean_label (name : list N) : list N :=
  replace_char 45 95 (replace_char 32 95 (lower (strip name))).

(** [df.columns = df.columns.str...]: the labels are rewritten one by one. *)
Definition clean_columns (labels : list (list N)) : list (list N) :=
  clean_label <$> labels.

End PyUnicode.

(** ** Exceptions *)

Inductive exn :=
| FileNotFoundError (msg : string)
| FileExistsError (path : string)
| IsADirectoryError (path : string)
| NotADirectoryError (path : string)
| RecursionError
| ParserError
| AttributeError
| TypeError
| ValueError
| KeyError (key : string).

Definition result (A : Type) : Type := exn + A.

(** A loop whose body can raise: [for x in xs: acc = body(acc, x)]. *)
Fixpoint for_each {A B} (body : A -> B -> result A) (xs : list B) (acc : A)
  : result A :=
  match xs with
  | [] => inr acc
  | x :: xs' =>
      match body acc x with
      | inl e => inl e
      | inr acc' => for_each body xs' acc'
      end
  end.

(** ** Columns and tables *)

Inductive dtype := Int64 | Float64 | Object.

Global Instance dtype_eq_dec : EqDecision dtype.
Proof. solve_decision. Defined.

(** A column: its dtype and one cell per row. *)
Inductive Series :=
| SInt (cells : list Z)
| SFloat (cells : list spec_float)
| SObject (cells : list (option string)).

Definition Series_dtype (s : Series) : dtype :=
  match s with
  | SInt _ => Int64
  | SFloat _ => Float64
  | SObject _ => Object
  end.

Definition Series_len (s : Series) : nat :=
  match s with
  | SInt l => length l
  | SFloat l => length l
  | SObject l => length l
  end.

Definition is_nan (x : spec_float) : bool :=
  match x with
  | S754_nan => true
  | _ => false
  end.

Definition float_zero : spec_float := S754_zero false.

(** The nearest double of an integer (binary64: 53 bits, [emax] 1024). *)
Definition float_of_Z (z : Z) : spec_float := binary_normalize 53 1024 z 0 false.

Definition is_none {A} (x : option A) : bool :=
  match x with
  | None => true
  | Some _ => false
  end.

(** [s.isna()] *)
Definition isna (s : Series) : list bool :=
  match s with
  | SInt l => (fun _ => false) <$> l
  | SFloat l => is_nan <$> l
  | SObject l => is_none <$> l
  end.

(** The rows of a column, or of the index, a boolean mask keeps. *)
Fixpoint select_rows {A} (mask : list bool) (l : list A) : list A :=
  match mask, l with
  | b :: mask', x :: l' =>
      if b then x :: select_rows mask' l' else select_rows mask' l'
  | _, _ => []
  end.

Definition Series_select (mask : list bool) (s : Series) : Series :=
  match s with
  | SInt l => SInt (select_rows mask l)
  | SFloat l => SFloat (select_rows mask l)
  | SObject l => SObject (select_rows mask l)
  end.

(** A table: the row labels and the labelled columns, in order.  Every
    column has one cell per row label. *)
Record DataFrame := {
  index : list nat;
  items : list (string * Series)
}.

(** [df.columns] *)
Definition columns (df : DataFrame) : list string := (items df).*1.

(** [df.shape[0]] and [df.shape[1]] *)
Definition nrows (df : DataFrame) : nat := length (index df).
Definition ncols (df : DataFrame) : nat := length (items df).

(** Every column is aligned with the index. *)
Definition aligned (df : DataFrame) : Prop :=
  Forall (fun c => Series_len c.2 = nrows df) (items df).

(** [df.columns = df.columns.str.f(...)]: the labels are rewritten one by
    one, the columns stay where they are. *)
Definition map_columns (f : string -> string) (df : DataFrame) : DataFrame :=
  {| index := index df; items := prod_map f id <$> items df |}.

(** [df.select_dtypes(include=dts)] *)
Definition select_dtypes (dts : list dtype) (df : DataFrame) : DataFrame :=
  {| index := index df;
     items := filter (fun c => Series_dtype c.2 ∈ dts) (items df) |}.

(** [df[key]] for one label: a label no column carries raises [KeyError], a
    label one column carries gives that column, and a label several columns
    carry gives the sub-table of these columns. *)
Inductive selection :=
| NoColumn
| Column (s : Series)
| SubFrame (cols : list Series).

Definition getitem (df : DataFrame) (key : string) : selection :=
  match filter (fun c => c.1 = key) (items df) with
  | [] => NoColumn
  | [c] => Column c.2
  | cs => SubFrame cs.*2
  end.

(** [df[key] = s]: the column labelled [key] is replaced where it stands; a
    new label is appended. *)
Definition setitem (df : DataFrame) (key : string) (s : Series) : DataFrame :=
  {| index := index df;
     items :=
       if bool_decide (key ∈ columns df)
       then (fun c => if bool_decide (c.1 = key) then (key, s) else c) <$> items df
       else items df ++ [(key, s)] |}.

(** [df[mask]] for a boolean mask over the rows. *)
Definition take_rows (mask : list bool) (df : DataFrame) : DataFrame :=
  {| index := select_rows mask (index df);
     items := prod_map id (Series_select mask) <$> items df |}.

(** [df.head()] *)
Definition head_rows (df : DataFrame) : DataFrame :=
  take_rows (replicate 5 true) df.

(** *** Cell-level operations *)

(** [s.str.strip()] on an object column; a missing cell stays missing. *)
Definition str_strip (l : list (option string)) : list (option string) :=
  (fun x : option string => PyStr.strip <$> x) <$> l.

(** [s.fillna(0)], as [df[cols].fillna(0)] fills each column of the
    selection.  The script selects the numeric columns; a text column is in
    the selection only when it shares its label with a numeric one.  A text
    column without a missing cell is returned as it is, and one with missing
    cells only becomes an [int64] column of zeros (pandas downcasts the
    filled object column).  An object column holds text in this file: the
    integer [0] that takes the place of a missing cell beside text is
    written as the text ["0"]. *)
Definition fillna_zero (s : Series) : Series :=
  match s with
  | SInt l => SInt l
  | SFloat l => SFloat ((fun x => if is_nan x then float_zero else x) <$> l)
  | SObject l =>
      if forallb is_none l && negb (bool_decide (l = []))
      then SInt ((fun _ => 0) <$> l)
      else SObject ((fun x : option string => if is_none x then Some "0" else x) <$> l)
  end.

(** Forward fill, as pandas pads a column: [last] is the latest cell seen
    that is not missing; a missing cell takes it, and stays as it is when
    there is none yet. *)
Fixpoint pad {A} (missing : A -> bool) (last : option A) (l : list A) : list A :=
  match l with
  | [] => []
  | x :: l' =>
      if missing x
      then default x last :: pad missing last l'
      else x :: pad missing (Some x) l'
  end.

(** [s.fillna(method="ffill")] *)
Definition ffill (s : Series) : Series :=
  match s with
  | SInt l => SInt l
  | SFloat l => SFloat (pad is_nan None l)
  | SObject l => SObject (pad is_none None l)
  end.

(** [s >= 0], cell by cell, NaN comparing false; an object column holds
    text, which Python does not compare with a number. *)
Definition ge_zero (s : Series) : result (list bool) :=
  match s with
  | SInt l => inr ((fun z => 0 <=? z) <$> l)
  | SFloat l => inr (SFleb float_zero <$> l)
  | SObject _ => inl TypeError
  end.

(** ** The file system and the console *)

Inductive node :=
| File (content : string)
| Dir.

Inductive output :=
| Line (text : string)
| Frame (df : DataFrame).

(** What the script can observe and change: the files and directories, by
    path, and what has been printed so far. *)
Record World := {
  fs : gmap string node;
  stdout : list output
}.

(** A computation reads and changes the world and returns or raises. *)
Definition M (A : Type) : Type := World -> result A * World.

Global Instance M_ret : MRet M := fun A (a : A) (w : World) => (inr a, w).

Global Instance M_bind : MBind M :=
  fun A B (f : A -> M B) (m : M A) (w : World) =>
    match m w with
    | (inl e, w') => (inl e, w')
    | (inr a, w') => f a w'
    end.

Definition raise {A} (e : exn) : M A := fun w => (inl e, w).

Definition lift {A} (r : result A) : M A := fun w => (r, w).

(** [try: m  except <handled>: handler] *)
Definition try_except {A} (m : M A) (handled : exn -> bool) (handler : exn -> M A)
  : M A :=
  fun w =>
    match m w with
    | (inl e, w') => if handled e then handler e w' else (inl e, w')
    | r => r
    end.

Definition emit (o : output) : M unit :=
  fun w => (inr tt, {| fs := fs w; stdout := stdout w ++ [o] |}).

(** [print(s)] *)
Definition print (s : string) : M unit := emit (Line s).

Definition is_OSError (e : exn) : bool :=
  match e with
  | FileNotFoundError _ | FileExistsError _
  | IsADirectoryError _ | NotADirectoryError _ => true
  | _ => false
  end.

Definition is_FileExistsError (e : exn) : bool :=
  match e with
  | FileExistsError _ => true
  | _ => false
  end.

(** *** [posixpath] *)

Module posixpath.

Definition is_sep (c : ascii) : bool := bool_decide (c = "/"%char).

(** [(p[:i], p[i:])] for [i = p.rfind("/") + 1]. *)
Fixpoint cut (p : string) : string * string :=
  match p with
  | EmptyString => (EmptyString, EmptyString)
  | String c p' =>
      let (h, t) := cut p' in
      if is_sep c || negb (bool_decide (h = EmptyString))
      then (String c h, t)
      else (EmptyString, String c t)
  end.

(** [head == sep * len(head)] *)
Fixpoint all_sep (s : string) : bool :=
  match s with
  | EmptyString => true
  | String c s' => is_sep c && all_sep s'
  end.

(** [os.path.split] *)
Definition split (p : string) : string * string :=
  let (head, tail) := cut p in
  (if negb (bool_decide (head = EmptyString)) && negb (all_sep head)
   then PyStr.rstrip_by is_sep head
   else head,
   tail).

(** [os.path.dirname] *)
Definition dirname (p : string) : string := (split p).1.

End posixpath.

(** *** [os] *)

(** The key of a path in the file system: the path without its trailing
    separators. *)
Definition entry (p : string) : string := PyStr.rstrip_by posixpath.is_sep p.

(** What a path names.  The empty path names nothing, a path of separators
    names the root and ["."] the current directory, which both exist; any
    other path is looked up as it is written, trailing separators apart,
    which only the path of a directory may have. *)
Definition stat (w : World) (p : string) : option node :=
  if bool_decide (p = "") then None
  else if posixpath.all_sep p || bool_decide (p = ".") then Some Dir
  else
    match fs w !! entry p with
    | Some (File content) =>
        if bool_decide (entry p = p) then Some (File content) else None
    | r => r
    end.

(** [os.path.exists] and [os.path.isdir] *)
Definition path_exists (p : string) : M bool :=
  fun w => (inr (bool_decide (is_Some (stat w p))), w).

Definition path_isdir (p : string) : M bool :=
  fun w =>
    (inr match stat w p with
         | Some Dir => true
         | _ => false
         end, w).

(** The directory an entry named [p] is made in: [None] stands for the
    current directory. *)
Definition parent_of (p : string) : option string :=
  let d := posixpath.dirname (entry p) in
  if bool_decide (d = "") then None else Some d.

Definition check_parent (w : World) (p : string) : result unit :=
  match parent_of p with
  | None => inr tt
  | Some d =>
      match stat w d with
      | Some Dir => inr tt
      | Some (File _) => inl (NotADirectoryError p)
      | None => inl (FileNotFoundError p)
      end
  end.

(** [os.mkdir] *)
Definition mkdir (name : string) : M unit :=
  fun w =>
    if bool_decide (name = "") then (inl (FileNotFoundError name), w)
    else
      match stat w name with
      | Some _ => (inl (FileExistsError name), w)
      | None =>
          match check_parent w name with
          | inl e => (inl e, w)
          | inr _ =>
              (inr tt, {| fs := <[entry name := Dir]> (fs w); stdout := stdout w |})
          end
      end.

(** [os.makedirs(name, exist_ok=exist_ok)].  The recursion is on the head of
    the path, which is shorter than the path; [fuel] bounds its depth as the
    interpreter's recursion limit does. *)
Fixpoint makedirs_rec (fuel : nat) (name : string) (exist_ok : bool) : M unit :=
  match fuel with
  | O => raise RecursionError
  | S fuel' =>
      let (head0, tail0) := posixpath.split name in
      let (head, tail) :=
        if bool_decide (tail0 = "") then posixpath.split head0 else (head0, tail0) in
      head_exists ← path_exists head;
      finished ←
        (if negb (bool_decide (head = "")) && negb (bool_decide (tail = ""))
            && negb head_exists
         then
           try_except (makedirs_rec fuel' head exist_ok)
             is_FileExistsError (fun _ => mret tt);;
           mret (bool_decide (tail = "."))
         else mret false);
      if (finished : bool) then mret tt
      else
        try_except (mkdir name) is_OSError
          (fun e =>
             isdir ← path_isdir name;
             if negb exist_ok || negb isdir then raise e else mret tt)
  end.

Definition makedirs (name : string) (exist_ok : bool) : M unit :=
  makedirs_rec (S (String.length name)) name exist_ok.

(** [open(path, "w").write(content)] *)
Definition write_file (path content : string) : M unit :=
  fun w =>
    if bool_decide (path = "") then (inl (FileNotFoundError path), w)
    else
      match stat w path with
      | Some Dir => (inl (IsADirectoryError path), w)
      | _ =>
          if bool_decide ((posixpath.split path).2 = "")
          then (inl (IsADirectoryError path), w)
          else
            match check_parent w path with
            | inl e => (inl e, w)
            | inr _ =>
                (inr tt,
                 {| fs := <[path := File content]> (fs w); stdout := stdout w |})
            end
      end.

(** [open(path).read()] *)
Definition read_file (path : string) : M string :=
  fun w =>
    match stat w path with
    | None => (inl (FileNotFoundError path), w)
    | Some Dir => (inl (IsADirectoryError path), w)
    | Some (File content) => (inr content, w)
    end.

(** ** The script *)

(** What [pd.to_numeric] reads in a text cell: an integer or a float. *)
Inductive number :=
| NInt (z : Z)
| NFloat (x : spec_float).

Definition as_int (n : number) : option Z :=
  match n with
  | NInt z => Some z
  | NFloat _ => None
  end.

Definition as_float (n : number) : spec_float :=
  match n with
  | NInt z => float_of_Z z
  | NFloat x => x
  end.

Definition map_series (f : Series -> Series) (df : DataFrame) : DataFrame :=
  {| index := index df; items := prod_map id f <$> items df |}.

(** [df[keys]] for a list of labels of [df]: for each label in turn, every
    column that carries it. *)
Definition getitem_frame (df : DataFrame) (keys : list string) : DataFrame :=
  {| index := index df;
     items := k ← keys; filter (fun c : string * Series => c.1 = k) (items df) |}.

(** [df.isetitem(locs, cols)] for the positions [locs] of the label [key]:
    the columns labelled [key] take, from left to right, the columns of
    [cols]; the labels stay. *)
Fixpoint isetitem (key : string) (cols : list Series) (l : list (string * Series))
  : list (string * Series) :=
  match l with
  | [] => []
  | c :: l' =>
      if bool_decide (c.1 = key)
      then
        match cols with
        | s :: cols' => (c.1, s) :: isetitem key cols' l'
        | [] => c :: l'
        end
      else c :: isetitem key cols l'
  end.

(** [df[k1] = value[k2]], one step of the loop below.  When [k2] names one
    column of [value] this is the assignment of a column, [setitem]; in the
    loop below [k1] is then [k2] and names one column of [df].  When [k2]
    names several, [value[k2]] is a table, which pandas assigns to the
    columns labelled [k1] by position if they are as many as its columns,
    and refuses otherwise ("Columns must be same length as key"). *)
Definition setitem_pair (value : DataFrame) (df : DataFrame) (kk : string * string)
  : result DataFrame :=
  match getitem value kk.2 with
  | NoColumn => inl (KeyError kk.2)
  | Column s => inr (setitem df kk.1 s)
  | SubFrame cols =>
      if bool_decide
           (length (filter (fun c : string * Series => c.1 = kk.1) (items df))
            = length cols)
      then inr {| index := index df; items := isetitem kk.1 cols (items df) |}
      else inl ValueError
  end.

(** [check_key_length(df.columns, keys, value)]: with distinct column labels
    [value] has as many columns as there are keys, and otherwise as many as
    the positions [df.columns.get_indexer_non_unique(keys)] lists: those of
    the columns a key names, and one for a key that names none. *)
Definition check_key_length (df : DataFrame) (keys : list string) (value : DataFrame)
  : result unit :=
  let expected :=
    if bool_decide (NoDup (columns df))
    then length keys
    else
      length (k ← keys;
              match filter (fun c : string => c = k) (columns df) with
              | [] => [k]
              | named => named
              end) in
  if bool_decide (ncols value = expected) then inr tt else inl ValueError.

(** [df[keys] = value] for a table [value]:
    [check_key_length(df.columns, keys, value)], then
    [for k1, k2 in zip(keys, value.columns): df[k1] = value[k2]].
    The keys are paired with the column labels of [value] by position, so
    after a label that several columns carry the pairs are shifted. *)
Definition setitem_frame (df : DataFrame) (keys : list string) (value : DataFrame)
  : result DataFrame :=
  match check_key_length df keys value with
  | inl e => inl e
  | inr _ => for_each (setitem_pair value) (zip keys (columns value)) df
  end.

(** [df.dropna(subset=subset)]: a row stays when none of its cells in the
    columns of [subset] is missing. *)
Definition dropna (subset : list string) (df : DataFrame) : DataFrame :=
  let checked := filter (fun c => c.1 ∈ subset) (items df) in
  let mask :=
    foldr (fun c m => zip_with andb (negb <$> isna c.2) m)
          (replicate (nrows df) true) checked in
  take_rows mask df.

Section Script.

(** The three pieces of pandas the script relies on and this file leaves
    open: the numeric reading of a text cell ([None] when it does not
    parse), the CSV reader ([None] when the content is not a table) and
    the CSV writer. *)
Variable parse_number : string -> option number.
Variable read_csv_text : string -> option DataFrame.
Variable to_csv_text : DataFrame -> string.

(** [pd.read_csv(path)] *)
Definition read_csv (path : string) : M DataFrame :=
  content ← read_file path;
  match read_csv_text content with
  | Some df => mret df
  | None => raise ParserError
  end.

(** [df.to_csv(path, index=False)] *)
Definition to_csv (df : DataFrame) (path : string) : M unit :=
  write_file path (to_csv_text df).

(** [pd.to_numeric(s, errors="coerce")]: a numeric column is returned as
    it is; in a text column a cell that does not parse, or is missing,
    becomes NaN, and the column is [int64] when every cell reads as an
    integer, [float64] otherwise. *)
Definition coerce_cell (x : option string) : number :=
  match x with
  | Some s => default (NFloat S754_nan) (parse_number s)
  | None => NFloat S754_nan
  end.

Definition to_numeric (s : Series) : Series :=
  match s with
  | SObject l =>
      let ns := coerce_cell <$> l in
      match mapM as_int ns with
      | Some zs => SInt zs
      | None => SFloat (as_float <$> ns)
      end
  | _ => s
  end.

(** *** [load_data] *)
Definition load_data (file_path : string) : M DataFrame :=
  found ← path_exists file_path;
  if negb found
  then raise (FileNotFoundError ("File not found: " +:+ file_path))
  else
    df ← read_csv file_path;
    print ("Loaded data with " +:+ pretty (nrows df) +:+ " rows and "
           +:+ pretty (ncols df) +:+ " columns");;
    mret df.

(** *** [clean_column_names] *)
Definition clean_label (name : string) : string :=
  PyStr.replace "-" "_" (PyStr.replace " " "_" (PyStr.lower (PyStr.strip name))).

Definition clean_column_names (df : DataFrame) : M DataFrame :=
  let df := map_columns clean_label df in
  print "Standardized column names.";;
  mret df.

(** *** [strip_text_fields] *)

(** [df[col] = df[col].str.strip()]: only a text column has [.str]. *)
Definition strip_column (df : DataFrame) (col : string) : result DataFrame :=
  match getitem df col with
  | Column (SObject l) => inr (setitem df col (SObject (str_strip l)))
  | Column _ => inl AttributeError
  | SubFrame _ => inl AttributeError
  | NoColumn => inl (KeyError col)
  end.

Definition strip_text_fields (df : DataFrame) : M DataFrame :=
  df ← lift (for_each strip_column (columns (select_dtypes [Object] df)) df);
  print "Stripped whitespace from text fields.";;
  mret df.

(** *** [handle_missing_values]

    [df[cols] = df[cols].fillna(...)] selects the columns of [cols] and
    assigns them back, both by label.  With distinct labels each selected
    column is filled where it stands.  A label that several columns carry
    selects all of them, once for each time it is in [cols]: the assignment
    then raises [ValueError] when the selection has more columns than the
    label names (two numeric, or two text columns under one label), and
    assigns by position otherwise. *)
Definition handle_missing_values (df : DataFrame) : M DataFrame :=
  let numeric_cols := columns (select_dtypes [Int64; Float64] df) in
  let text_cols := columns (select_dtypes [Object] df) in
  df ← lift (setitem_frame df numeric_cols
               (map_series fillna_zero (getitem_frame df numeric_cols)));
  df ← lift (setitem_frame df text_cols
               (map_series ffill (getitem_frame df text_cols)));
  print "Handled missing numeric and text values.";;
  mret df.

(** *** [remove_invalid_rows] *)
Definition designated : list string := ["price"; "quantity"].

(** [if col in df.columns: df[col] = pd.to_numeric(df[col], errors="coerce")];
    [pd.to_numeric] takes a column, not a table. *)
Definition coerce_column (df : DataFrame) (col : string) : result DataFrame :=
  if bool_decide (col ∈ columns df)
  then
    match getitem df col with
    | Column s => inr (setitem df col (to_numeric s))
    | SubFrame _ => inl TypeError
    | NoColumn => inl (KeyError col)
    end
  else inr df.

(** [if col in df.columns: df = df[df[col] >= 0]].  The label is carried by
    one column here: with several the coercion loop has raised before. *)
Definition keep_nonnegative (df : DataFrame) (col : string) : result DataFrame :=
  if bool_decide (col ∈ columns df)
  then
    match getitem df col with
    | Column s =>
        match ge_zero s with
        | inl e => inl e
        | inr mask => inr (take_rows mask df)
        end
    | SubFrame _ => inl ValueError
    | NoColumn => inl (KeyError col)
    end
  else inr df.

Definition remove_invalid_rows (df : DataFrame) : M DataFrame :=
  let df := map_columns (PyStr.replace "quanitity" "quantity") df in
  df ← lift (for_each coerce_column designated df);
  let cols_to_check := filter (fun c => c ∈ columns df) designated in
  let df :=
    match cols_to_check with
    | [] => df
    | _ => dropna cols_to_check df
    end in
  df ← lift (for_each keep_nonnegative designated df);
  print "Removed invalid rows (negative price/quantity).";;
  mret df.

(** *** [save_cleaned_data] *)
Definition save_cleaned_data (df : DataFrame) (output_path : string) : M unit :=
  makedirs (posixpath.dirname output_path) true;;
  to_csv df output_path;;
  print ("Saved cleaned data â†’ " +:+ output_path).

(** *** [clean_pipeline] *)
Definition clean_pipeline (raw_path cleaned_path : string) : M unit :=
  df ← load_data raw_path;
  df ← clean_column_names df;
  df ← strip_text_fields df;
  df ← handle_missing_values df;
  df ← remove_invalid_rows df;
  save_cleaned_data df cleaned_path;;
  print "Cleaning pipeline finished successfully!";;
  emit (Frame (head_rows df)).

(** The main block. *)
Definition main : M unit :=
  clean_pipeline "data/raw/sales_data_raw.csv" "data/processed/sales_data_clean.csv".

End Script.

(** ** A concrete instance, for the examples

    The examples read a text cell as a decimal integer, with an optional
    minus sign; the theorems hold for every reader. *)

Module Sample.

Fixpoint digits (acc : Z) (s : string) : option Z :=
  match s with
  | EmptyString => Some acc
  | String c s' =>
      match Ascii.is_nat c with
      | Some d => digits (10 * acc + Z.of_nat d) s'
      | None => None
      end
  end.

Definition parse_number (s : string) : option number :=
  match s with
  | EmptyString => None
  | String "-" (String c s') => (fun z => NInt (- z)) <$> digits 0 (String c s')
  | _ => NInt <$> digits 0 s
  end.

(** The table of the specification's end-to-end scenario. *)
Definition sales : DataFrame :=
  {| index := [0; 1; 2]%nat;
     items := [("price", SObject [Some "10"; Some "abc"; Some "20"]);
               ("quantity", SObject [Some "-1"; Some "5"; Some "3"])] |}.

Definition read_csv_text (content : string) : option DataFrame :=
  if bool_decide (content = "") then None else Some sales.

Definition to_csv_text (df : DataFrame) : string := "csv".

Definition empty_world : World := {| fs := ∅; stdout := [] |}.

Definition raw_world : World :=
  {| fs := {[ "raw.csv" := File "price,quantity" ]}; stdout := [] |}.

End Sample.

(** The table of the end-to-end scenario, cleaned: only the third row
    stays. *)
Definition sales_clean : DataFrame :=
  {| index := [2%nat];
     items := [("price", SFloat [float_of_Z 20]); ("quantity", SInt [3])] |}.

(** A table whose header has the typo, as a label and inside a label. *)
Definition typo_table : DataFrame :=
  {| index := [0; 1; 2]%nat;
     items := [("quanitity", SObject [Some "4"; Some "-2"; None]);
               ("quanitity_ordered", SObject [Some "a"; Some "b"; Some "c"])] |}.

(** A table with a gap in each kind of column. *)
Definition gaps : DataFrame :=
  {| index := [0; 1; 2; 3]%nat;
     items := [("category", SObject [None; Some "A"; None; Some "B"]);
               ("price", SFloat [S754_nan; float_of_Z 3; S754_nan; float_of_Z 7]);
               ("units", SInt [1; 2; 3; 4])] |}.

Definition gaps_filled : DataFrame :=
  {| index := [0; 1; 2; 3]%nat;
     items := [("category", SObject [None; Some "A"; Some "A"; Some "B"]);
               ("price", SFloat [float_zero; float_of_Z 3; float_zero; float_of_Z 7]);
               ("units", SInt [1; 2; 3; 4])] |}.

(** The world after [remove_invalid_rows] has run in the empty one. *)
Definition filtered_world : World :=
  {| fs := ∅;
     stdout := [Line "Removed invalid rows (negative price/quantity)."] |}.

(** What [remove_invalid_rows] makes of [typo_table]. *)
Definition typo_table_clean : DataFrame :=
  {| index := [0%nat];
     items := [("quantity", SFloat [float_of_Z 4]);
               ("quantity_ordered", SObject [Some "a"])] |}.

(** A table with the typo and with the label it is corrected to. *)
Definition both_labels : DataFrame :=
  {| index := [0; 1]%nat;
     items := [("quanitity", SObject [Some "4"; Some "5"]);
               ("quantity", SInt [1; 2])] |}.

(** The pipeline of the examples. *)
Abbreviation sample_pipeline :=
  (clean_pipeline Sample.parse_number Sample.read_csv_text Sample.to_csv_text).

(** * Notions the statements use *)

(** ** Labels *)

Definition swap_char (a b c : ascii) : ascii := if bool_decide (c = a) then b else c.

(** The character of a clean label that stands for [c]: lowercased, with
    the space and the hyphen turned into an underscore. *)
Definition clean_char (c : ascii) : ascii :=
  if bool_decide (c = " "%char) || bool_decide (c = "-"%char)
  then "_"%char
  else PyStr.lower_char c.

Definition all_chars (P : ascii -> bool) (s : string) : Prop :=
  Forall (fun c => P c = true) (PyStr.chars s).

(** [s] neither starts nor ends with a character of [P]. *)
Definition no_outer (P : ascii -> bool) (s : string) : Prop :=
  (forall c, head (PyStr.chars s) = Some c -> P c = false)
  /\ (forall c, last (PyStr.chars s) = Some c -> P c = false).

(** A label is canonical when it has no capital, no whitespace at either
    end, no space and no hyphen. *)
Definition canonical (s : string) : Prop :=
  Forall (fun c => PyStr.is_upper c = false) (PyStr.chars s)
  /\ no_outer PyStr.is_space s
  /\ (" "%char ∉ PyStr.chars s)
  /\ ("-"%char ∉ PyStr.chars s).

Definition fix_typo : string -> string := PyStr.replace "quanitity" "quantity".

(** The code points of a string. *)
Definition codes (s : string) : list N := PyStr.code <$> PyStr.chars s.

(** [s] neither starts nor ends with a code point of [P]. *)
Definition outer_free (P : N -> bool) (s : list N) : Prop :=
  (forall c, head s = Some c -> P c = false)
  /\ (forall c, last s = Some c -> P c = false).

(** What [str.lower] makes of the character [c]: one of the two small
    sigmas for the capital sigma, and [PyUnicode.lower_char c] otherwise. *)
Definition lowers_to (c : N) (image : list N) : Prop :=
  if (c =? 931)%N
  then image = [962%N] \/ image = [963%N]
  else image = PyUnicode.lower_char c.

(** The two replacements of [clean_column_names], on one character. *)
Definition underscored (c : N) : N :=
  if ((c =? 32) || (c =? 45))%N then 95%N else c.

(** The label "ℂ Price": a double-struck capital C (U+2102), a space, and
    [Price]. *)
Definition double_struck_price : list N := [8450; 32; 80; 114; 105; 99; 101]%N.

(** ** Rows and cells *)

(** Two masks applied in a row are one mask. *)
Fixpoint compose_masks (m1 m2 : list bool) : list bool :=
  match m1 with
  | [] => []
  | true :: m1' =>
      match m2 with
      | [] => []
      | b :: m2' => b :: compose_masks m1' m2'
      end
  | false :: m1' => false :: compose_masks m1' m2
  end.

Definition valid_cell (x : spec_float) : Prop :=
  is_nan x = false /\ SFleb float_zero x = true.

(** Every cell of the column is present, a number, and at least 0. *)
Definition valid_column (s : Series) : Prop :=
  match s with
  | SInt l => Forall (fun z => 0 <= z) l
  | SFloat l => Forall valid_cell l
  | SObject _ => False
  end.

(** The table can be filtered on its designated columns: a label names one
    column, and a designated column is numeric. *)
Definition filterable (df : DataFrame) : Prop :=
  NoDup (columns df)
  /\ forall col s, col ∈ designated -> (col, s) ∈ items df -> Series_dtype s <> Object.

Section Coercion.

Variable parse_number : string -> option number.

(** What the coercion of one designated column does to the table. *)
Definition coerce_item (col : string) (c : string * Series) : string * Series :=
  if bool_decide (c.1 = col) then (c.1, to_numeric parse_number c.2) else c.

(** The column a designated label names after both coercions. *)
Definition coerced (c : string * Series) : string * Series :=
  if bool_decide (c.1 ∈ designated) then (c.1, to_numeric parse_number c.2) else c.

(** What a run that keeps the rows of [mask] makes of a column. *)
Definition cleaned_item (mask : list bool) (c : string * Series) : string * Series :=
  (fix_typo c.1,
   Series_select mask
     (if bool_decide (fix_typo c.1 ∈ designated)
      then to_numeric parse_number c.2
      else c.2)).

End Coercion.

(** ** Filling *)

Definition fill_zero (x : spec_float) : spec_float := if is_nan x then float_zero else x.

(** What the function makes of a column: zeros for the missing numbers,
    the forward fill for the missing texts. *)
Definition fill_column (s : Series) : Series :=
  match s with
  | SInt l => SInt l
  | SFloat l => SFloat (fill_zero <$> l)
  | SObject l => SObject (pad is_none None l)
  end.

Definition fill_frame (df : DataFrame) : DataFrame :=
  {| index := index df; items := prod_map id fill_column <$> items df |}.

(** No cell of the column is missing. *)
Definition complete (s : Series) : Prop :=
  Forall (fun missing => missing = false) (isna s).

(** No number of the column is missing: a numeric column is complete. *)
Definition numbers_complete (s : Series) : Prop :=
  Series_dtype s ∈ [Int64; Float64] -> complete s.

Definition is_numeric (c : string * Series) : Prop := Series_dtype c.2 ∈ [Int64; Float64].
Definition is_text (c : string * Series) : Prop := Series_dtype c.2 ∈ [Object].

(** ** Assigning by label *)

(** The columns [upd] assigns, looked up by label. *)
Fixpoint assoc (k : string) (upd : list (string * Series)) : option Series :=
  match upd with
  | [] => None
  | (k', s) :: upd' => if bool_decide (k' = k) then Some s else assoc k upd'
  end.

Definition updated (upd : list (string * Series)) (c : string * Series)
  : string * Series :=
  match assoc c.1 upd with
  | Some s => (c.1, s)
  | None => c
  end.

(** ** Paths *)

(** [os.path.exists(p)] holds in the world [w]. *)
Definition exists_in (w : World) (p : string) : Prop := is_Some (stat w p).

(** ** Further notions *)

(** A table with whitespace around its text cells. *)
Definition padded : DataFrame :=
  {| index := [0; 1; 2]%nat;
     items := [("name", SObject [Some "  Ann "; None; Some "Bob"]);
               ("units", SInt [1; 2; 3])] |}.

Definition padded_stripped : DataFrame :=
  {| index := [0; 1; 2]%nat;
     items := [("name", SObject [Some "Ann"; None; Some "Bob"]);
               ("units", SInt [1; 2; 3])] |}.

(** A table in which a text column and a numeric column carry one label. *)
Definition twice_named : DataFrame :=
  {| index := [0%nat];
     items := [("name", SObject [Some "a"]); ("name", SInt [1])] |}.

(** A table with two labels that differ by case and outer whitespace. *)
Definition colliding : DataFrame :=
  {| index := [0%nat];
     items := [("Name", SObject [Some "Ann"]); (" name", SObject [Some "Bob"])] |}.

(** The number of columns that carry the label [k]. *)
Definition carried (df : DataFrame) (k : string) : nat :=
  length (filter (fun c : string * Series => c.1 = k) (items df)).

(** Every label of a text column names that column only. *)
Definition text_labels_single (df : DataFrame) : Prop :=
  forall k l, (k, SObject l) ∈ items df -> carried df k = 1%nat.

(** A text column with its cells stripped; a numeric column as it is. *)
Definition strip_series (s : Series) : Series :=
  match s with
  | SObject l => SObject (str_strip l)
  | _ => s
  end.

(** Each designated label is carried by one column at most. *)
Definition designated_single (df : DataFrame) : Prop :=
  forall col, col ∈ designated -> (carried df col <= 1)%nat.

(** A designated label that is there names one column, a numeric one. *)
Definition designated_numeric (df : DataFrame) : Prop :=
  forall col, col ∈ designated -> col ∈ columns df ->
    exists s, getitem df col = Column s /\ Series_dtype s <> Object.

(** The mask of [s >= 0], empty when the comparison raises. *)
Definition ge_mask (s : Series) : list bool :=
  match ge_zero s with
  | inr mask => mask
  | inl _ => []
  end.

(** The mask the filter on [col] applies: that of the column, every row
    when no column carries the label. *)
Definition col_mask (df : DataFrame) (col : string) : list bool :=
  match getitem df col with
  | Column s => ge_mask s
  | _ => replicate (nrows df) true
  end.

(** The mask of [df.dropna(subset=subset)]. *)
Definition notna_mask (subset : list string) (df : DataFrame) : list bool :=
  foldr (fun c m => zip_with andb (negb <$> isna c.2) m)
        (replicate (nrows df) true)
        (filter (fun c : string * Series => c.1 ∈ subset) (items df)).

(** The cell of row [i] is a number that is at least 0. *)
Definition nonneg_at (s : Series) (i : nat) : Prop :=
  match s with
  | SInt l => exists z, l !! i = Some z /\ 0 <= z
  | SFloat l => exists x, l !! i = Some x /\ SFleb float_zero x = true
  | SObject _ => False
  end.

(** The cell of row [i] passes the filter once the column has been filled:
    a number that is at least 0 or, in a float column, a missing one. *)
Definition survives (parse_number : string -> option number) (s : Series) (i : nat)
  : Prop :=
  match s with
  | SInt l => exists z, l !! i = Some z /\ 0 <= z
  | SFloat l =>
      exists x, l !! i = Some x /\ (is_nan x = true \/ SFleb float_zero x = true)
  | SObject l => nonneg_at (to_numeric parse_number (SObject (pad is_none None l))) i
  end.

(** A float column with a missing and a negative cell. *)
Definition float_sales : DataFrame :=
  {| index := [0; 1; 2]%nat;
     items := [("price", SFloat [S754_nan; float_of_Z (-5); float_of_Z 7]);
               ("item", SObject [Some "a"; Some "b"; Some "c"])] |}.

(** A table without the designated columns. *)
Definition plain : DataFrame :=
  {| index := [0; 1]%nat;
     items := [("quanitity_ordered", SInt [-1; 2]); ("item", SObject [None; Some "b"])] |}.

(** The world after the pipeline has run from [raw.csv] to [out/clean.csv]. *)
Definition cleaned_world : World :=
  {| fs := {[ "raw.csv" := File "price,quantity";
              "out" := Dir;
              "out/clean.csv" := File "csv" ]};
     stdout := [Line "Loaded data with 3 rows and 2 columns";
                Line "Standardized column names.";
                Line "Stripped whitespace from text fields.";
                Line "Handled missing numeric and text values.";
                Line "Removed invalid rows (negative price/quantity).";
                Line "Saved cleaned data â†’ out/clean.csv";
                Line "Cleaning pipeline finished successfully!";
                Frame sales_clean] |}.

(** A table in which each of two labels names a text and a float column. *)
Definition shared_labels : DataFrame :=
  {| index := [0; 1]%nat;
     items := [("a", SObject [Some "p"; Some "q"]);
               ("a", SFloat [float_of_Z 1; float_of_Z 2]);
               ("b", SObject [Some "x"; None]);
               ("b", SFloat [S754_nan; float_of_Z 4])] |}.

(** Two text columns under one label, and two float columns under one
    label. *)
Definition two_texts : DataFrame :=
  {| index := [0; 1]%nat;
     items := [("a", SObject [Some "x"; None]); ("a", SObject [Some "y"; Some "z"])] |}.

Definition two_floats : DataFrame :=
  {| index := [0; 1]%nat;
     items := [("a", SFloat [float_of_Z 1; S754_nan]);
               ("a", SFloat [float_of_Z 2; float_of_Z 3])] |}.

(** A float and a text column under one label. *)
Definition float_and_text : DataFrame :=
  {| index := [0; 1]%nat;
     items := [("a", SFloat [float_of_Z 1; S754_nan]); ("a", SObject [Some "x"; None])] |}.

(** * Properties *)

(** ** Characters and strings *)

Ltac each_char c := destruct c as [[] [] [] [] [] [] [] []].

(** A decidable proposition, settled by evaluating its decision. *)
Ltac by_decision := refine (bool_decide_unpack _ _); vm_compute; exact I.

Lemma clean_char_steps c :
  swap_char "-" "_" (swap_char " " "_" (PyStr.lower_char c)) = clean_char c.
Proof. each_char c; reflexivity. Qed.

Lemma clean_char_idem c : clean_char (clean_char c) = clean_char c.
Proof. each_char c; reflexivity. Qed.

Lemma clean_char_canonical c :
  PyStr.is_upper (clean_char c) = false
  /\ clean_char c <> " "%char /\ clean_char c <> "-"%char.
Proof. each_char c; repeat split; (reflexivity || discriminate). Qed.

Lemma clean_char_space c : PyStr.is_space c = false -> PyStr.is_space (clean_char c) = false.
Proof. each_char c; intros H; (reflexivity || discriminate H). Qed.

Lemma append_cons c (s t : string) : String c s +:+ t = String c (s +:+ t).
Proof. reflexivity. Qed.

Lemma append_empty_l (s : string) : "" +:+ s = s.
Proof. reflexivity. Qed.

Lemma chars_map_string f s : PyStr.chars (PyStr.map_string f s) = f <$> PyStr.chars s.
Proof. induction s as [|c s IH]; [reflexivity|]. cbn. f_equal. exact IH. Qed.

Lemma map_string_compose f g s :
  PyStr.map_string f (PyStr.map_string g s) = PyStr.map_string (fun c => f (g c)) s.
Proof. induction s as [|c s IH]; [reflexivity|]. cbn. f_equal. exact IH. Qed.

Lemma map_string_ext f g s :
  (forall c, f c = g c) -> PyStr.map_string f s = PyStr.map_string g s.
Proof. intros E. induction s as [|c s IH]; [reflexivity|]. cbn. rewrite E, IH. reflexivity. Qed.

(** Replacing a one-character string by another one is a map. *)
Lemma replace_one_char a b s :
  PyStr.replace (String a "") (String b "") s = PyStr.map_string (swap_char a b) s.
Proof.
  unfold PyStr.replace.
  induction s as [|c s IH]; [reflexivity|].
  cbn [PyStr.replace_from PyStr.map_string String.prefix String.length Nat.pred].
  unfold swap_char.
  destruct (ascii_dec a c) as [->|Hne].
  - rewrite bool_decide_eq_true_2 by reflexivity.
    destruct s; cbn [String.prefix]; rewrite append_cons, append_empty_l, IH; reflexivity.
  - rewrite bool_decide_eq_false_2 by congruence. rewrite IH. reflexivity.
Qed.

(** A clean label, character by character. *)
Lemma clean_label_chars name :
  clean_label name = PyStr.map_string clean_char (PyStr.strip name).
Proof.
  unfold clean_label, PyStr.lower.
  rewrite !replace_one_char, !map_string_compose.
  apply map_string_ext, clean_char_steps.
Qed.

(** *** Stripping *)

Lemma lstrip_by_split P s :
  exists pre, s = pre +:+ PyStr.lstrip_by P s /\ all_chars P pre.
Proof.
  induction s as [|c s [pre [E Hpre]]].
  - exists "". split; [reflexivity | constructor].
  - cbn [PyStr.lstrip_by]. destruct (P c) eqn:Hc.
    + exists (String c pre). split.
      * rewrite append_cons. f_equal. exact E.
      * constructor; assumption.
    + exists "". split; [reflexivity | constructor].
Qed.

Lemma lstrip_by_head P s c :
  head (PyStr.chars (PyStr.lstrip_by P s)) = Some c -> P c = false.
Proof.
  induction s as [|a s IH]; cbn [PyStr.lstrip_by]; [discriminate|].
  destruct (P a) eqn:Ha; [exact IH|].
  cbn. intros [= <-]. exact Ha.
Qed.

Lemma lstrip_by_id P s :
  (forall c, head (PyStr.chars s) = Some c -> P c = false) -> PyStr.lstrip_by P s = s.
Proof.
  destruct s as [|a s]; [reflexivity|].
  intros H. cbn [PyStr.lstrip_by]. rewrite (H a); reflexivity.
Qed.

Lemma rstrip_by_split P s :
  exists post, s = PyStr.rstrip_by P s +:+ post /\ all_chars P post.
Proof.
  induction s as [|c s [post [E Hpost]]].
  - exists "". split; [reflexivity | constructor].
  - cbn [PyStr.rstrip_by]. destruct (PyStr.rstrip_by P s) as [|a r] eqn:Hr.
    + destruct (P c) eqn:Hc.
      * exists (String c post). split.
        -- rewrite append_empty_l in *. f_equal. exact E.
        -- constructor; assumption.
      * exists post. split; [|exact Hpost].
        rewrite append_cons. f_equal. exact E.
    + exists post. split; [|exact Hpost].
      rewrite append_cons. f_equal. exact E.
Qed.

Lemma rstrip_by_last P s c :
  last (PyStr.chars (PyStr.rstrip_by P s)) = Some c -> P c = false.
Proof.
  induction s as [|a s IH]; cbn [PyStr.rstrip_by]; [discriminate|].
  destruct (PyStr.rstrip_by P s) as [|b r] eqn:Hr.
  - destruct (P a) eqn:Ha; [discriminate|].
    cbn. intros [= <-]. exact Ha.
  - exact IH.
Qed.

Lemma rstrip_by_head P s c :
  head (PyStr.chars (PyStr.rstrip_by P s)) = Some c -> head (PyStr.chars s) = Some c.
Proof.
  destruct s as [|a s]; cbn [PyStr.rstrip_by]; [discriminate|].
  destruct (PyStr.rstrip_by P s) as [|b r].
  - destruct (P a); [discriminate|]. intros H; exact H.
  - intros H; exact H.
Qed.

Lemma rstrip_by_id P s :
  (forall c, last (PyStr.chars s) = Some c -> P c = false) -> PyStr.rstrip_by P s = s.
Proof.
  induction s as [|a s IH]; [reflexivity|].
  intros H. cbn [PyStr.rstrip_by].
  destruct s as [|b s].
  - cbn. rewrite (H a); reflexivity.
  - rewrite IH by (intros c Hc; apply H; exact Hc). reflexivity.
Qed.

(** [strip] removes a run of whitespace at each end, and nothing else. *)
Lemma strip_split s :
  exists pre post,
    s = pre +:+ PyStr.strip s +:+ post
    /\ all_chars PyStr.is_space pre /\ all_chars PyStr.is_space post.
Proof.
  destruct (lstrip_by_split PyStr.is_space s) as [pre [E1 Hpre]].
  destruct (rstrip_by_split PyStr.is_space (PyStr.lstrip s)) as [post [E2 Hpost]].
  exists pre, post. repeat split; [|assumption..].
  unfold PyStr.strip. fold (PyStr.rstrip (PyStr.lstrip s)) in E2.
  rewrite <- E2. exact E1.
Qed.

Lemma strip_no_outer s : no_outer PyStr.is_space (PyStr.strip s).
Proof.
  split; intros c H.
  - apply rstrip_by_head in H. exact (lstrip_by_head _ _ _ H).
  - exact (rstrip_by_last _ _ _ H).
Qed.

Lemma strip_id s : no_outer PyStr.is_space s -> PyStr.strip s = s.
Proof.
  intros [Hh Hl]. unfold PyStr.strip, PyStr.lstrip, PyStr.rstrip.
  rewrite (lstrip_by_id _ _ Hh). apply rstrip_by_id, Hl.
Qed.

Lemma map_clean_no_outer s :
  no_outer PyStr.is_space s -> no_outer PyStr.is_space (PyStr.map_string clean_char s).
Proof.
  intros [Hh Hl]. split; intros c; rewrite chars_map_string.
  - destruct (PyStr.chars s) as [|a l]; [discriminate|].
    cbn. intros [= <-]. apply clean_char_space, Hh. reflexivity.
  - rewrite fmap_last. destruct (last (PyStr.chars s)) as [a|]; [|discriminate].
    cbn. intros [= <-]. apply clean_char_space, Hl. reflexivity.
Qed.

Lemma clean_label_canonical name : canonical (clean_label name).
Proof.
  rewrite clean_label_chars. repeat split.
  - rewrite chars_map_string. apply Forall_fmap, Forall_true.
    intros c. apply clean_char_canonical.
  - apply map_clean_no_outer, strip_no_outer.
  - apply map_clean_no_outer, strip_no_outer.
  - rewrite chars_map_string. intros [c [E _]]%list_elem_of_fmap.
    symmetry in E. revert E. apply clean_char_canonical.
  - rewrite chars_map_string. intros [c [E _]]%list_elem_of_fmap.
    symmetry in E. revert E. apply clean_char_canonical.
Qed.

Lemma clean_label_idem name : clean_label (clean_label name) = clean_label name.
Proof.
  rewrite (clean_label_chars (clean_label name)).
  rewrite strip_id by apply clean_label_canonical.
  rewrite clean_label_chars, map_string_compose.
  apply map_string_ext, clean_char_idem.
Qed.

(** *** Replacing *)

Lemma prefix_split old s :
  String.prefix old s = true -> exists post, s = old +:+ post.
Proof.
  revert s. induction old as [|a old IH]; intros s H.
  - exists s. reflexivity.
  - destruct s as [|c s]; cbn [String.prefix] in H; [discriminate|].
    destruct (ascii_dec a c) as [->|]; [|discriminate].
    destruct (IH _ H) as [post ->]. exists post. reflexivity.
Qed.

Lemma prefix_append old post : String.prefix old (old +:+ post) = true.
Proof.
  induction old as [|a old IH]; [destruct post; reflexivity|].
  rewrite append_cons. cbn [String.prefix].
  destruct (ascii_dec a a); [exact IH | congruence].
Qed.

Lemma replace_from_skip old new u s :
  PyStr.replace_from old new (String.length u) (u +:+ s)
  = PyStr.replace_from old new 0 s.
Proof.
  induction u as [|c u IH]; [destruct s; reflexivity|].
  rewrite append_cons. cbn [String.length PyStr.replace_from]. exact IH.
Qed.

Lemma contains_intro old pre post :
  PyStr.contains old (pre +:+ (old +:+ post)) = true.
Proof.
  induction pre as [|c pre IH].
  - rewrite append_empty_l.
    destruct (old +:+ post) eqn:E; cbn [PyStr.contains];
      rewrite <- E, prefix_append; reflexivity.
  - rewrite append_cons. cbn [PyStr.contains]. rewrite IH. apply orb_true_r.
Qed.

(** The first occurrence of [old] is rewritten to [new], and the rest of the
    string is treated in the same way. *)
Lemma replace_first a old new s :
  PyStr.contains (String a old) s = true ->
  exists pre post,
    s = pre +:+ (String a old +:+ post)
    /\ PyStr.replace (String a old) new s
       = pre +:+ (new +:+ PyStr.replace (String a old) new post).
Proof.
  unfold PyStr.replace.
  induction s as [|c s IH]; intros H; [discriminate H|].
  destruct (String.prefix (String a old) (String c s)) eqn:Hp.
  - destruct (prefix_split _ _ Hp) as [post E].
    rewrite append_cons in E. injection E as -> ->.
    exists "", post. split; [reflexivity|].
    rewrite append_empty_l. cbn [PyStr.replace_from]. rewrite Hp.
    cbn [String.length Nat.pred]. rewrite replace_from_skip. reflexivity.
  - cbn [PyStr.contains] in H. rewrite Hp in H. cbn [orb] in H.
    destruct (IH H) as [pre [post [E R]]].
    exists (String c pre), post. split.
    + rewrite append_cons. f_equal. exact E.
    + cbn [PyStr.replace_from]. rewrite Hp, R. reflexivity.
Qed.

(** A string in which [old] does not occur is left as it is. *)
Lemma replace_absent a old new s :
  PyStr.contains (String a old) s = false -> PyStr.replace (String a old) new s = s.
Proof.
  unfold PyStr.replace.
  induction s as [|c s IH]; intros H; [reflexivity|].
  cbn [PyStr.contains] in H. apply orb_false_iff in H as [Hp Hc].
  cbn [PyStr.replace_from]. rewrite Hp, (IH Hc). reflexivity.
Qed.

(** ** Tables *)

Lemma columns_map_columns f df : columns (map_columns f df) = f <$> columns df.
Proof.
  unfold columns, map_columns. cbn. rewrite <- !list_fmap_compose.
  apply list_fmap_ext. intros _ [k s] _. reflexivity.
Qed.

Lemma columns_setitem df key s :
  key ∈ columns df -> columns (setitem df key s) = columns df.
Proof.
  intros Hin. unfold setitem, columns. cbn.
  rewrite bool_decide_eq_true_2 by exact Hin.
  rewrite <- list_fmap_compose. apply list_fmap_ext.
  intros _ [k x] _. cbn. case_bool_decide; cbn; congruence.
Qed.

Lemma columns_take_rows mask df : columns (take_rows mask df) = columns df.
Proof.
  unfold columns, take_rows. cbn. rewrite <- list_fmap_compose.
  apply list_fmap_ext. intros _ [k x] _. reflexivity.
Qed.

(** A property every round of a loop keeps, the loop keeps. *)
Lemma for_each_invariant {A B} (R : A -> A -> Prop) (body : A -> B -> result A) :
  (forall a, R a a) ->
  (forall a b c, R a b -> R b c -> R a c) ->
  (forall a x a', body a x = inr a' -> R a a') ->
  forall xs a a', for_each body xs a = inr a' -> R a a'.
Proof.
  intros Hrefl Htrans Hstep xs.
  induction xs as [|x xs IH]; intros a a' H; cbn in H.
  - injection H as <-. apply Hrefl.
  - destruct (body a x) as [e|a1] eqn:E; [discriminate|].
    eapply Htrans; [eapply Hstep, E | apply IH, H].
Qed.

(** ** [clean_column_names] *)

Lemma clean_column_names_run df w :
  clean_column_names df w
  = (inr (map_columns clean_label df),
     {| fs := fs w; stdout := stdout w ++ [Line "Standardized column names."] |}).
Proof. reflexivity. Qed.

(** Whatever the table of this file, [clean_column_names] returns, and the
    label it gives a column has no capital letter, no whitespace at either
    end, no space and no hyphen.  It is the old label with the whitespace at
    both ends cut off ([pre] and [post]) and every character of the rest
    lowercased, a space or a hyphen having become an underscore. *)
Lemma clean_column_names_labels (df : DataFrame) (w : World) :
  exists df' w',
    clean_column_names df w = (inr df', w')
    /\ length (columns df') = length (columns df)
    /\ forall (i : nat) (name : string),
         columns df !! i = Some name ->
         exists label,
           columns df' !! i = Some label
           /\ canonical label
           /\ exists pre core post,
                name = pre +:+ (core +:+ post)
                /\ all_chars PyStr.is_space pre
                /\ all_chars PyStr.is_space post
                /\ no_outer PyStr.is_space core
                /\ label = PyStr.map_string clean_char core.
Proof.
  eexists _, _. split; [apply clean_column_names_run|].
  rewrite columns_map_columns. split; [apply length_fmap|].
  intros i name Hi. exists (clean_label name). split.
  - rewrite list_lookup_fmap, Hi. reflexivity.
  - split; [apply clean_label_canonical|].
    destruct (strip_split name) as [pre [post [E [Hpre Hpost]]]].
    exists pre, (PyStr.strip name), post.
    repeat split; try assumption; try apply strip_no_outer.
    apply clean_label_chars.
Qed.

(** C6.  [clean_column_names] applied to its own result returns a table with
    the labels of that result: a second application changes no label. *)
Theorem clean_column_names_idempotent (df : DataFrame) (w : World) :
  exists df1 w1 df2 w2,
    clean_column_names df w = (inr df1, w1)
    /\ clean_column_names df1 w1 = (inr df2, w2)
    /\ columns df2 = columns df1.
Proof.
  eexists _, _, _, _.
  split; [apply clean_column_names_run|].
  split; [apply clean_column_names_run|].
  rewrite !columns_map_columns, <- list_fmap_compose.
  apply list_fmap_ext. intros _ name _. apply clean_label_idem.
Qed.

Example clean_label_unit_price : clean_label " Unit Price " = "unit_price".
Proof. reflexivity. Qed.

Example clean_label_mixed : clean_label "  Order-ID (USD) " = "order_id_(usd)".
Proof. reflexivity. Qed.

(** ** Labels of any code points *)

Section UnicodeLabels.

Local Open Scope N_scope.

Lemma lookup_pair_elem c pairs d :
  PyUnicode.lookup_pair c pairs = Some d -> (c, d) ∈ pairs.
Proof.
  induction pairs as [|[c' d'] pairs IH]; [discriminate|]. cbn.
  destruct (N.eqb_spec c c') as [->|_].
  - intros [= ->]. apply list_elem_of_here.
  - intros H. apply list_elem_of_further, IH, H.
Qed.

(** The table of lowercase mappings: no image is whitespace, and no image
    has a lowercase form of its own. *)
Lemma lower_pairs_images :
  Forall (fun p : N * N =>
            PyUnicode.is_space p.2 = false /\ PyUnicode.lower_char p.2 = [p.2])
         PyUnicode.lower_pairs.
Proof. by_decision. Qed.

Lemma lower_char_cases c :
  (c = 304 /\ PyUnicode.lower_char c = [105; 775])
  \/ (exists d, (c, d) ∈ PyUnicode.lower_pairs /\ PyUnicode.lower_char c = [d])
  \/ PyUnicode.lower_char c = [c].
Proof.
  unfold PyUnicode.lower_char. destruct (N.eqb_spec c 304) as [->|_]; [left; split; reflexivity|].
  right. destruct (PyUnicode.lookup_pair c PyUnicode.lower_pairs) as [d|] eqn:E.
  - left. exists d. split; [apply lookup_pair_elem, E | reflexivity].
  - right. reflexivity.
Qed.

Lemma lower_char_fixed c :
  Forall (fun d => PyUnicode.lower_char d = [d]) (PyUnicode.lower_char c).
Proof.
  destruct (lower_char_cases c) as [[_ ->] | [[d [Hd ->] ] | E] ].
  - repeat constructor.
  - constructor; [|constructor].
    apply (proj1 (Forall_forall _ _) lower_pairs_images (c, d) Hd).
  - rewrite E. constructor; [exact E | constructor].
Qed.

Lemma lower_char_no_space c :
  PyUnicode.is_space c = false ->
  Forall (fun d => PyUnicode.is_space d = false) (PyUnicode.lower_char c).
Proof.
  intros Hc. destruct (lower_char_cases c) as [[_ ->] | [[d [Hd ->] ] | ->] ].
  - repeat constructor.
  - constructor; [|constructor].
    apply (proj1 (Forall_forall _ _) lower_pairs_images (c, d) Hd).
  - constructor; [exact Hc | constructor].
Qed.

Lemma lower_char_nonempty c : PyUnicode.lower_char c <> [].
Proof.
  destruct (lower_char_cases c) as [[_ ->] | [[d [_ ->] ] | ->] ]; discriminate.
Qed.

(** What the image of a character is like. *)
Lemma lowers_to_image c image :
  lowers_to c image ->
  image <> []
  /\ Forall (fun d => PyUnicode.lower_char d = [d]) image
  /\ (PyUnicode.is_space c = false ->
      Forall (fun d => PyUnicode.is_space d = false) image).
Proof.
  unfold lowers_to. destruct (N.eqb_spec c 931) as [->|_].
  - intros [->| ->]; (split; [discriminate|]); split; intros; repeat constructor.
  - intros ->. split; [apply lower_char_nonempty|].
    split; [apply lower_char_fixed | apply lower_char_no_space].
Qed.

(** [lower] rewrites the characters one by one. *)
Lemma lower_from_images s : forall before,
  exists images,
    Forall2 lowers_to s images /\ PyUnicode.lower_from before s = concat images.
Proof.
  induction s as [|c s IH]; intros before; [exists []; split; [constructor | reflexivity]|].
  destruct (IH (c :: before)) as [images [H E]].
  cbn [PyUnicode.lower_from]. rewrite E.
  eexists (_ :: images). split; [|reflexivity].
  constructor; [|exact H].
  unfold lowers_to. destruct (c =? 931); [|reflexivity].
  destruct (PyUnicode.final_sigma before s); [left | right]; reflexivity.
Qed.

(** *** Stripping *)

Lemma lstrip_split s :
  exists pre,
    s = pre ++ PyUnicode.lstrip s /\ Forall (fun c => PyUnicode.is_space c = true) pre.
Proof.
  induction s as [|c s [pre [E Hpre]]]; [exists []; split; [reflexivity | constructor]|].
  cbn [PyUnicode.lstrip]. destruct (PyUnicode.is_space c) eqn:Hc.
  - exists (c :: pre). split; [cbn [app]; f_equal; exact E | constructor; assumption].
  - exists []. split; [reflexivity | constructor].
Qed.

Lemma rstrip_split s :
  exists post,
    s = PyUnicode.rstrip s ++ post /\ Forall (fun c => PyUnicode.is_space c = true) post.
Proof.
  induction s as [|c s [post [E Hpost]]]; [exists []; split; [reflexivity | constructor]|].
  cbn [PyUnicode.rstrip]. destruct (PyUnicode.rstrip s) as [|a r] eqn:Hr.
  - destruct (PyUnicode.is_space c) eqn:Hc.
    + exists (c :: post). split; [cbn [app] in *; f_equal; exact E | constructor; assumption].
    + exists post. split; [cbn [app] in *; f_equal; exact E | exact Hpost].
  - exists post. split; [cbn [app] in *; f_equal; exact E | exact Hpost].
Qed.

Lemma lstrip_head s c : head (PyUnicode.lstrip s) = Some c -> PyUnicode.is_space c = false.
Proof.
  induction s as [|a s IH]; [discriminate|]. cbn [PyUnicode.lstrip].
  destruct (PyUnicode.is_space a) eqn:Ha; [exact IH|].
  cbn [head]. intros [= <-]. exact Ha.
Qed.

Lemma rstrip_head s c : head (PyUnicode.rstrip s) = Some c -> head s = Some c.
Proof.
  destruct s as [|a s]; [discriminate|]. cbn [PyUnicode.rstrip].
  destruct (PyUnicode.rstrip s); [destruct (PyUnicode.is_space a); [discriminate|]|];
    cbn [head]; intros H; exact H.
Qed.

Lemma rstrip_last s c : last (PyUnicode.rstrip s) = Some c -> PyUnicode.is_space c = false.
Proof.
  induction s as [|a s IH]; [discriminate|]. cbn [PyUnicode.rstrip].
  destruct (PyUnicode.rstrip s) as [|b r] eqn:Hr.
  - destruct (PyUnicode.is_space a) eqn:Ha; [discriminate|].
    cbn [last]. intros [= <-]. exact Ha.
  - intros H. apply IH. exact H.
Qed.

Lemma strip_outer_free s : outer_free PyUnicode.is_space (PyUnicode.strip s).
Proof.
  split; intros c H.
  - apply rstrip_head in H. exact (lstrip_head _ _ H).
  - exact (rstrip_last _ _ H).
Qed.

Lemma strip_parts s :
  exists pre post,
    s = pre ++ PyUnicode.strip s ++ post
    /\ Forall (fun c => PyUnicode.is_space c = true) pre
    /\ Forall (fun c => PyUnicode.is_space c = true) post.
Proof.
  destruct (lstrip_split s) as [pre [E1 Hpre]].
  destruct (rstrip_split (PyUnicode.lstrip s)) as [post [E2 Hpost]].
  exists pre, post. split; [|split; assumption].
  unfold PyUnicode.strip. rewrite <- E2. exact E1.
Qed.

(** *** The clean label *)

Lemma clean_label_map name :
  PyUnicode.clean_label name = underscored <$> PyUnicode.lower (PyUnicode.strip name).
Proof.
  unfold PyUnicode.clean_label, PyUnicode.replace_char.
  rewrite <- list_fmap_compose. apply list_fmap_ext. intros _ c _.
  unfold underscored, compose. destruct (N.eqb_spec c 32) as [->|_]; [reflexivity|].
  reflexivity.
Qed.

Lemma underscored_no_space d :
  PyUnicode.is_space d = false -> PyUnicode.is_space (underscored d) = false.
Proof. unfold underscored. destruct ((d =? 32) || (d =? 45)); [reflexivity | tauto]. Qed.

Lemma underscored_fixed d :
  PyUnicode.lower_char d = [d] -> PyUnicode.lower_char (underscored d) = [underscored d].
Proof. unfold underscored. destruct ((d =? 32) || (d =? 45)); [reflexivity | tauto]. Qed.

Lemma underscored_neither d : underscored d <> 32 /\ underscored d <> 45.
Proof.
  unfold underscored.
  destruct (N.eqb_spec d 32) as [->|H1]; [split; discriminate|].
  destruct (N.eqb_spec d 45) as [->|H2]; [split; discriminate|].
  cbn. split; assumption.
Qed.

(** A character of Latin-1 that lowercasing leaves as it is is no capital:
    the capitals without a lowercase form lie above. *)
Lemma latin1_fixed_not_upper :
  Forall (fun d => PyUnicode.lower_char d = [d] -> PyUnicode.is_upper d = false)
         (N.of_nat <$> seq 0 256).
Proof. by_decision. Qed.

Lemma upper_fixed_above d :
  PyUnicode.lower_char d = [d] -> PyUnicode.is_upper d = true -> 255 < d.
Proof.
  intros Hfix Hup. destruct (N.lt_ge_cases 255 d) as [H|H]; [exact H|].
  exfalso.
  assert (Hin : d ∈ N.of_nat <$> seq 0 256).
  { apply list_elem_of_fmap. exists (N.to_nat d). split; [lia|].
    apply elem_of_seq. lia. }
  rewrite (proj1 (Forall_forall _ _) latin1_fixed_not_upper d Hin Hfix) in Hup.
  discriminate Hup.
Qed.

(** The characters of [lower s], all of them, and the first and the last. *)
Lemma lower_images s :
  exists images,
    Forall2 lowers_to s images /\ PyUnicode.lower s = mjoin images.
Proof.
  destruct (lower_from_images s []) as [images [H E]].
  exists images. split; [exact H|]. unfold PyUnicode.lower. rewrite E.
  clear. induction images as [|i images IH]; [reflexivity|]. cbn. rewrite IH. reflexivity.
Qed.

Lemma lower_fixed s : Forall (fun d => PyUnicode.lower_char d = [d]) (PyUnicode.lower s).
Proof.
  destruct (lower_images s) as [images [H ->]]. apply Forall_join.
  induction H as [|c image s images Hc _ IH]; constructor; [|exact IH].
  apply (lowers_to_image _ _ Hc).
Qed.

Lemma lower_outer_free s :
  outer_free PyUnicode.is_space s -> outer_free PyUnicode.is_space (PyUnicode.lower s).
Proof.
  intros [Hhead Hlast]. destruct (lower_images s) as [images [H ->]]. split; intros d Hd.
  - destruct H as [|c image s images Hc _]; [discriminate|].
    destruct (lowers_to_image _ _ Hc) as [Hne [_ Hsp]].
    destruct image as [|d' image]; [contradiction|]. cbn in Hd. injection Hd as ->.
    specialize (Hsp (Hhead c eq_refl)). apply Forall_cons in Hsp. apply Hsp.
  - destruct (last s) as [c|] eqn:Ec.
    + apply last_Some in Ec as [s' ->].
      apply Forall2_app_inv_l in H as [images1 [images2 [_ [H2 ->]]]].
      apply Forall2_cons_inv_l in H2 as [image [k [Hc [Hk ->]]]].
      apply Forall2_nil_inv_l in Hk as ->.
      destruct (lowers_to_image _ _ Hc) as [Hne [_ Hsp]].
      rewrite join_app in Hd. cbn in Hd. rewrite app_nil_r in Hd.
      assert (Hc' : PyUnicode.is_space c = false) by (apply Hlast; reflexivity).
      specialize (Hsp Hc').
      destruct (last image) as [d'|] eqn:Ed; [|apply last_None in Ed; contradiction].
      apply last_Some in Ed as [image' ->].
      rewrite app_assoc, last_snoc in Hd. injection Hd as <-.
      apply Forall_app in Hsp as [_ Hsp]. apply Forall_cons in Hsp. apply Hsp.
    + apply last_None in Ec as ->. apply Forall2_nil_inv_l in H as ->. discriminate Hd.
Qed.

(** What [clean_label] makes of a label of any code points. *)
Lemma clean_label_unicode name :
  let label := PyUnicode.clean_label name in
  outer_free PyUnicode.is_space label
  /\ (32 ∉ label) /\ (45 ∉ label)
  /\ Forall (fun d => PyUnicode.lower_char d = [d]) label
  /\ Forall (fun d => PyUnicode.is_upper d = true -> 255 < d) label.
Proof.
  cbn zeta. rewrite clean_label_map.
  assert (Hfix : Forall (fun d => PyUnicode.lower_char d = [d])
                        (underscored <$> PyUnicode.lower (PyUnicode.strip name))).
  { apply Forall_fmap. eapply Forall_impl; [apply lower_fixed|].
    intros d. apply underscored_fixed. }
  split; [|split; [|split; [|split]]].
  - destruct (lower_outer_free _ (strip_outer_free name)) as [Hhead Hlast].
    split; intros d Hd.
    + destruct (PyUnicode.lower (PyUnicode.strip name)) as [|d' l]; [discriminate|].
      cbn in Hd. injection Hd as <-. apply underscored_no_space, Hhead. reflexivity.
    + rewrite fmap_last in Hd.
      destruct (last (PyUnicode.lower (PyUnicode.strip name))) as [d'|]; [|discriminate].
      cbn in Hd. injection Hd as <-. apply underscored_no_space, Hlast. reflexivity.
  - intros [d [E _]]%list_elem_of_fmap. symmetry in E.
    exact (proj1 (underscored_neither d) E).
  - intros [d [E _]]%list_elem_of_fmap. symmetry in E.
    exact (proj2 (underscored_neither d) E).
  - exact Hfix.
  - eapply Forall_impl; [exact Hfix|]. intros d. apply upper_fixed_above.
Qed.

(** *** The strings of this file among them *)

Lemma codes_cons c s : codes (String c s) = PyStr.code c :: codes s.
Proof. reflexivity. Qed.

Lemma code_bound c : PyStr.code c < 256.
Proof. apply N_ascii_bounded. Qed.

Lemma code_inj a b : PyStr.code a = PyStr.code b -> a = b.
Proof.
  unfold PyStr.code. intros E.
  rewrite <- (ascii_N_embedding a), <- (ascii_N_embedding b), E. reflexivity.
Qed.

Lemma is_space_code c : PyUnicode.is_space (PyStr.code c) = PyStr.is_space c.
Proof. each_char c; reflexivity. Qed.

Lemma is_upper_code c : PyUnicode.is_upper (PyStr.code c) = PyStr.is_upper c.
Proof. each_char c; vm_compute; reflexivity. Qed.

Lemma lower_char_code c :
  PyUnicode.lower_char (PyStr.code c) = [PyStr.code (PyStr.lower_char c)].
Proof. each_char c; vm_compute; reflexivity. Qed.

Lemma codes_lstrip s : codes (PyStr.lstrip s) = PyUnicode.lstrip (codes s).
Proof.
  unfold PyStr.lstrip. induction s as [|c s IH]; [reflexivity|].
  cbn [PyStr.lstrip_by]. rewrite codes_cons. cbn [PyUnicode.lstrip].
  rewrite is_space_code. destruct (PyStr.is_space c); [exact IH | reflexivity].
Qed.

Lemma codes_rstrip s : codes (PyStr.rstrip s) = PyUnicode.rstrip (codes s).
Proof.
  unfold PyStr.rstrip. induction s as [|c s IH]; [reflexivity|].
  cbn [PyStr.rstrip_by]. rewrite codes_cons. cbn [PyUnicode.rstrip].
  rewrite <- IH, is_space_code.
  destruct (PyStr.rstrip_by PyStr.is_space s) as [|a r]; cbn [codes].
  - destruct (PyStr.is_space c); reflexivity.
  - reflexivity.
Qed.

Lemma codes_lower s : forall before,
  PyUnicode.lower_from before (codes s) = codes (PyStr.lower s).
Proof.
  unfold PyStr.lower. induction s as [|c s IH]; intros before; [reflexivity|].
  cbn [PyStr.map_string]. rewrite !codes_cons. cbn [PyUnicode.lower_from].
  assert (E : (PyStr.code c =? 931) = false)
    by (apply N.eqb_neq; pose proof (code_bound c); lia).
  rewrite E, lower_char_code, IH. reflexivity.
Qed.

Lemma codes_replace a b s :
  codes (PyStr.replace (String a "") (String b "") s)
  = PyUnicode.replace_char (PyStr.code a) (PyStr.code b) (codes s).
Proof.
  rewrite replace_one_char. unfold codes, PyUnicode.replace_char.
  rewrite chars_map_string, <- !list_fmap_compose. apply list_fmap_ext.
  intros _ c _. unfold compose, swap_char.
  destruct (N.eqb_spec (PyStr.code c) (PyStr.code a)) as [E|E].
  - apply code_inj in E. rewrite bool_decide_eq_true_2 by exact E. reflexivity.
  - rewrite bool_decide_eq_false_2 by congruence. reflexivity.
Qed.

(** On a label of this file [clean_label] is the [clean_label] of its code
    points. *)
Lemma clean_label_codes name :
  codes (clean_label name) = PyUnicode.clean_label (codes name).
Proof.
  unfold clean_label, PyUnicode.clean_label, PyUnicode.lower, PyUnicode.strip, PyStr.strip.
  rewrite (codes_replace "-" "_"), (codes_replace " " "_").
  rewrite <- codes_lower with (before := []), codes_rstrip, codes_lstrip. reflexivity.
Qed.

End UnicodeLabels.

(** *** [clean_column_names] on labels of any code points *)

(** C5, amended.  The labels of a table of this file are strings of the
    code points 0 to 255: whatever the table, [clean_column_names] returns,
    and the label it gives a column has no capital letter, no whitespace at
    either end, no space and no hyphen; it is the old label stripped,
    lowercased, with the spaces and hyphens turned into underscores, and its
    code points are what [PyUnicode.clean_label] makes of the code points of
    the old label.  On labels of any code points, the label it gives has no
    whitespace at either end, no space and no hyphen, and lowercasing leaves
    each of its characters as it is: a capital letter in it has no
    lowercase form, and lies above U+00FF. *)
Theorem clean_column_names_canonical
    (df : DataFrame) (w : World) (labels : list (list N)) :
  (exists df' w',
     clean_column_names df w = (inr df', w')
     /\ length (columns df') = length (columns df)
     /\ forall (i : nat) (name : string),
          columns df !! i = Some name ->
          exists label,
            columns df' !! i = Some label
            /\ canonical label
            /\ codes label = PyUnicode.clean_label (codes name)
            /\ exists pre core post,
                 name = pre +:+ (core +:+ post)
                 /\ all_chars PyStr.is_space pre
                 /\ all_chars PyStr.is_space post
                 /\ no_outer PyStr.is_space core
                 /\ label = PyStr.map_string clean_char core)
  /\ length (PyUnicode.clean_columns labels) = length labels
  /\ forall (i : nat) (name : list N),
       labels !! i = Some name ->
       exists label,
         PyUnicode.clean_columns labels !! i = Some label
         /\ outer_free PyUnicode.is_space label
         /\ (32%N ∉ label) /\ (45%N ∉ label)
         /\ Forall (fun d => PyUnicode.lower_char d = [d]) label
         /\ Forall (fun d => PyUnicode.is_upper d = true -> (255 < d)%N) label
         /\ exists pre core post,
              name = pre ++ core ++ post
              /\ Forall (fun c => PyUnicode.is_space c = true) pre
              /\ Forall (fun c => PyUnicode.is_space c = true) post
              /\ outer_free PyUnicode.is_space core
              /\ label = underscored <$> PyUnicode.lower core.
Proof.
  split; [|split].
  - destruct (clean_column_names_labels df w) as [df' [w' [E [Hlen H]]]].
    exists df', w'. split; [exact E|]. split; [exact Hlen|].
    intros i name Hi. destruct (H i name Hi) as [label [Hl [Hc Hparts]]].
    exists label. split; [exact Hl|]. split; [exact Hc|]. split; [|exact Hparts].
    rewrite clean_column_names_run in E. injection E as <- _.
    rewrite columns_map_columns, list_lookup_fmap, Hi in Hl. injection Hl as <-.
    apply clean_label_codes.
  - apply length_fmap.
  - intros i name Hi. exists (PyUnicode.clean_label name).
    split; [unfold PyUnicode.clean_columns; rewrite list_lookup_fmap, Hi; reflexivity|].
    destruct (clean_label_unicode name) as [Ho [H32 [H45 [Hfix Hup]]]].
    repeat (split; [assumption|]).
    destruct (strip_parts name) as [pre [post [E [Hpre Hpost]]]].
    exists pre, (PyUnicode.strip name), post.
    repeat (split; [assumption|]).
    split; [apply strip_outer_free | apply clean_label_map].
Qed.

(** The label "ℂ Price" becomes "ℂ_price": the double-struck capital C is
    a capital letter, and it is in the label [clean_column_names] gives. *)
Lemma clean_column_names_canonical_counterexample :
  exists label,
    PyUnicode.clean_columns [double_struck_price] !! 0%nat = Some label
    /\ label = [8450; 95; 112; 114; 105; 99; 101]%N
    /\ (8450%N ∈ label)
    /\ PyUnicode.is_upper 8450 = true.
Proof.
  eexists. split; [vm_compute; reflexivity|].
  split; [reflexivity|]. split; [apply list_elem_of_here | vm_compute; reflexivity].
Qed.

Example clean_label_greek :
  PyUnicode.clean_label [32; 927; 916; 927; 931; 45; 931; 964]%N
  = [959; 948; 959; 962; 95; 963; 964]%N.
Proof. vm_compute. reflexivity. Qed.

(** ** Row masks *)

Lemma select_rows_nil {A} (mask : list bool) : select_rows mask (@nil A) = [].
Proof. destruct mask; reflexivity. Qed.

Lemma select_rows_sublist {A} (mask : list bool) (l : list A) :
  select_rows mask l `sublist_of` l.
Proof.
  revert l. induction mask as [|b mask IH]; intros [|x l]; cbn; try apply sublist_nil_l.
  destruct b; [apply sublist_skip | apply sublist_cons]; apply IH.
Qed.

Lemma select_rows_length {A B} (mask : list bool) (l : list A) (k : list B) :
  length l = length k ->
  length (select_rows mask l) = length (select_rows mask k).
Proof.
  revert l k. induction mask as [|b mask IH]; intros [|x l] [|y k] E;
    cbn in *; try reflexivity; try discriminate.
  injection E as E. destruct b; cbn; rewrite (IH l k E); reflexivity.
Qed.

Lemma select_rows_Forall {A} (P : A -> Prop) (mask : list bool) (l : list A) :
  Forall P l -> Forall P (select_rows mask l).
Proof.
  intros H. revert mask. induction H as [|x l Hx Hl IH]; intros [|b mask]; cbn;
    try constructor.
  destruct b; [constructor; [exact Hx | apply IH] | apply IH].
Qed.

(** The rows a test keeps pass the test. *)
Lemma select_rows_test {A} (f : A -> bool) (l : list A) :
  Forall (fun x => f x = true) (select_rows (f <$> l) l).
Proof.
  induction l as [|x l IH]; cbn; [constructor|].
  destruct (f x) eqn:E; [constructor; assumption | assumption].
Qed.

Lemma select_rows_compose {A} (m1 m2 : list bool) (l : list A) :
  select_rows m2 (select_rows m1 l) = select_rows (compose_masks m1 m2) l.
Proof.
  revert m2 l. induction m1 as [|b m1 IH]; intros m2 l.
  - cbn. apply select_rows_nil.
  - destruct l as [|x l]; [cbn; rewrite !select_rows_nil; reflexivity|].
    destruct b; cbn.
    + destruct m2 as [|b2 m2]; [reflexivity|]. cbn.
      destruct b2; rewrite IH; reflexivity.
    + apply IH.
Qed.

Lemma Series_select_compose m1 m2 s :
  Series_select m2 (Series_select m1 s) = Series_select (compose_masks m1 m2) s.
Proof. destruct s; cbn; rewrite select_rows_compose; reflexivity. Qed.

Lemma take_rows_compose m1 m2 df :
  take_rows m2 (take_rows m1 df) = take_rows (compose_masks m1 m2) df.
Proof.
  unfold take_rows. cbn. f_equal.
  - apply select_rows_compose.
  - rewrite <- list_fmap_compose. apply list_fmap_ext.
    intros _ [k s] _. cbn. unfold prod_map. cbn. rewrite Series_select_compose. reflexivity.
Qed.

Lemma Series_len_select mask s (l : list nat) :
  Series_len s = length l ->
  Series_len (Series_select mask s) = length (select_rows mask l).
Proof. destruct s; cbn; apply select_rows_length. Qed.

(** ** Numeric columns without missing or negative cells *)

Lemma SFleb_zero_valid x : SFleb float_zero x = true -> valid_cell x.
Proof. intros H. split; [destruct x; (reflexivity || discriminate H) | exact H]. Qed.

Lemma valid_column_select mask s : valid_column s -> valid_column (Series_select mask s).
Proof. destruct s; cbn; [apply select_rows_Forall.. | tauto]. Qed.

Lemma ge_zero_valid s mask : ge_zero s = inr mask -> valid_column (Series_select mask s).
Proof.
  destruct s as [l|l|l]; cbn; intros H; [| |discriminate]; injection H as <-.
  - eapply Forall_impl; [apply (select_rows_test (fun z => 0 <=? z))|].
    intros z Hz. cbn in Hz. lia.
  - eapply Forall_impl; [apply (select_rows_test (SFleb float_zero))|].
    intros x Hx. apply SFleb_zero_valid, Hx.
Qed.

(** ** Selecting and assigning a column *)

Lemma getitem_Column_unique df key s :
  getitem df key = Column s -> forall s0, (key, s0) ∈ items df -> s0 = s.
Proof.
  unfold getitem. intros H s0 Hin.
  assert (Hf : (key, s0) ∈ filter (fun c : string * Series => c.1 = key) (items df))
    by (apply list_elem_of_filter; split; [reflexivity | exact Hin]).
  destruct (filter _ (items df)) as [|c [|c' cs]]; try discriminate.
  injection H as <-. apply list_elem_of_singleton in Hf. subst c. reflexivity.
Qed.

Lemma getitem_distinct df k s :
  NoDup (columns df) -> (k, s) ∈ items df -> getitem df k = Column s.
Proof.
  unfold getitem, columns. intros Hnd Hin.
  assert (E : filter (fun c : string * Series => c.1 = k) (items df) = [(k, s)]);
    [|rewrite E; reflexivity].
  induction (items df) as [|[k0 s0] l IH]; [inversion Hin|].
  cbn in Hnd. apply NoDup_cons in Hnd as [Hk0 Hnd].
  rewrite filter_cons. cbn [fst]. apply elem_of_cons in Hin as [Hin|Hin].
  - injection Hin as <- <-. rewrite decide_True by reflexivity. f_equal.
    clear IH Hnd. induction l as [|[k1 s1] l IH]; [reflexivity|].
    rewrite filter_cons. cbn [fst]. cbn in Hk0. apply not_elem_of_cons in Hk0 as [Hne Hk0].
    rewrite decide_False by congruence. apply IH, Hk0.
  - rewrite decide_False.
    + apply IH; assumption.
    + intros ->. apply Hk0. apply list_elem_of_fmap. exists (k, s). split; [reflexivity | exact Hin].
Qed.

Lemma select_rows_replicate_ge {A} (n : nat) (l : list A) :
  (length l <= n)%nat -> select_rows (replicate n true) l = l.
Proof.
  revert n. induction l as [|x l IH]; intros n H; [apply select_rows_nil|].
  destruct n as [|n]; cbn in *; [lia|]. rewrite IH by lia. reflexivity.
Qed.

(** Some mask keeps the whole table. *)
Lemma take_rows_all df : exists mask, take_rows mask df = df.
Proof.
  exists (replicate (nrows df + sum_list (Series_len <$> (items df).*2)) true).
  destruct df as [idx its]. unfold take_rows, nrows. cbn. f_equal.
  - apply select_rows_replicate_ge. lia.
  - generalize (length idx). induction its as [|[k s] its IH]; intros n; [reflexivity|].
    cbn. f_equal.
    + unfold prod_map. cbn. f_equal.
      destruct s; cbn; f_equal; apply select_rows_replicate_ge; lia.
    + replace (n + (Series_len s + sum_list (Series_len <$> its.*2)))%nat
        with ((n + Series_len s) + sum_list (Series_len <$> its.*2))%nat by lia.
      apply IH.
Qed.

Section RemoveInvalidRows.

Variable parse_number : string -> option number.

Lemma coerce_column_items df col df' :
  coerce_column parse_number df col = inr df' ->
  index df' = index df /\ items df' = coerce_item parse_number col <$> items df.
Proof.
  unfold coerce_column. case_bool_decide as Hin.
  - destruct (getitem df col) as [|s|cs] eqn:G; try discriminate.
    intros [= <-]. split; [reflexivity|].
    unfold setitem. cbn. rewrite bool_decide_eq_true_2 by exact Hin.
    apply list_fmap_ext. intros _ [k x] Hx%list_elem_of_lookup_2.
    unfold coerce_item. cbn. case_bool_decide as E; [|reflexivity].
    subst k. rewrite (getitem_Column_unique _ _ _ G _ Hx). reflexivity.
  - intros [= <-]. split; [reflexivity|].
    rewrite <- (list_fmap_id (items df)) at 1.
    apply list_fmap_ext. intros _ [k x] Hx%list_elem_of_lookup_2.
    unfold coerce_item. cbn. case_bool_decide as E; [|reflexivity].
    subst k. exfalso. apply Hin. unfold columns.
    apply list_elem_of_fmap. exists (col, x). split; [reflexivity | exact Hx].
Qed.

Lemma coerce_loop_items df df' :
  for_each (coerce_column parse_number) designated df = inr df' ->
  index df' = index df /\ items df' = coerced parse_number <$> items df.
Proof.
  unfold designated. cbn [for_each].
  destruct (coerce_column parse_number df "price") as [e|df1] eqn:E1; [discriminate|].
  destruct (coerce_column parse_number df1 "quantity") as [e|df2] eqn:E2; [discriminate|].
  intros [= <-].
  apply coerce_column_items in E1 as [I1 T1], E2 as [I2 T2].
  split; [congruence|].
  rewrite T2, T1, <- list_fmap_compose. apply list_fmap_ext.
  intros _ [k x] _. unfold coerced, coerce_item, designated. cbn [compose fst snd].
  destruct (decide (k = "price")) as [->|Hp].
  - rewrite (bool_decide_eq_true_2 ("price" = "price")) by reflexivity.
    cbn [fst snd].
    rewrite (bool_decide_eq_false_2 ("price" = "quantity")) by discriminate.
    rewrite bool_decide_eq_true_2 by set_solver. reflexivity.
  - rewrite (bool_decide_eq_false_2 (k = "price")) by exact Hp. cbn [fst snd].
    destruct (decide (k = "quantity")) as [->|Hq].
    + rewrite (bool_decide_eq_true_2 ("quantity" = "quantity")) by reflexivity.
      rewrite bool_decide_eq_true_2 by set_solver. reflexivity.
    + rewrite (bool_decide_eq_false_2 (k = "quantity")) by exact Hq.
      rewrite bool_decide_eq_false_2; [reflexivity|].
      intros [?|[?|[]%elem_of_nil]%elem_of_cons]%elem_of_cons; congruence.
Qed.

Lemma keep_nonnegative_spec df col df' :
  keep_nonnegative df col = inr df' ->
  exists mask,
    df' = take_rows mask df
    /\ forall s, (col, s) ∈ items df' -> valid_column s.
Proof.
  unfold keep_nonnegative. case_bool_decide as Hin.
  - destruct (getitem df col) as [|s|cs] eqn:G; try discriminate.
    destruct (ge_zero s) as [e|mask] eqn:Z; [discriminate|].
    intros [= <-]. exists mask. split; [reflexivity|].
    intros s' Hs'. unfold take_rows in Hs'. cbn in Hs'.
    apply list_elem_of_fmap in Hs' as [[k x] [E Hx]].
    unfold prod_map in E. cbn in E. injection E as -> ->.
    rewrite (getitem_Column_unique _ _ _ G _ Hx). apply ge_zero_valid, Z.
  - intros [= <-]. destruct (take_rows_all df) as [mask E].
    exists mask. split; [symmetry; exact E|].
    intros s Hs. exfalso. apply Hin. unfold columns.
    apply list_elem_of_fmap. exists (col, s). split; [reflexivity | exact Hs].
Qed.

Lemma valid_take_rows mask df col :
  (forall s, (col, s) ∈ items df -> valid_column s) ->
  forall s, (col, s) ∈ items (take_rows mask df) -> valid_column s.
Proof.
  intros H s Hs. unfold take_rows in Hs. cbn in Hs.
  apply list_elem_of_fmap in Hs as [[k x] [E Hx]].
  unfold prod_map in E. cbn in E. injection E as -> ->.
  apply valid_column_select, H, Hx.
Qed.

Lemma keep_loop_spec df df' :
  for_each keep_nonnegative designated df = inr df' ->
  exists mask,
    df' = take_rows mask df
    /\ forall col s, col ∈ designated -> (col, s) ∈ items df' -> valid_column s.
Proof.
  unfold designated. cbn [for_each].
  destruct (keep_nonnegative df "price") as [e|df1] eqn:E1; [discriminate|].
  destruct (keep_nonnegative df1 "quantity") as [e|df2] eqn:E2; [discriminate|].
  intros [= <-].
  apply keep_nonnegative_spec in E1 as [m1 [-> V1]], E2 as [m2 [-> V2]].
  exists (compose_masks m1 m2). split; [apply take_rows_compose|].
  intros col s Hcol Hs.
  apply elem_of_cons in Hcol as [->|Hcol].
  - revert s Hs. apply valid_take_rows, V1.
  - apply list_elem_of_singleton in Hcol as ->. apply V2, Hs.
Qed.

(** The shape of a run that returns: the labels are rewritten, the
    designated columns coerced, and some rows of that table kept. *)
Lemma remove_invalid_rows_shape df w df' w' :
  remove_invalid_rows parse_number df w = (inr df', w') ->
  exists df1 mask,
    for_each (coerce_column parse_number) designated
      (map_columns (PyStr.replace "quanitity" "quantity") df) = inr df1
    /\ df' = take_rows mask df1
    /\ (forall col s, col ∈ designated -> (col, s) ∈ items df' -> valid_column s)
    /\ w' = {| fs := fs w;
               stdout := stdout w
                 ++ [Line "Removed invalid rows (negative price/quantity)."] |}.
Proof.
  unfold remove_invalid_rows, mbind, M_bind, lift, mret, M_ret, print, emit.
  destruct (for_each (coerce_column parse_number) designated _) as [e|df1] eqn:E1; [discriminate|].
  set (df2 := match filter _ designated with [] => df1 | _ => _ end).
  destruct (for_each keep_nonnegative designated df2) as [e|df3] eqn:E3; [discriminate|].
  intros [= <- <-]. exists df1.
  apply keep_loop_spec in E3 as [m3 [-> V]].
  assert (exists m2, df2 = take_rows m2 df1) as [m2 ->].
  { subst df2. destruct (filter _ designated).
    - destruct (take_rows_all df1) as [m E]. exists m. symmetry. exact E.
    - eexists. reflexivity. }
  exists (compose_masks m2 m3). repeat split.
  - apply take_rows_compose.
  - exact V.
Qed.

Lemma Series_len_to_numeric s : Series_len (to_numeric parse_number s) = Series_len s.
Proof.
  destruct s as [l|l|l]; try reflexivity. cbn.
  destruct (mapM as_int (coerce_cell parse_number <$> l)) as [zs|] eqn:E; cbn.
  - apply length_mapM in E. rewrite <- E. apply length_fmap.
  - rewrite !length_fmap. reflexivity.
Qed.

Lemma remove_invalid_rows_items df w df' w' :
  remove_invalid_rows parse_number df w = (inr df', w') ->
  exists mask,
    index df' = select_rows mask (index df)
    /\ items df' = cleaned_item parse_number mask <$> items df
    /\ (forall col s, col ∈ designated -> (col, s) ∈ items df' -> valid_column s).
Proof.
  intros H. apply remove_invalid_rows_shape in H as [df1 [mask [E1 [-> [V _]]]]].
  apply coerce_loop_items in E1 as [I1 T1].
  exists mask. split; [cbn; rewrite I1; reflexivity|]. split; [|exact V].
  unfold take_rows. cbn. rewrite T1. unfold map_columns. cbn.
  rewrite <- !list_fmap_compose. apply list_fmap_ext.
  intros _ [k x] _. unfold cleaned_item, coerced, prod_map, fix_typo. cbn.
  case_bool_decide; reflexivity.
Qed.

Lemma aligned_cleaned mask df df' :
  index df' = select_rows mask (index df) ->
  items df' = cleaned_item parse_number mask <$> items df ->
  aligned df -> aligned df'.
Proof.
  unfold aligned, nrows. intros -> -> H.
  apply Forall_fmap. eapply Forall_impl; [exact H|].
  intros [k x] E. cbn in *. apply Series_len_select.
  case_bool_decide; [rewrite Series_len_to_numeric|]; exact E.
Qed.

End RemoveInvalidRows.

(** ** [remove_invalid_rows] *)

Section InvalidRowFilter.

Variable parse_number : string -> option number.

(** C1.  In the table [remove_invalid_rows] returns, a column labelled
    [price] or [quantity] is numeric and each of its cells is present (not
    NaN) and at least 0; and the columns of the result have one cell per
    remaining row when those of the argument had. *)
Theorem remove_invalid_rows_valid (df : DataFrame) (w : World) (df' : DataFrame) (w' : World) :
  remove_invalid_rows parse_number df w = (inr df', w') ->
  (aligned df -> aligned df')
  /\ forall (col : string) (s : Series),
       col = "price" \/ col = "quantity" ->
       (col, s) ∈ items df' ->
       valid_column s.
Proof.
  intros H. apply remove_invalid_rows_items in H as [mask [I [T V]]]. split.
  - apply (aligned_cleaned _ _ _ _ I T).
  - intros col s Hcol. apply V. unfold designated.
    destruct Hcol as [-> | ->]; [apply list_elem_of_here | apply list_elem_of_further, list_elem_of_here].
Qed.

(** C3.  When the table has a column labelled [quanitity] and
    [remove_invalid_rows] returns, the column stands in the result under the
    label [quantity]; its cells are the cells of the old column read as
    numbers ([to_numeric]), those of the rows the function keeps, and none
    of them is missing or negative. *)
Theorem remove_invalid_rows_renames_typo
    (df : DataFrame) (w : World) (df' : DataFrame) (w' : World) (i : nat) (s : Series) :
  items df !! i = Some ("quanitity", s) ->
  remove_invalid_rows parse_number df w = (inr df', w') ->
  exists mask,
    index df' = select_rows mask (index df)
    /\ items df' !! i
       = Some ("quantity", Series_select mask (to_numeric parse_number s))
    /\ valid_column (Series_select mask (to_numeric parse_number s)).
Proof.
  intros Hi H. apply remove_invalid_rows_items in H as [mask [I [T V]]].
  exists mask. split; [exact I|].
  assert (E : items df' !! i
              = Some ("quantity", Series_select mask (to_numeric parse_number s))).
  { rewrite T, list_lookup_fmap, Hi. reflexivity. }
  split; [exact E|].
  apply (V "quantity").
  - unfold designated. apply list_elem_of_further, list_elem_of_here.
  - apply list_elem_of_lookup_2 in E. exact E.
Qed.

(** C9.  The typo is corrected inside a label too: when the label of a
    column contains [quanitity], at its start, its end or in between, and
    [remove_invalid_rows] returns, the label of that column in the result
    has [quantity] in the place of its first [quanitity], and what follows
    is rewritten in the same way. *)
Theorem remove_invalid_rows_rewrites_substring
    (df : DataFrame) (w : World) (df' : DataFrame) (w' : World)
    (i : nat) (pre post : string) :
  columns df !! i = Some (pre +:+ ("quanitity" +:+ post)) ->
  remove_invalid_rows parse_number df w = (inr df', w') ->
  exists pre' post',
    pre +:+ ("quanitity" +:+ post) = pre' +:+ ("quanitity" +:+ post')
    /\ columns df' !! i
       = Some (pre' +:+ ("quantity" +:+ PyStr.replace "quanitity" "quantity" post')).
Proof.
  intros Hi H. apply remove_invalid_rows_items in H as [mask [_ [T _]]].
  destruct (replace_first "q" "uanitity" "quantity" (pre +:+ ("quanitity" +:+ post)))
    as [pre' [post' [E R]]]; [apply contains_intro|].
  exists pre', post'. split; [exact E|].
  unfold columns in *. rewrite T, <- list_fmap_compose, list_lookup_fmap.
  rewrite list_lookup_fmap in Hi.
  destruct (items df !! i) as [[k x]|]; [|discriminate].
  cbn in *. injection Hi as ->. unfold fix_typo. rewrite R. reflexivity.
Qed.

End InvalidRowFilter.

Example remove_invalid_rows_sales :
  remove_invalid_rows Sample.parse_number Sample.sales Sample.empty_world
  = (inr sales_clean, filtered_world).
Proof. vm_compute. reflexivity. Qed.

Example remove_invalid_rows_typo_table :
  remove_invalid_rows Sample.parse_number typo_table Sample.empty_world
  = (inr typo_table_clean, filtered_world).
Proof. vm_compute. reflexivity. Qed.

(** When the corrected label is already there, two columns carry it and the
    coercion raises. *)
Example remove_invalid_rows_both_labels :
  remove_invalid_rows Sample.parse_number both_labels Sample.empty_world
  = (inl TypeError, Sample.empty_world).
Proof. vm_compute. reflexivity. Qed.

Lemma remove_invalid_rows_valid_witness :
  remove_invalid_rows Sample.parse_number Sample.sales Sample.empty_world
  = (inr sales_clean, filtered_world)
  /\ (aligned Sample.sales -> aligned sales_clean)
  /\ forall (col : string) (s : Series),
       col = "price" \/ col = "quantity" ->
       (col, s) ∈ items sales_clean ->
       valid_column s.
Proof.
  split; [vm_compute; reflexivity|].
  apply (remove_invalid_rows_valid Sample.parse_number Sample.sales
           Sample.empty_world sales_clean filtered_world).
  vm_compute. reflexivity.
Defined.

Lemma remove_invalid_rows_renames_typo_witness :
  items typo_table !! 0%nat = Some ("quanitity", SObject [Some "4"; Some "-2"; None])
  /\ remove_invalid_rows Sample.parse_number typo_table Sample.empty_world
     = (inr typo_table_clean, filtered_world)
  /\ exists mask,
       index typo_table_clean = select_rows mask (index typo_table)
       /\ items typo_table_clean !! 0%nat
          = Some ("quantity",
                  Series_select mask
                    (to_numeric Sample.parse_number
                       (SObject [Some "4"; Some "-2"; None])))
       /\ valid_column
            (Series_select mask
               (to_numeric Sample.parse_number (SObject [Some "4"; Some "-2"; None]))).
Proof.
  split; [reflexivity|].
  split; [vm_compute; reflexivity|].
  apply (remove_invalid_rows_renames_typo Sample.parse_number typo_table
           Sample.empty_world typo_table_clean filtered_world 0).
  - reflexivity.
  - vm_compute. reflexivity.
Defined.

Lemma remove_invalid_rows_rewrites_substring_witness :
  columns typo_table !! 1%nat = Some ("" +:+ ("quanitity" +:+ "_ordered"))
  /\ remove_invalid_rows Sample.parse_number typo_table Sample.empty_world
     = (inr typo_table_clean, filtered_world)
  /\ exists pre' post',
       "" +:+ ("quanitity" +:+ "_ordered") = pre' +:+ ("quanitity" +:+ post')
       /\ columns typo_table_clean !! 1%nat
          = Some (pre' +:+ ("quantity"
                           +:+ PyStr.replace "quanitity" "quantity" post')).
Proof.
  split; [reflexivity|].
  split; [vm_compute; reflexivity|].
  apply (remove_invalid_rows_rewrites_substring Sample.parse_number typo_table
           Sample.empty_world typo_table_clean filtered_world 1 "" "_ordered").
  - reflexivity.
  - vm_compute. reflexivity.
Defined.

(** ** Assigning several columns

    The labels of the table are distinct in this part: a label then names
    one column, and assigning the selected columns by label changes these
    columns and no other. *)

Lemma assoc_None k upd : k ∉ upd.*1 -> assoc k upd = None.
Proof.
  induction upd as [|[k' s] upd IH]; [reflexivity|].
  cbn. intros H. apply not_elem_of_cons in H as [Hne Hnin].
  rewrite bool_decide_eq_false_2 by congruence. apply IH, Hnin.
Qed.

Lemma setitem_present df k s :
  k ∈ columns df ->
  setitem df k s
  = {| index := index df;
       items := (fun c => if bool_decide (c.1 = k) then (k, s) else c) <$> items df |}.
Proof. intros H. unfold setitem. rewrite bool_decide_eq_true_2 by exact H. reflexivity. Qed.

Lemma foldl_setitem upd : forall df,
  NoDup upd.*1 ->
  (forall k, k ∈ upd.*1 -> k ∈ columns df) ->
  foldl (fun d c => setitem d c.1 c.2) df upd
  = {| index := index df; items := updated upd <$> items df |}.
Proof.
  induction upd as [|[k s] upd IH]; intros df Hnd Hin.
  - cbn. destruct df as [idx its]. cbn. f_equal.
    rewrite <- (list_fmap_id its) at 1. apply list_fmap_ext.
    intros _ c _. reflexivity.
  - cbn [foldl fst snd]. cbn in Hnd. apply NoDup_cons in Hnd as [Hk Hnd].
    assert (Hkin : k ∈ columns df) by (apply Hin; cbn; apply list_elem_of_here).
    rewrite IH; [|exact Hnd|].
    + rewrite setitem_present by exact Hkin. cbn. f_equal.
      rewrite <- list_fmap_compose. apply list_fmap_ext.
      intros _ [k' x] _. unfold updated. cbn.
      destruct (decide (k' = k)) as [->|Hne].
      * rewrite !bool_decide_eq_true_2 by reflexivity. cbn.
        rewrite (assoc_None _ _ Hk). reflexivity.
      * rewrite (bool_decide_eq_false_2 (k' = k)) by exact Hne.
        rewrite (bool_decide_eq_false_2 (k = k')) by congruence. reflexivity.
    + intros k' Hk'. rewrite columns_setitem by exact Hkin.
      apply Hin. cbn. apply list_elem_of_further, Hk'.
Qed.

Section SelectedColumns.

Context (P : string * Series -> Prop) {P_dec : forall c, Decision (P c)}.
Variable f : Series -> Series.

Lemma filter_label_single (l : list (string * Series)) c :
  NoDup l.*1 -> c ∈ l ->
  filter (fun c' : string * Series => c'.1 = c.1) l = [c].
Proof.
  intros Hnd Hc. induction l as [|c0 l IH]; [inversion Hc|].
  cbn in Hnd. apply NoDup_cons in Hnd as [Hc0 Hnd].
  rewrite filter_cons. apply elem_of_cons in Hc as [<-|Hc].
  - rewrite decide_True by reflexivity. f_equal.
    clear IH Hnd. induction l as [|c1 l IH]; [reflexivity|].
    rewrite filter_cons. cbn in Hc0. apply not_elem_of_cons in Hc0 as [Hne Hc0].
    rewrite decide_False by congruence. apply IH, Hc0.
  - rewrite decide_False; [apply IH; assumption|].
    intros E. apply Hc0. rewrite E. apply list_elem_of_fmap.
    exists c. split; [reflexivity | exact Hc].
Qed.

(** With distinct labels, selecting by the labels of some columns gives
    these columns. *)
Lemma bind_by_label (l sel : list (string * Series)) :
  NoDup l.*1 -> (forall c, c ∈ sel -> c ∈ l) ->
  (k ← sel.*1; filter (fun c : string * Series => c.1 = k) l) = sel.
Proof.
  intros Hnd Hsub. induction sel as [|c sel IH]; [reflexivity|].
  cbn. rewrite (filter_label_single l c Hnd) by (apply Hsub, list_elem_of_here).
  cbn. f_equal. apply IH. intros c' Hc'. apply Hsub, list_elem_of_further, Hc'.
Qed.

Lemma getitem_mapped (sel : list (string * Series)) idx c :
  NoDup sel.*1 -> c ∈ sel ->
  getitem {| index := idx; items := prod_map id f <$> sel |} c.1 = Column (f c.2).
Proof.
  intros Hnd Hc. unfold getitem. cbn.
  assert (Hnd' : NoDup (prod_map id f <$> sel).*1).
  { replace ((prod_map id f <$> sel).*1) with (sel.*1); [exact Hnd|].
    rewrite <- list_fmap_compose. apply list_fmap_ext. intros _ [k x] _. reflexivity. }
  pose proof (filter_label_single _ (c.1, f c.2) Hnd') as E. cbn [fst] in E.
  rewrite E; [reflexivity|].
  apply list_elem_of_fmap. exists c. split; [destruct c; reflexivity | exact Hc].
Qed.

(** With distinct labels the loop of [df[keys] = value] assigns the columns
    one after the other. *)
Lemma for_each_setitem_pair (sel part : list (string * Series)) idx :
  NoDup sel.*1 -> (forall c, c ∈ part -> c ∈ sel) ->
  forall df,
    for_each (setitem_pair {| index := idx; items := prod_map id f <$> sel |})
             (zip part.*1 (prod_map id f <$> part).*1) df
    = inr (foldl (fun d (c : string * Series) => setitem d c.1 c.2) df
                 (prod_map id f <$> part)).
Proof.
  intros Hnd Hsub. induction part as [|[k x] part IH]; intros df; [reflexivity|].
  cbn [fmap list_fmap zip zip_with for_each foldl].
  unfold setitem_pair at 1. cbn [fst snd prod_map id].
  pose proof (getitem_mapped sel idx (k, x) Hnd) as E. cbn [fst snd] in E.
  rewrite E by (apply Hsub, list_elem_of_here).
  apply IH. intros c' Hc'. apply Hsub, list_elem_of_further, Hc'.
Qed.

Lemma assoc_selected l c :
  NoDup l.*1 -> c ∈ l ->
  assoc c.1 (prod_map id f <$> filter P l)
  = if decide (P c) then Some (f c.2) else None.
Proof.
  intros Hnd Hc. induction l as [|[k0 x0] l IH]; [inversion Hc|].
  cbn in Hnd. apply NoDup_cons in Hnd as [Hk0 Hnd].
  assert (Hsub : forall k, k ∈ (prod_map id f <$> filter P l).*1 -> k ∈ l.*1).
  { intros k [c' [-> [c'' [-> [_ Hin]%list_elem_of_filter]]%list_elem_of_fmap]]%list_elem_of_fmap.
    apply list_elem_of_fmap. exists c''. split; [reflexivity | exact Hin]. }
  rewrite filter_cons. apply elem_of_cons in Hc as [->|Hc].
  - cbn [fst snd]. destruct (decide (P (k0, x0))) as [Hp|Hp].
    + cbn. rewrite bool_decide_eq_true_2 by reflexivity. reflexivity.
    + apply assoc_None. intros Hk. apply Hk0, Hsub, Hk.
  - assert (Hne : k0 <> c.1).
    { intros ->. apply Hk0. apply list_elem_of_fmap. exists c. split; [reflexivity | exact Hc]. }
    destruct (decide (P (k0, x0))) as [Hp|Hp].
    + cbn. rewrite bool_decide_eq_false_2 by exact Hne. apply IH; assumption.
    + apply IH; assumption.
Qed.

(** [df[keys] = f(df[keys])], for the labels [keys] of the columns [P]
    selects: the selected columns are mapped by [f], the others stay. *)
Lemma setitem_frame_selected df :
  NoDup (columns df) ->
  let keys := (filter P (items df)).*1 in
  setitem_frame df keys (map_series f (getitem_frame df keys))
  = inr {| index := index df;
           items := (fun c => if decide (P c) then (c.1, f c.2) else c) <$> items df |}.
Proof.
  intros Hnd keys. subst keys.
  assert (Hsel : forall c, c ∈ filter P (items df) -> c ∈ items df).
  { intros c [_ Hc]%list_elem_of_filter. exact Hc. }
  assert (Hnd' : NoDup (filter P (items df)).*1).
  { eapply sublist_NoDup; [exact Hnd | apply fmap_sublist, sublist_filter]. }
  assert (Hkeys : (prod_map id f <$> filter P (items df)).*1 = (filter P (items df)).*1).
  { rewrite <- list_fmap_compose. apply list_fmap_ext. intros _ [k x] _. reflexivity. }
  unfold setitem_frame, check_key_length, map_series, getitem_frame, ncols, columns.
  cbn [items index].
  rewrite (bind_by_label _ _ Hnd Hsel).
  rewrite (bool_decide_eq_true_2 (NoDup _)) by exact Hnd.
  rewrite bool_decide_eq_true_2 by (rewrite !length_fmap; reflexivity).
  rewrite (for_each_setitem_pair _ _ _ Hnd') by (intros c Hc; exact Hc).
  f_equal. rewrite foldl_setitem.
  - f_equal. apply list_fmap_ext. intros _ c Hc%list_elem_of_lookup_2.
    unfold updated. rewrite (assoc_selected _ _ Hnd Hc).
    destruct (decide (P c)); reflexivity.
  - rewrite Hkeys. exact Hnd'.
  - rewrite Hkeys. intros k [c [-> [_ Hin]%list_elem_of_filter]]%list_elem_of_fmap.
    apply list_elem_of_fmap. exists c. split; [reflexivity | exact Hin].
Qed.

End SelectedColumns.

(** ** [handle_missing_values] *)

(** Membership of a dtype in a list of dtypes, decided by inspection. *)
Ltac dtype_mem :=
  match goal with
  | H : ~ (_ ∈ _) |- _ =>
      apply H; repeat first [apply list_elem_of_here | apply list_elem_of_further]
  | H : _ ∈ _ |- _ =>
      repeat (apply elem_of_cons in H as [H|H]; [discriminate H|]);
      apply elem_of_nil in H; exact H
  end.

Lemma filter_fmap_labels (Q : string * Series -> Prop) {Q_dec : forall c, Decision (Q c)}
    (h : string * Series -> string * Series) l :
  (forall c, (h c).1 = c.1 /\ (Q (h c) <-> Q c)) ->
  (filter Q (h <$> l)).*1 = (filter Q l).*1.
Proof.
  intros Hh. induction l as [|c l IH]; [reflexivity|].
  cbn [fmap list_fmap]. rewrite !filter_cons.
  destruct (Hh c) as [E Hq]. destruct (decide (Q c)) as [Hc|Hc].
  - rewrite decide_True by (apply Hq, Hc). cbn. rewrite E, IH. reflexivity.
  - rewrite decide_False by (intros H; apply Hc, Hq, H). exact IH.
Qed.

Lemma handle_missing_values_frame df :
  NoDup (columns df) ->
  let numeric_cols := columns (select_dtypes [Int64; Float64] df) in
  let text_cols := columns (select_dtypes [Object] df) in
  exists df1,
    setitem_frame df numeric_cols
      (map_series fillna_zero (getitem_frame df numeric_cols)) = inr df1
    /\ setitem_frame df1 text_cols (map_series ffill (getitem_frame df1 text_cols))
       = inr (fill_frame df).
Proof.
  intros Hnd numeric_cols text_cols.
  set (num := fun c : string * Series => if decide (is_numeric c) then (c.1, fillna_zero c.2) else c).
  exists {| index := index df; items := num <$> items df |}.
  split; [exact (setitem_frame_selected is_numeric fillna_zero df Hnd)|].
  set (df1 := {| index := index df; items := num <$> items df |}).
  assert (Hnum : forall c, (num c).1 = c.1 /\ (is_text (num c) <-> is_text c)).
  { intros [k [l|l|l]]; unfold num, is_text; cbn [fst snd];
      destruct (decide _) as [H|H]; cbn [fst snd]; try tauto.
    exfalso. unfold is_numeric in H. cbn in H. dtype_mem. }
  assert (Hcols : columns df1 = columns df).
  { unfold df1, columns. cbn. rewrite <- list_fmap_compose.
    apply list_fmap_ext. intros _ c _. apply Hnum. }
  assert (Htext : text_cols = (filter is_text (items df1)).*1).
  { unfold df1. cbn. symmetry. apply (filter_fmap_labels is_text num), Hnum. }
  rewrite Htext.
  rewrite (setitem_frame_selected is_text ffill df1) by (rewrite Hcols; exact Hnd).
  f_equal. unfold df1, fill_frame. cbn. f_equal.
  rewrite <- list_fmap_compose. apply list_fmap_ext.
  intros _ [k [l|l|l]] _; unfold num, is_numeric, is_text, prod_map; cbn [fst snd Series_dtype compose];
    repeat (destruct (decide _) as [H|H]; cbn [fst snd Series_dtype fillna_zero ffill] in * );
    try reflexivity; exfalso; dtype_mem.
Qed.

Lemma handle_missing_values_run df w :
  NoDup (columns df) ->
  handle_missing_values df w
  = (inr (fill_frame df),
     {| fs := fs w;
        stdout := stdout w ++ [Line "Handled missing numeric and text values."] |}).
Proof.
  intros Hnd. destruct (handle_missing_values_frame df Hnd) as [df1 [E1 E2]].
  unfold handle_missing_values, mbind, M_bind, lift. rewrite E1, E2. reflexivity.
Qed.

(** *** Forward fill, row by row *)

Lemma pad_length {A} (missing : A -> bool) last (l : list A) :
  length (pad missing last l) = length l.
Proof.
  revert last. induction l as [|x l IH]; intros last; [reflexivity|].
  cbn. destruct (missing x); cbn; rewrite IH; reflexivity.
Qed.

Section Pad.

Context {A : Type}.
Implicit Types (l : list (option A)) (last : option (option A)).

(** A cell that is not missing stays. *)
Lemma pad_present l : forall last j v,
  l !! j = Some (Some v) -> pad is_none last l !! j = Some (Some v).
Proof.
  induction l as [|x l IH]; intros last j v H; [discriminate|].
  destruct j as [|j]; cbn in *.
  - injection H as ->. reflexivity.
  - destruct (is_none x); cbn; apply IH, H.
Qed.

(** A missing cell with missing cells only before it takes the value the
    fill started with. *)
Lemma pad_leading l : forall last j,
  l !! j = Some None ->
  (forall j', (j' < j)%nat -> l !! j' = Some None) ->
  pad is_none last l !! j = Some (default None last).
Proof.
  induction l as [|x l IH]; intros last j H Hbefore; [discriminate|].
  destruct j as [|j]; cbn in *.
  - injection H as ->. reflexivity.
  - assert (x = None) as -> by (specialize (Hbefore 0%nat ltac:(lia)); cbn in Hbefore; congruence).
    cbn. apply IH; [exact H|].
    intros j' Hj'. apply (Hbefore (S j')). lia.
Qed.

(** A missing cell takes the nearest value above it. *)
Lemma pad_nearest l : forall last j j' v,
  l !! j = Some None ->
  (j' < j)%nat ->
  l !! j' = Some (Some v) ->
  (forall i, (j' < i < j)%nat -> l !! i = Some None) ->
  pad is_none last l !! j = Some (Some v).
Proof.
  induction l as [|x l IH]; intros last j j' v H Hlt Hv Hbetween; [discriminate|].
  destruct j as [|j]; [lia|].
  destruct j' as [|j']; cbn in *.
  - injection Hv as ->. cbn.
    apply (pad_leading l (Some (Some v)) j H).
    intros i Hi. apply (Hbetween (S i)). lia.
  - assert (Hstep : forall last', pad is_none last' l !! j = Some (Some v)).
    { intros last'. apply (IH last' j j' v H); [lia | exact Hv |].
      intros i Hi. apply (Hbetween (S i)). lia. }
    destruct (is_none x); cbn; apply Hstep.
Qed.

End Pad.

(** *** Labels that several columns carry

    Whatever the labels, a run that returns leaves no number missing: the
    first assignment overwrites every column whose label is the label of a
    numeric column with a filled column, and the second assigns columns
    that are filled already. *)

Lemma complete_fillna_zero s : complete (fillna_zero s).
Proof.
  unfold complete. destruct s as [l|l|l]; cbn.
  - apply Forall_fmap, Forall_true. reflexivity.
  - rewrite <- list_fmap_compose. apply Forall_fmap, Forall_true.
    intros x. cbn. destruct (is_nan x) eqn:E; [reflexivity | exact E].
  - destruct (forallb is_none l && negb (bool_decide (l = []))); cbn.
    + rewrite <- list_fmap_compose. apply Forall_fmap, Forall_true. reflexivity.
    + rewrite <- list_fmap_compose. apply Forall_fmap, Forall_true.
      intros [x|]; reflexivity.
Qed.

Lemma pad_complete {A} (missing : A -> bool) (l : list A) :
  Forall (fun x => missing x = false) l -> forall last, pad missing last l = l.
Proof.
  induction 1 as [|x l Hx _ IH]; intros last; [reflexivity|].
  cbn. rewrite Hx, IH. reflexivity.
Qed.

Lemma numbers_complete_ffill s : numbers_complete s -> numbers_complete (ffill s).
Proof.
  unfold numbers_complete, complete. destruct s as [l|l|l]; cbn; intros H Hdt.
  - apply H, Hdt.
  - specialize (H Hdt). rewrite pad_complete; [exact H|].
    apply Forall_fmap in H. exact H.
  - exfalso. dtype_mem.
Qed.

Lemma getitem_elems df k :
  match getitem df k with
  | NoColumn => True
  | Column s => (k, s) ∈ items df
  | SubFrame cols => forall s, s ∈ cols -> (k, s) ∈ items df
  end.
Proof.
  unfold getitem.
  assert (H : forall c, c ∈ filter (fun c : string * Series => c.1 = k) (items df) ->
                        (k, c.2) ∈ items df).
  { intros [k' x] [E Hc]%list_elem_of_filter. cbn in E. subst k'. exact Hc. }
  destruct (filter _ (items df)) as [|c [|c' cs]]; [exact I| |].
  - apply (H c), list_elem_of_here.
  - intros x [c0 [-> Hc0]]%list_elem_of_fmap. apply H, Hc0.
Qed.

Lemma isetitem_labels key cols l : (isetitem key cols l).*1 = l.*1.
Proof.
  revert cols. induction l as [|c l IH]; intros cols; [reflexivity|].
  cbn. case_bool_decide; [destruct cols as [|x cols]|]; cbn; rewrite ?IH; reflexivity.
Qed.

(** Each column of the result is a column assigned, or the column that
    was there. *)
Lemma isetitem_elem key cols l c :
  c ∈ isetitem key cols l -> c.2 ∈ cols \/ c ∈ l.
Proof.
  revert cols. induction l as [|c0 l IH]; intros cols; [intros H; inversion H|].
  cbn. case_bool_decide.
  - destruct cols as [|x cols]; [right; assumption|].
    intros [->|H']%elem_of_cons.
    + left. apply list_elem_of_here.
    + destruct (IH _ H') as [Hc|Hc].
      * left. apply list_elem_of_further, Hc.
      * right. apply list_elem_of_further, Hc.
  - intros [->|H']%elem_of_cons; [right; apply list_elem_of_here|].
    destruct (IH _ H') as [Hc|Hc]; [left; exact Hc|].
    right. apply list_elem_of_further, Hc.
Qed.

(** With a column for each position of the label, every column labelled
    [key] is assigned and the others stay. *)
Lemma isetitem_lookup key cols l : forall i k x,
  (length (filter (fun c : string * Series => c.1 = key) l) <= length cols)%nat ->
  isetitem key cols l !! i = Some (k, x) ->
  (k = key /\ x ∈ cols) \/ (k <> key /\ l !! i = Some (k, x)).
Proof.
  revert cols. induction l as [|c0 l IH]; intros cols i k x Hlen; [intros H; inversion H|].
  cbn. rewrite filter_cons in Hlen. case_bool_decide as Hc0.
  - rewrite decide_True in Hlen by exact Hc0.
    destruct cols as [|y cols]; [cbn in Hlen; lia|]. cbn in Hlen.
    destruct i as [|i]; cbn.
    + intros [= <- <-]. left. split; [exact Hc0 | apply list_elem_of_here].
    + intros H. destruct (IH cols i k x) as [[E Hx]|R]; [lia | exact H | |].
      * left. split; [exact E | apply list_elem_of_further, Hx].
      * right. exact R.
  - rewrite decide_False in Hlen by exact Hc0.
    destruct i as [|i]; cbn.
    + intros [= ->]. right. split; [exact Hc0 | reflexivity].
    + intros H. apply (IH cols i k x Hlen H).
Qed.

Section Overwriting.

(** [df0] is the table before the assignment, [value] the table assigned:
    all its columns are complete. *)
Variable df0 value : DataFrame.
Hypothesis value_complete : forall c, c ∈ items value -> complete c.2.

(** A step of the loop: the columns labelled with the key are complete
    after it, and the other columns are as before. *)
Lemma setitem_pair_overwrites (pending : string -> Prop) d kk d' :
  kk.1 ∈ columns df0 ->
  columns d = columns df0 ->
  (forall i k x, items d !! i = Some (k, x) ->
                 complete x \/ (pending k /\ items df0 !! i = Some (k, x))) ->
  setitem_pair value d kk = inr d' ->
  columns d' = columns df0
  /\ forall i k x, items d' !! i = Some (k, x) ->
                   complete x
                   \/ ((pending k /\ k <> kk.1) /\ items df0 !! i = Some (k, x)).
Proof.
  intros Hkey Hcols Hinv. unfold setitem_pair.
  pose proof (getitem_elems value kk.2) as G.
  destruct (getitem value kk.2) as [|s|cols]; [discriminate| |].
  - intros [= <-]. rewrite <- Hcols in Hkey. split.
    + rewrite columns_setitem by exact Hkey. exact Hcols.
    + intros i k x. rewrite setitem_present by exact Hkey. cbn.
      rewrite list_lookup_fmap.
      destruct (items d !! i) as [[k0 x0]|] eqn:E; [|discriminate]. cbn.
      case_bool_decide as Hk0.
      * intros [= <- <-]. left. apply (value_complete _ G).
      * intros [= <- <-]. destruct (Hinv _ _ _ E) as [Hc|[Hp Ho]]; [left; exact Hc|].
        right. split; [split; [exact Hp | exact Hk0] | exact Ho].
  - case_bool_decide as Hlen; [|discriminate]. intros [= <-]. cbn. split.
    + unfold columns. cbn. rewrite isetitem_labels. exact Hcols.
    + intros i k x H. apply isetitem_lookup in H as [[-> Hx]|[Hne H]]; [| |lia].
      * left. apply (value_complete _ (G _ Hx)).
      * destruct (Hinv _ _ _ H) as [Hc|[Hp Ho]]; [left; exact Hc|].
        right. split; [split; [exact Hp | exact Hne] | exact Ho].
Qed.

Lemma for_each_overwrites ps : forall (pending : string -> Prop) d d',
  (forall kk, kk ∈ ps -> kk.1 ∈ columns df0) ->
  columns d = columns df0 ->
  (forall i k x, items d !! i = Some (k, x) ->
                 complete x \/ (pending k /\ items df0 !! i = Some (k, x))) ->
  for_each (setitem_pair value) ps d = inr d' ->
  columns d' = columns df0
  /\ forall i k x, items d' !! i = Some (k, x) ->
                   complete x
                   \/ ((pending k /\ k ∉ ps.*1) /\ items df0 !! i = Some (k, x)).
Proof.
  induction ps as [|kk ps IH]; intros pending d d' Hkeys Hcols Hinv.
  - intros [= <-]. split; [exact Hcols|].
    intros i k x H. destruct (Hinv _ _ _ H) as [Hc|[Hp Ho]]; [left; exact Hc|].
    right. split; [split; [exact Hp | apply not_elem_of_nil] | exact Ho].
  - cbn [for_each]. destruct (setitem_pair value d kk) as [e|d1] eqn:E; [discriminate|].
    intros H.
    destruct (setitem_pair_overwrites pending d kk d1) as [Hcols1 Hinv1];
      [apply Hkeys, list_elem_of_here | exact Hcols | exact Hinv | exact E |].
    destruct (IH (fun k => pending k /\ k <> kk.1) d1 d') as [Hcols' Hinv'];
      [intros kk' Hkk'; apply Hkeys, list_elem_of_further, Hkk'
      | exact Hcols1 | exact Hinv1 | exact H |].
    split; [exact Hcols'|].
    intros i k x Hi. destruct (Hinv' _ _ _ Hi) as [Hc|[[[Hp Hne] Hnin] Ho]]; [left; exact Hc|].
    right. split; [|exact Ho]. split; [exact Hp|].
    cbn. apply not_elem_of_cons. split; assumption.
Qed.

End Overwriting.

(** As many columns are selected as there are keys, or more. *)
Lemma length_bind_labels (l : list (string * Series)) keys :
  (forall k, k ∈ keys -> k ∈ l.*1) ->
  (length keys
   <= length (k ← keys; filter (fun c : string * Series => c.1 = k) l))%nat.
Proof.
  intros Hkeys. induction keys as [|k keys IH]; [cbn; lia|].
  cbn. rewrite length_app.
  assert (1 <= length (filter (fun c : string * Series => c.1 = k) l))%nat.
  { pose proof (Hkeys k (list_elem_of_here _ _)) as Hk.
    apply list_elem_of_fmap in Hk as [c [E Hc]].
    assert (Hin : c ∈ filter (fun c : string * Series => c.1 = k) l)
      by (apply list_elem_of_filter; split; [symmetry; exact E | exact Hc]).
    destruct (filter _ l); [inversion Hin | cbn; lia]. }
  assert (length keys
          <= length (k' ← keys; filter (fun c : string * Series => c.1 = k') l))%nat
    by (apply IH; intros k' Hk'; apply Hkeys, list_elem_of_further, Hk').
  lia.
Qed.

Lemma elem_of_bind_labels (l : list (string * Series)) keys c :
  c ∈ (k ← keys; filter (fun c : string * Series => c.1 = k) l) -> c ∈ l.
Proof.
  intros [k [[_ Hc]%list_elem_of_filter _]]%list_elem_of_bind. exact Hc.
Qed.

(** [df[keys] = df[keys].fillna(0)], for keys that are labels of [df]: in
    the table it returns a column is complete, or is a column of [df]
    that none of the keys labels. *)
Lemma setitem_frame_fillna df keys df1 :
  (forall k, k ∈ keys -> k ∈ columns df) ->
  setitem_frame df keys (map_series fillna_zero (getitem_frame df keys)) = inr df1 ->
  forall k x, (k, x) ∈ items df1 -> complete x \/ ((k ∉ keys) /\ (k, x) ∈ items df).
Proof.
  intros Hkeys. unfold setitem_frame.
  destruct (check_key_length _ _ _); [discriminate|]. intros H.
  set (value := map_series fillna_zero (getitem_frame df keys)) in *.
  assert (Hval : forall c, c ∈ items value -> complete c.2).
  { intros c [[k0 x0] [-> _]]%list_elem_of_fmap. apply complete_fillna_zero. }
  assert (Hzip : (zip keys (columns value)).*1 = keys).
  { apply fst_zip. unfold columns, value. cbn. rewrite !length_fmap.
    apply length_bind_labels, Hkeys. }
  destruct (for_each_overwrites df value Hval (zip keys (columns value))
              (fun _ => True) df df1) as [_ Hinv].
  - intros kk Hkk. apply Hkeys. rewrite <- Hzip.
    apply list_elem_of_fmap. exists kk. split; [reflexivity | exact Hkk].
  - reflexivity.
  - intros i k x Hi. right. split; [exact I | exact Hi].
  - exact H.
  - intros k x [i Hi]%list_elem_of_lookup_1.
    destruct (Hinv _ _ _ Hi) as [Hc|[[_ Hnin] Ho]]; [left; exact Hc|].
    right. rewrite Hzip in Hnin. split; [exact Hnin|].
    apply (list_elem_of_lookup_2 _ _ _ Ho).
Qed.

(** Assigning columns that have a property to a table whose columns
    have it gives such a table. *)
Lemma setitem_frame_Forall (P : Series -> Prop) df keys value df' :
  (forall c, c ∈ items value -> P c.2) ->
  (forall c, c ∈ items df -> P c.2) ->
  setitem_frame df keys value = inr df' ->
  forall c, c ∈ items df' -> P c.2.
Proof.
  intros Hval. unfold setitem_frame.
  destruct (check_key_length _ _ _); [discriminate|].
  generalize (zip keys (columns value)) as ps. intros ps. revert df.
  induction ps as [|kk ps IH]; intros df Hdf; [intros [= <-]; exact Hdf|].
  cbn [for_each]. destruct (setitem_pair value df kk) as [e|d1] eqn:E; [discriminate|].
  apply IH. revert E. unfold setitem_pair.
  pose proof (getitem_elems value kk.2) as G.
  destruct (getitem value kk.2) as [|s|cols]; [discriminate| |].
  - intros [= <-] c. unfold setitem. cbn. case_bool_decide.
    + intros [c0 [-> Hc0]]%list_elem_of_fmap. case_bool_decide; [|apply Hdf, Hc0].
      apply (Hval _ G).
    + intros [Hc|Hc%list_elem_of_singleton]%elem_of_app; [apply Hdf, Hc|].
      subst c. apply (Hval _ G).
  - case_bool_decide; [|discriminate]. intros [= <-] c Hc. cbn in Hc.
    apply isetitem_elem in Hc as [Hc|Hc]; [|apply Hdf, Hc].
    apply (Hval _ (G _ Hc)).
Qed.

(** Whatever the labels, when [handle_missing_values] returns no numeric
    column of the table has a missing cell. *)
Lemma handle_missing_values_complete df w df' w' :
  handle_missing_values df w = (inr df', w') ->
  forall k x, (k, x) ∈ items df' -> numbers_complete x.
Proof.
  unfold handle_missing_values, mbind, M_bind, lift.
  destruct (setitem_frame df _ _) as [e|df1] eqn:E1; [discriminate|].
  destruct (setitem_frame df1 _ _) as [e|df2] eqn:E2; [discriminate|].
  intros [= <- _].
  assert (H1 : forall c, c ∈ items df1 -> numbers_complete c.2).
  { intros [k x] Hc Hdt. cbn in *.
    eapply setitem_frame_fillna in E1 as [Hx|[Hk Hx]]; [exact Hx | | | exact Hc].
    - exfalso. apply Hk. apply list_elem_of_fmap. exists (k, x).
      split; [reflexivity|]. apply list_elem_of_filter. split; [exact Hdt | exact Hx].
    - intros k0 [c0 [-> [_ Hc0]%list_elem_of_filter]]%list_elem_of_fmap.
      apply list_elem_of_fmap. exists c0. split; [reflexivity | exact Hc0]. }
  intros k x Hc.
  apply (setitem_frame_Forall numbers_complete _ _ _ _ ) with (c := (k, x)) in E2;
    [exact E2 | | exact H1 | exact Hc].
  intros c [[k0 x0] [-> Hc0]]%list_elem_of_fmap. cbn.
  apply numbers_complete_ffill. apply (H1 (k0, x0)).
  apply (elem_of_bind_labels _ _ _ Hc0).
Qed.

Lemma fill_frame_lookup df i k s :
  items df !! i = Some (k, s) -> items (fill_frame df) !! i = Some (k, fill_column s).
Proof. intros H. unfold fill_frame. cbn. rewrite list_lookup_fmap, H. reflexivity. Qed.



Example handle_missing_values_gaps :
  (handle_missing_values gaps Sample.empty_world).1 = inr gaps_filled.
Proof. vm_compute. reflexivity. Qed.



(** *** A label that several columns carry *)

(** Two float columns under one label, or two text columns: both are
    selected twice, and the assignment of four columns to the two the
    label names raises. *)
Example handle_missing_values_two_floats :
  handle_missing_values two_floats Sample.empty_world
  = (inl ValueError, Sample.empty_world).
Proof. vm_compute. reflexivity. Qed.

Example handle_missing_values_two_texts :
  handle_missing_values two_texts Sample.empty_world
  = (inl ValueError, Sample.empty_world).
Proof. vm_compute. reflexivity. Qed.

(** A float and a text column under one label: [fillna(0)] fills both, and
    nothing is left for the forward fill. *)
Example handle_missing_values_float_and_text :
  (handle_missing_values float_and_text Sample.empty_world).1
  = inr {| index := [0; 1]%nat;
           items := [("a", SFloat [float_of_Z 1; float_zero]);
                     ("a", SObject [Some "x"; Some "0"])] |}.
Proof. vm_compute. reflexivity. Qed.



(** ** [remove_invalid_rows] returns on distinct labels *)

Lemma columns_member_inv df k : k ∈ columns df -> exists s, (k, s) ∈ items df.
Proof.
  unfold columns. intros [[k' s] [-> H]]%list_elem_of_fmap. exists s. exact H.
Qed.

Lemma filterable_take_rows mask df : filterable df -> filterable (take_rows mask df).
Proof.
  intros [Hnd Hnum]. split; [rewrite columns_take_rows; exact Hnd|].
  intros col s Hcol Hs. unfold take_rows in Hs. cbn in Hs.
  apply list_elem_of_fmap in Hs as [[k x] [E Hx]].
  unfold prod_map in E. cbn in E. injection E as -> ->.
  destruct x; cbn; apply (Hnum _ _ Hcol Hx).
Qed.

Lemma keep_nonnegative_returns df col :
  filterable df -> col ∈ designated ->
  exists df', keep_nonnegative df col = inr df' /\ filterable df'.
Proof.
  intros Hf Hcol. unfold keep_nonnegative. case_bool_decide as Hin.
  - apply columns_member_inv in Hin as [s Hs].
    rewrite (getitem_distinct _ _ _ (proj1 Hf) Hs).
    pose proof (proj2 Hf _ _ Hcol Hs) as Hdt.
    destruct s as [l|l|l]; cbn in *; [| |congruence];
      (eexists; split; [reflexivity | apply filterable_take_rows, Hf]).
  - exists df. split; [reflexivity | exact Hf].
Qed.

Section Returns.

Variable parse_number : string -> option number.

Lemma to_numeric_not_object s : Series_dtype (to_numeric parse_number s) <> Object.
Proof.
  destruct s as [l|l|l]; cbn; try discriminate.
  destruct (mapM as_int (coerce_cell parse_number <$> l)); discriminate.
Qed.

Lemma coerce_column_returns df col :
  NoDup (columns df) ->
  exists df', coerce_column parse_number df col = inr df' /\ columns df' = columns df.
Proof.
  intros Hnd. unfold coerce_column. case_bool_decide as Hin.
  - pose proof Hin as Hin'. apply columns_member_inv in Hin' as [s Hs].
    rewrite (getitem_distinct _ _ _ Hnd Hs).
    eexists. split; [reflexivity | apply columns_setitem, Hin].
  - exists df. split; reflexivity.
Qed.

Lemma coerce_loop_returns df :
  NoDup (columns df) ->
  exists df', for_each (coerce_column parse_number) designated df = inr df'
              /\ filterable df'.
Proof.
  intros Hnd. unfold designated. cbn [for_each].
  destruct (coerce_column_returns df "price" Hnd) as [df1 [E1 C1]].
  assert (Hnd1 : NoDup (columns df1)) by (rewrite C1; exact Hnd).
  destruct (coerce_column_returns df1 "quantity" Hnd1) as [df2 [E2 C2]].
  assert (L : for_each (coerce_column parse_number) designated df = inr df2)
    by (unfold designated; cbn [for_each]; rewrite E1, E2; reflexivity).
  rewrite E1, E2. exists df2. split; [reflexivity|].
  split; [rewrite C2; exact Hnd1|].
  intros col s Hcol Hs. apply coerce_loop_items in L as [_ T].
  rewrite T in Hs. apply list_elem_of_fmap in Hs as [[k x] [E _]].
  unfold coerced in E. cbn in E. case_bool_decide as Hk.
  - injection E as -> ->. apply to_numeric_not_object.
  - injection E as -> ->. contradiction.
Qed.

(** When the labels are distinct once the typo is corrected,
    [remove_invalid_rows] returns. *)
Lemma remove_invalid_rows_returns df w :
  NoDup (PyStr.replace "quanitity" "quantity" <$> columns df) ->
  exists df' w', remove_invalid_rows parse_number df w = (inr df', w').
Proof.
  intros Hnd. rewrite <- columns_map_columns in Hnd.
  destruct (coerce_loop_returns _ Hnd) as [df1 [E1 F1]].
  unfold remove_invalid_rows, mbind, M_bind, lift. rewrite E1.
  set (df2 := match filter _ designated with [] => df1 | _ => _ end).
  assert (F2 : filterable df2).
  { subst df2. destruct (filter _ designated); [exact F1|].
    apply filterable_take_rows, F1. }
  destruct (keep_nonnegative_returns df2 "price" F2) as [df3 [E3 F3]];
    [apply list_elem_of_here|].
  destruct (keep_nonnegative_returns df3 "quantity" F3) as [df4 [E4 _]];
    [apply list_elem_of_further, list_elem_of_here|].
  unfold designated. cbn [for_each]. rewrite E3, E4.
  eexists _, _. reflexivity.
Qed.

End Returns.

(** ** Row counts *)

Lemma setitem_pair_index value df kk df' :
  setitem_pair value df kk = inr df' -> index df' = index df.
Proof.
  unfold setitem_pair. destruct (getitem value kk.2) as [|s|cols]; [discriminate| |].
  - intros [= <-]. reflexivity.
  - case_bool_decide; [|discriminate]. intros [= <-]. reflexivity.
Qed.

Lemma index_setitem_frame df keys value df' :
  setitem_frame df keys value = inr df' -> index df' = index df.
Proof.
  unfold setitem_frame. destruct (check_key_length df keys value); [discriminate|].
  apply (for_each_invariant (fun a b => index b = index a)).
  - reflexivity.
  - intros a b c E1 E2. congruence.
  - intros a x a' H. apply (setitem_pair_index _ _ _ _ H).
Qed.

Lemma handle_missing_values_index df w df' w' :
  handle_missing_values df w = (inr df', w') -> index df' = index df.
Proof.
  unfold handle_missing_values, mbind, M_bind, lift.
  destruct (setitem_frame df _ _) as [e|df1] eqn:E1; [discriminate|].
  destruct (setitem_frame df1 _ _) as [e|df2] eqn:E2; [discriminate|].
  intros [= <- _].
  rewrite (index_setitem_frame _ _ _ _ E2), (index_setitem_frame _ _ _ _ E1).
  reflexivity.
Qed.

Lemma strip_column_index df col df' :
  strip_column df col = inr df' -> index df' = index df /\ columns df' = columns df.
Proof.
  unfold strip_column. destruct (getitem df col) as [|[l|l|l]|cs] eqn:G; try discriminate.
  intros [= <-]. split; [reflexivity|].
  apply columns_setitem. unfold getitem in G.
  destruct (filter _ (items df)) as [|c [|c' cs]] eqn:F; try discriminate.
  injection G as G.
  assert (Hc : c ∈ filter (fun c : string * Series => c.1 = col) (items df))
    by (rewrite F; apply list_elem_of_here).
  apply list_elem_of_filter in Hc as [E Hc].
  unfold columns. apply list_elem_of_fmap. exists c. split; [symmetry; exact E | exact Hc].
Qed.

Lemma strip_loop_index keys df df' :
  for_each strip_column keys df = inr df' -> index df' = index df.
Proof.
  apply (for_each_invariant (fun a b => index b = index a)).
  - reflexivity.
  - intros a b c E1 E2. congruence.
  - intros a x a' H. apply strip_column_index in H. apply H.
Qed.

(** On a table with distinct labels the loop of [strip_text_fields] does not
    raise. *)
Lemma strip_loop_returns keys : forall df,
  NoDup (columns df) ->
  (forall k, k ∈ keys -> exists l, (k, SObject l) ∈ items df) ->
  exists df', for_each strip_column keys df = inr df'.
Proof.
  induction keys as [|k keys IH]; intros df Hnd Hkeys; [eexists; reflexivity|].
  destruct (Hkeys k (list_elem_of_here _ _)) as [l Hl].
  cbn [for_each]. unfold strip_column at 1.
  rewrite (getitem_distinct _ _ _ Hnd Hl).
  assert (Hk : k ∈ columns df).
  { unfold columns. apply list_elem_of_fmap. exists (k, SObject l). split; [reflexivity | exact Hl]. }
  apply IH.
  - rewrite columns_setitem by exact Hk. exact Hnd.
  - intros k' Hk'. destruct (Hkeys k' (list_elem_of_further _ _ _ Hk')) as [l' Hl'].
    rewrite setitem_present by exact Hk. cbn.
    destruct (decide (k' = k)) as [->|Hne].
    + exists (str_strip l). apply list_elem_of_fmap. exists (k, SObject l).
      split; [|exact Hl]. cbn. rewrite bool_decide_eq_true_2 by reflexivity. reflexivity.
    + exists l'. apply list_elem_of_fmap. exists (k', SObject l').
      split; [|exact Hl']. cbn. rewrite bool_decide_eq_false_2 by exact Hne. reflexivity.
Qed.

Lemma strip_text_fields_returns df w :
  NoDup (columns df) -> exists df' w', strip_text_fields df w = (inr df', w').
Proof.
  intros Hnd.
  destruct (strip_loop_returns (columns (select_dtypes [Object] df)) df Hnd) as [df' E].
  - intros k [[k0 s] [-> [Hdt Hin]%list_elem_of_filter]]%list_elem_of_fmap.
    destruct s as [l|l|l]; cbn in Hdt; try (exfalso; dtype_mem).
    exists l. exact Hin.
  - unfold strip_text_fields, mbind, M_bind, lift. rewrite E.
    eexists _, _. reflexivity.
Qed.

Lemma strip_text_fields_index df w df' w' :
  strip_text_fields df w = (inr df', w') -> index df' = index df.
Proof.
  unfold strip_text_fields, mbind, M_bind, lift.
  destruct (for_each strip_column _ df) as [e|df1] eqn:E; [discriminate|].
  intros [= <- _]. apply (strip_loop_index _ _ _ E).
Qed.

Section RowCounts.

Variable parse_number : string -> option number.

(** C8.  [clean_column_names] returns, whatever the table, a table with the
    row labels, hence the row count, of its argument; so do
    [strip_text_fields] and [handle_missing_values] whenever they return.
    The row labels of the table [remove_invalid_rows] returns are row labels
    of its argument, in their order, and no more of them: some mask of rows
    selects them, and the cells of every column of the result are the cells
    of its column in the argument (read as numbers in a designated column)
    that this mask selects.  The three functions return when the labels of
    the table are distinct ([remove_invalid_rows]: once the typo is
    corrected). *)
Theorem row_counts (df : DataFrame) (w : World) :
  (exists df' w',
     clean_column_names df w = (inr df', w') /\ nrows df' = nrows df)
  /\ (forall df' w',
        strip_text_fields df w = (inr df', w') -> nrows df' = nrows df)
  /\ (forall df' w',
        handle_missing_values df w = (inr df', w') -> nrows df' = nrows df)
  /\ (forall df' w',
        remove_invalid_rows parse_number df w = (inr df', w') ->
        index df' `sublist_of` index df
        /\ (nrows df' <= nrows df)%nat
        /\ exists mask,
             index df' = select_rows mask (index df)
             /\ forall (i : nat) (k : string) (s : Series),
                  items df !! i = Some (k, s) ->
                  exists k',
                    items df' !! i
                    = Some (k',
                            Series_select mask
                              (if bool_decide (k' = "price" \/ k' = "quantity")
                               then to_numeric parse_number s
                               else s)))
  /\ (NoDup (columns df) ->
      (exists df' w', strip_text_fields df w = (inr df', w'))
      /\ (exists df' w', handle_missing_values df w = (inr df', w')))
  /\ (NoDup (PyStr.replace "quanitity" "quantity" <$> columns df) ->
      exists df' w', remove_invalid_rows parse_number df w = (inr df', w')).
Proof.
  split; [|split; [|split; [|split; [|split]]]].
  - eexists _, _. split; [apply clean_column_names_run | reflexivity].
  - intros df' w' H. unfold nrows. rewrite (strip_text_fields_index _ _ _ _ H). reflexivity.
  - intros df' w' H. unfold nrows.
    rewrite (handle_missing_values_index _ _ _ _ H). reflexivity.
  - intros df' w' H. apply remove_invalid_rows_items in H as [mask [I [T _]]].
    split; [rewrite I; apply select_rows_sublist|].
    split; [unfold nrows; rewrite I; apply sublist_length, select_rows_sublist|].
    exists mask. split; [exact I|].
    intros i k s Hi. exists (fix_typo k).
    rewrite T, list_lookup_fmap, Hi. cbn. unfold cleaned_item. cbn [fst snd].
    rewrite (bool_decide_ext (fix_typo k ∈ designated)
               (fix_typo k = "price" \/ fix_typo k = "quantity")); [reflexivity|].
    unfold designated. rewrite !elem_of_cons, elem_of_nil. tauto.
  - intros Hnd. split; [apply strip_text_fields_returns, Hnd|].
    eexists _, _. apply handle_missing_values_run, Hnd.
  - apply remove_invalid_rows_returns.
Qed.

End RowCounts.

Lemma row_counts_witness :
  NoDup (columns Sample.sales)
  /\ NoDup (PyStr.replace "quanitity" "quantity" <$> columns Sample.sales)
  /\ remove_invalid_rows Sample.parse_number Sample.sales Sample.empty_world
     = (inr sales_clean, filtered_world)
  /\ (exists df' w', strip_text_fields Sample.sales Sample.empty_world = (inr df', w'))
  /\ index sales_clean `sublist_of` index Sample.sales
  /\ (nrows sales_clean <= nrows Sample.sales)%nat.
Proof.
  pose proof (row_counts Sample.parse_number Sample.sales Sample.empty_world)
    as [_ [_ [_ [Hrows [Hret _]]]]].
  assert (Hnd : NoDup (columns Sample.sales)) by by_decision.
  assert (Hrun : remove_invalid_rows Sample.parse_number Sample.sales Sample.empty_world
                 = (inr sales_clean, filtered_world))
    by (vm_compute; reflexivity).
  split; [exact Hnd|].
  split; [by_decision|].
  split; [exact Hrun|].
  split; [exact (proj1 (Hret Hnd))|].
  destruct (Hrows _ _ Hrun) as [Hsub [Hle _]].
  split; [exact Hsub | exact Hle].
Defined.

(** ** Files: [load_data], [save_cleaned_data] and [clean_pipeline] *)

Lemma path_exists_run p w : path_exists p w = (inr (bool_decide (exists_in w p)), w).
Proof. reflexivity. Qed.

(** The empty path cannot be made a directory, whatever exists. *)
Lemma makedirs_empty exist_ok w :
  makedirs "" exist_ok w = (inl (FileNotFoundError ""), w).
Proof. destruct exist_ok; reflexivity. Qed.

Section Files.

Variable parse_number : string -> option number.
Variable read_csv_text : string -> option DataFrame.
Variable to_csv_text : DataFrame -> string.

Lemma load_data_missing file_path w :
  ~ exists_in w file_path ->
  load_data read_csv_text file_path w
  = (inl (FileNotFoundError ("File not found: " +:+ file_path)), w).
Proof.
  intros H. unfold load_data, mbind, M_bind. rewrite path_exists_run.
  rewrite bool_decide_eq_false_2 by exact H. reflexivity.
Qed.

Lemma load_data_existing file_path w msg :
  exists_in w file_path ->
  (load_data read_csv_text file_path w).1 <> inl (FileNotFoundError msg).
Proof.
  intros H. unfold load_data, mbind, M_bind. rewrite path_exists_run.
  rewrite bool_decide_eq_true_2 by exact H. cbn [negb].
  unfold read_csv, read_file, mbind, M_bind, raise, mret, M_ret.
  destruct H as [n Hn]. rewrite Hn.
  destruct n as [content|]; [|discriminate].
  destruct (read_csv_text content); discriminate.
Qed.

(** C7.  When the input path does not exist, [load_data] raises
    [FileNotFoundError], and so does [clean_pipeline], in a world that is
    the one it started in: no file or directory is made or written, and
    nothing is printed.  When the input path exists, an error of
    [load_data], if any, is not [FileNotFoundError]. *)
Theorem clean_pipeline_missing_input (raw_path cleaned_path : string) (w : World) :
  (~ exists_in w raw_path ->
   load_data read_csv_text raw_path w
   = (inl (FileNotFoundError ("File not found: " +:+ raw_path)), w)
   /\ clean_pipeline parse_number read_csv_text to_csv_text raw_path cleaned_path w
      = (inl (FileNotFoundError ("File not found: " +:+ raw_path)), w))
  /\ (exists_in w raw_path ->
      forall msg,
        (load_data read_csv_text raw_path w).1 <> inl (FileNotFoundError msg)).
Proof.
  split.
  - intros H. split; [apply load_data_missing, H|].
    unfold clean_pipeline, mbind at 1, M_bind at 1.
    rewrite (load_data_missing _ _ H). reflexivity.
  - intros H msg. apply load_data_existing, H.
Qed.

(** C10.  When the directory part of the output path is empty,
    [save_cleaned_data] raises the error of [os.makedirs] on the empty
    path, and the world is the one it started in: nothing is written.
    Hence a call that returns had an output path with a directory part. *)
Theorem save_cleaned_data_bare_name (df : DataFrame) (output_path : string) (w : World) :
  (posixpath.dirname output_path = "" ->
   makedirs (posixpath.dirname output_path) true w = (inl (FileNotFoundError ""), w)
   /\ save_cleaned_data to_csv_text df output_path w = (inl (FileNotFoundError ""), w))
  /\ (forall w',
        save_cleaned_data to_csv_text df output_path w = (inr tt, w') ->
        posixpath.dirname output_path <> "").
Proof.
  assert (Hbare : posixpath.dirname output_path = "" ->
                  save_cleaned_data to_csv_text df output_path w
                  = (inl (FileNotFoundError ""), w)).
  { intros E. unfold save_cleaned_data, mbind at 1, M_bind at 1.
    rewrite E, makedirs_empty. reflexivity. }
  split.
  - intros E. split; [rewrite E; apply makedirs_empty | apply Hbare, E].
  - intros w' H E. rewrite (Hbare E) in H. discriminate H.
Qed.

End Files.

(** A path has an empty directory part exactly when it has no separator. *)
Lemma cut_head_empty p : (posixpath.cut p).1 = "" <-> "/"%char ∉ PyStr.chars p.
Proof.
  induction p as [|c p IH]; cbn.
  - split; [intros _; apply not_elem_of_nil | reflexivity].
  - destruct (posixpath.cut p) as [h t]. cbn in IH. unfold posixpath.is_sep.
    rewrite not_elem_of_cons. case_bool_decide as Hc; cbn.
    + subst c. split; [discriminate | intros [? _]; congruence].
    + case_bool_decide as Hh; cbn.
      * split; [intros _; split; [congruence | apply IH, Hh] | reflexivity].
      * split; [discriminate | intros [_ Hn]; exfalso; apply Hh, IH, Hn].
Qed.

Lemma rstrip_by_empty P s : PyStr.rstrip_by P s = "" -> all_chars P s.
Proof.
  induction s as [|c s IH]; cbn; [constructor|].
  destruct (PyStr.rstrip_by P s); [|discriminate].
  destruct (P c) eqn:E; [|discriminate].
  intros _. constructor; [exact E | apply IH; reflexivity].
Qed.

Lemma all_sep_chars s : posixpath.all_sep s = true <-> all_chars posixpath.is_sep s.
Proof.
  unfold all_chars. induction s as [|c s IH]; cbn.
  - split; [constructor | reflexivity].
  - rewrite andb_true_iff, Forall_cons, IH. reflexivity.
Qed.

Lemma dirname_empty p : posixpath.dirname p = "" <-> "/"%char ∉ PyStr.chars p.
Proof.
  rewrite <- cut_head_empty. unfold posixpath.dirname, posixpath.split.
  destruct (posixpath.cut p) as [h t]. cbn.
  case_bool_decide as Hh; cbn; [subst h; tauto|].
  destruct (posixpath.all_sep h) eqn:Hs; cbn; [tauto|].
  split; [|tauto]. intros E. apply rstrip_by_empty, all_sep_chars in E. congruence.
Qed.

Example dirname_default :
  posixpath.dirname "data/processed/sales_data_clean.csv" = "data/processed".
Proof. reflexivity. Qed.

Example dirname_bare : posixpath.dirname "out.csv" = "".
Proof. reflexivity. Qed.

Example split_root : posixpath.split "/usr" = ("/", "usr").
Proof. reflexivity. Qed.

(** *** Runs of the pipeline *)

(** The input exists and the output path has a directory part: the
    directory is made and the cleaned table written there. *)
Example clean_pipeline_sales :
  let r := sample_pipeline "raw.csv" "out/clean.csv" Sample.raw_world in
  r.1 = inr tt
  /\ fs r.2 !! "out" = Some Dir
  /\ fs r.2 !! "out/clean.csv" = Some (File (Sample.to_csv_text sales_clean))
  /\ last (stdout r.2) = Some (Frame sales_clean).
Proof. vm_compute. repeat split. Qed.

(** The output path is a bare file name: the table is loaded and cleaned,
    and the saving step raises before it writes. *)
Example clean_pipeline_bare_output :
  let r := sample_pipeline "raw.csv" "clean.csv" Sample.raw_world in
  r.1 = inl (FileNotFoundError "") /\ fs r.2 = fs Sample.raw_world.
Proof. vm_compute. repeat split. Qed.

(** The input path names a directory: it exists, and reading it fails with
    another error than [FileNotFoundError]. *)
Example load_data_directory :
  (load_data Sample.read_csv_text "data"
     {| fs := {[ "data" := Dir ]}; stdout := [] |}).1
  = inl (IsADirectoryError "data").
Proof. vm_compute. reflexivity. Qed.

Lemma clean_pipeline_missing_input_witness :
  ~ exists_in Sample.raw_world "missing.csv"
  /\ sample_pipeline "missing.csv" "out/clean.csv" Sample.raw_world
     = (inl (FileNotFoundError "File not found: missing.csv"), Sample.raw_world)
  /\ exists_in Sample.raw_world "raw.csv"
  /\ (load_data Sample.read_csv_text "raw.csv" Sample.raw_world).1
     <> inl (FileNotFoundError "File not found: raw.csv").
Proof.
  assert (Hmissing : ~ exists_in Sample.raw_world "missing.csv") by by_decision.
  assert (Hraw : exists_in Sample.raw_world "raw.csv") by by_decision.
  split; [exact Hmissing|].
  split.
  - exact (proj2 (proj1 (clean_pipeline_missing_input Sample.parse_number
                           Sample.read_csv_text Sample.to_csv_text
                           "missing.csv" "out/clean.csv" Sample.raw_world) Hmissing)).
  - split; [exact Hraw|].
    exact (proj2 (clean_pipeline_missing_input Sample.parse_number
                    Sample.read_csv_text Sample.to_csv_text
                    "raw.csv" "out/clean.csv" Sample.raw_world) Hraw _).
Defined.

Lemma save_cleaned_data_bare_name_witness :
  posixpath.dirname "out.csv" = ""
  /\ save_cleaned_data Sample.to_csv_text sales_clean "out.csv" Sample.empty_world
     = (inl (FileNotFoundError ""), Sample.empty_world)
  /\ (save_cleaned_data Sample.to_csv_text sales_clean "out/clean.csv"
        Sample.empty_world).1 = inr tt
  /\ posixpath.dirname "out/clean.csv" <> "".
Proof.
  split; [reflexivity|].
  split.
  - exact (proj2 (proj1 (save_cleaned_data_bare_name Sample.to_csv_text sales_clean
                           "out.csv" Sample.empty_world) eq_refl)).
  - split; [vm_compute; reflexivity|].
    refine (proj2 (save_cleaned_data_bare_name Sample.to_csv_text sales_clean
                     "out/clean.csv" Sample.empty_world) _ _).
    vm_compute. reflexivity.
Defined.

(** * Further properties *)

(** ** Labels carried by several columns *)

Lemma carried_columns df k : k ∈ columns df <-> (1 <= carried df k)%nat.
Proof.
  unfold carried, columns. induction (items df) as [|[k0 s0] l IH].
  - cbn. split; [intros H; apply elem_of_nil in H; contradiction | lia].
  - rewrite filter_cons, fmap_cons, elem_of_cons, IH. cbn [fst].
    destruct (decide (k0 = k)) as [->|Hne]; cbn [length]; [split; [lia | tauto]|].
    split; [intros [E|H]; [congruence | exact H] | tauto].
Qed.

Lemma getitem_single df k :
  carried df k = 1%nat -> exists s, getitem df k = Column s /\ (k, s) ∈ items df.
Proof.
  unfold carried, getitem.
  destruct (filter _ (items df)) as [|[k0 s0] [|c' cs]] eqn:F; try discriminate.
  intros _. exists s0. split; [reflexivity|].
  assert (Hin : (k0, s0) ∈ filter (fun c : string * Series => c.1 = k) (items df))
    by (rewrite F; apply list_elem_of_here).
  apply list_elem_of_filter in Hin as [E Hin]. cbn in E. subst k0. exact Hin.
Qed.

Lemma getitem_several df k :
  (2 <= carried df k)%nat -> exists cs, getitem df k = SubFrame cs.
Proof.
  unfold carried, getitem.
  destruct (filter _ (items df)) as [|c [|c' cs]]; cbn; try lia.
  intros _. eexists. reflexivity.
Qed.

Lemma carried_relabel (g : string * Series -> string * Series) l k :
  (forall c, (g c).1 = c.1) ->
  length (filter (fun c : string * Series => c.1 = k) (g <$> l))
  = length (filter (fun c : string * Series => c.1 = k) l).
Proof.
  intros Hg. induction l as [|c l IH]; [reflexivity|].
  cbn [fmap list_fmap]. rewrite !filter_cons, Hg.
  destruct (decide (c.1 = k)); cbn; rewrite IH; reflexivity.
Qed.

Lemma carried_setitem df key s k :
  key ∈ columns df -> carried (setitem df key s) k = carried df k.
Proof.
  intros Hin. rewrite setitem_present by exact Hin. unfold carried. cbn.
  apply carried_relabel. intros [k0 s0]. cbn. case_bool_decide; cbn; congruence.
Qed.

Lemma carried_map_series f df k : carried (map_series f df) k = carried df k.
Proof. unfold carried, map_series. cbn. apply carried_relabel. intros [k0 s0]. reflexivity. Qed.

(** ** [strip_text_fields], cell by cell *)

Lemma strip_loop_items keys : forall df,
  NoDup keys ->
  (forall k, k ∈ keys -> carried df k = 1%nat /\ exists l, (k, SObject l) ∈ items df) ->
  for_each strip_column keys df
  = inr {| index := index df;
           items := (fun c => if bool_decide (c.1 ∈ keys)
                              then (c.1, strip_series c.2) else c) <$> items df |}.
Proof.
  induction keys as [|k keys IH]; intros df Hnd Hkeys.
  - cbn. f_equal. destruct df as [idx its]. cbn. f_equal.
    rewrite <- (list_fmap_id its) at 1. apply list_fmap_ext.
    intros _ c _. rewrite bool_decide_eq_false_2 by apply not_elem_of_nil. reflexivity.
  - apply NoDup_cons in Hnd as [Hk Hnd].
    destruct (Hkeys k (list_elem_of_here _ _)) as [Hone [l Hl]].
    destruct (getitem_single _ _ Hone) as [s [G Hs]].
    assert (s = SObject l) as -> by (symmetry; apply (getitem_Column_unique _ _ _ G _ Hl)).
    assert (Hkin : k ∈ columns df) by (apply carried_columns; lia).
    cbn [for_each]. unfold strip_column at 1. rewrite G.
    rewrite IH; [|exact Hnd|].
    + f_equal. rewrite setitem_present by exact Hkin. cbn. f_equal.
      rewrite <- list_fmap_compose. apply list_fmap_ext.
      intros _ [k0 s0] Hc%list_elem_of_lookup_2. cbn.
      destruct (decide (k0 = k)) as [->|Hne].
      * rewrite (bool_decide_eq_true_2 (k = k)) by reflexivity. cbn.
        rewrite bool_decide_eq_false_2 by exact Hk.
        rewrite bool_decide_eq_true_2 by apply list_elem_of_here.
        rewrite (getitem_Column_unique _ _ _ G _ Hc). reflexivity.
      * rewrite (bool_decide_eq_false_2 (k0 = k)) by exact Hne. cbn.
        apply (f_equal (fun b : bool => if b then _ else _)).
        apply bool_decide_ext. rewrite elem_of_cons. split; [tauto | intros [?|?]; [congruence | assumption]].
    + intros k' Hk'. destruct (Hkeys k' (list_elem_of_further _ _ _ Hk')) as [Hone' [l' Hl']].
      split; [rewrite carried_setitem by exact Hkin; exact Hone'|].
      assert (Hne : k' <> k) by (intros ->; contradiction).
      exists l'. rewrite setitem_present by exact Hkin. cbn.
      apply list_elem_of_fmap. exists (k', SObject l'). split; [|exact Hl'].
      cbn. rewrite bool_decide_eq_false_2 by exact Hne. reflexivity.
Qed.

Lemma filter_one_more (k : string) (c : string * Series) l :
  c ∈ l -> c.1 = k ->
  (1 <= length (filter (fun c' : string * Series => c'.1 = k) l))%nat.
Proof.
  intros Hc E.
  assert (Hin : c ∈ filter (fun c' : string * Series => c'.1 = k) l)
    by (apply list_elem_of_filter; split; assumption).
  destruct (filter (fun c' : string * Series => c'.1 = k) l);
    [apply elem_of_nil in Hin; contradiction | cbn; lia].
Qed.

Lemma filter_labels_NoDup (Q : string * Series -> Prop) {Q_dec : forall c, Decision (Q c)} l :
  (forall c, c ∈ l -> Q c ->
     length (filter (fun c' : string * Series => c'.1 = c.1) l) = 1%nat) ->
  NoDup (filter Q l).*1.
Proof.
  induction l as [|c l IH]; intros H; [constructor|].
  assert (Hrest : NoDup (filter Q l).*1).
  { apply IH. intros c' Hc' Hq.
    pose proof (H c' (list_elem_of_further _ _ _ Hc') Hq) as H1.
    pose proof (filter_one_more c'.1 c' l Hc' eq_refl) as H2.
    rewrite filter_cons in H1. destruct (decide (c.1 = c'.1)); cbn in H1; lia. }
  rewrite filter_cons. destruct (decide (Q c)) as [Hq|Hq]; [|exact Hrest].
  cbn. apply NoDup_cons. split; [|exact Hrest].
  intros [c' [E [_ Hc']%list_elem_of_filter]]%list_elem_of_fmap.
  pose proof (H c (list_elem_of_here _ _) Hq) as H1.
  pose proof (filter_one_more c.1 c' l Hc' (eq_sym E)) as H2.
  rewrite filter_cons, decide_True in H1 by reflexivity. cbn in H1. lia.
Qed.

Lemma strip_text_fields_run df w :
  text_labels_single df ->
  strip_text_fields df w
  = (inr (map_series strip_series df),
     {| fs := fs w;
        stdout := stdout w ++ [Line "Stripped whitespace from text fields."] |}).
Proof.
  intros Hsingle. unfold strip_text_fields, mbind, M_bind, lift.
  rewrite strip_loop_items.
  - unfold print, emit, mret, M_ret, map_series. cbn. do 3 f_equal.
    apply list_fmap_ext. intros _ [k s] Hc%list_elem_of_lookup_2. cbn.
    case_bool_decide as Hk; [reflexivity|].
    destruct s as [l|l|l]; try reflexivity. exfalso. apply Hk.
    unfold columns, select_dtypes. cbn. apply list_elem_of_fmap.
    exists (k, SObject l). split; [reflexivity|].
    apply list_elem_of_filter. split; [apply list_elem_of_here | exact Hc].
  - unfold columns, select_dtypes. cbn. apply filter_labels_NoDup.
    intros [k s] Hc Hq. destruct s as [l|l|l]; cbn in Hq; try (exfalso; dtype_mem).
    apply (Hsingle k l Hc).
  - intros k [[k0 s] [-> [Hdt Hin]%list_elem_of_filter]]%list_elem_of_fmap.
    destruct s as [l|l|l]; cbn in Hdt; try (exfalso; dtype_mem).
    split; [apply (Hsingle _ _ Hin) | exists l; exact Hin].
Qed.

Lemma strip_idem v : PyStr.strip (PyStr.strip v) = PyStr.strip v.
Proof. apply strip_id, strip_no_outer. Qed.

Lemma strip_series_idem s : strip_series (strip_series s) = strip_series s.
Proof.
  destruct s as [l|l|l]; try reflexivity. cbn. f_equal. unfold str_strip.
  rewrite <- list_fmap_compose. apply list_fmap_ext.
  intros _ [v|] _; cbn; [rewrite strip_idem|]; reflexivity.
Qed.

Lemma text_labels_single_strip df :
  text_labels_single df -> text_labels_single (map_series strip_series df).
Proof.
  intros H k l Hin. rewrite carried_map_series.
  unfold map_series in Hin. cbn in Hin.
  apply list_elem_of_fmap in Hin as [[k0 s0] [E Hin]].
  unfold prod_map in E. cbn in E. injection E as -> E.
  destruct s0 as [l0|l0|l0]; try discriminate. apply (H _ _ Hin).
Qed.

(** X1.  When every label of a text column names that column only,
    [strip_text_fields] returns a table with the row labels and the column
    labels of its argument in which a text cell is the old one stripped of
    the whitespace at its ends, a missing text cell is still missing, and a
    numeric column is as it was. *)
Theorem strip_text_fields_cells (df : DataFrame) (w : World) :
  text_labels_single df ->
  exists df' w',
    strip_text_fields df w = (inr df', w')
    /\ index df' = index df
    /\ columns df' = columns df
    /\ (forall (i : nat) (k : string) (l : list (option string)),
          items df !! i = Some (k, SObject l) ->
          exists l',
            items df' !! i = Some (k, SObject l')
            /\ length l' = length l
            /\ (forall (j : nat) (v : string),
                  l !! j = Some (Some v) -> l' !! j = Some (Some (PyStr.strip v)))
            /\ (forall j : nat, l !! j = Some None -> l' !! j = Some None))
    /\ (forall (i : nat) (k : string) (s : Series),
          items df !! i = Some (k, s) ->
          Series_dtype s <> Object ->
          items df' !! i = Some (k, s)).
Proof.
  intros Hsingle. eexists _, _. split; [apply strip_text_fields_run, Hsingle|].
  split; [reflexivity|]. split.
  { unfold columns, map_series. cbn. rewrite <- list_fmap_compose.
    apply list_fmap_ext. intros _ [k s] _. reflexivity. }
  split.
  - intros i k l Hi. exists (str_strip l). split.
    + unfold map_series. cbn. rewrite list_lookup_fmap, Hi. reflexivity.
    + split; [apply length_fmap|].
      split; intros j; [intros v|]; intros Hj; unfold str_strip;
        rewrite list_lookup_fmap, Hj; reflexivity.
  - intros i k s Hi Hdt. unfold map_series. cbn. rewrite list_lookup_fmap, Hi.
    destruct s; cbn in *; try reflexivity. congruence.
Qed.

(** X2.  [strip_text_fields] applied to its own result returns that result:
    a second application changes nothing in the table. *)
Theorem strip_text_fields_idempotent (df : DataFrame) (w : World) :
  text_labels_single df ->
  exists df1 w1 w2,
    strip_text_fields df w = (inr df1, w1)
    /\ strip_text_fields df1 w1 = (inr df1, w2).
Proof.
  intros Hsingle. eexists _, _, _.
  split; [apply strip_text_fields_run, Hsingle|].
  rewrite strip_text_fields_run by apply text_labels_single_strip, Hsingle.
  f_equal. f_equal. unfold map_series. cbn. f_equal.
  rewrite <- list_fmap_compose. apply list_fmap_ext.
  intros _ [k s] _. unfold prod_map. cbn. rewrite strip_series_idem. reflexivity.
Qed.

Lemma strip_loop_raises keys : forall df,
  (forall k, k ∈ keys -> exists l, (k, SObject l) ∈ items df) ->
  (exists k, k ∈ keys /\ (2 <= carried df k)%nat) ->
  for_each strip_column keys df = inl AttributeError.
Proof.
  induction keys as [|k keys IH]; intros df Hkeys [k2 [Hk2 Hbad]].
  - apply elem_of_nil in Hk2. contradiction.
  - cbn [for_each]. unfold strip_column at 1.
    destruct (Hkeys k (list_elem_of_here _ _)) as [l Hl].
    destruct (decide (2 <= carried df k)%nat) as [Hk|Hk].
    + destruct (getitem_several _ _ Hk) as [cs ->]. reflexivity.
    + assert (Hkin : k ∈ columns df).
      { unfold columns. apply list_elem_of_fmap. exists (k, SObject l).
        split; [reflexivity | exact Hl]. }
      assert (Hone : carried df k = 1%nat) by (apply carried_columns in Hkin; lia).
      destruct (getitem_single _ _ Hone) as [s [G _]].
      rewrite G, <- (getitem_Column_unique _ _ _ G _ Hl).
      apply IH.
      * intros k' Hk'. destruct (Hkeys k' (list_elem_of_further _ _ _ Hk')) as [l' Hl'].
        rewrite setitem_present by exact Hkin. cbn.
        destruct (decide (k' = k)) as [->|Hne].
        -- exists (str_strip l). apply list_elem_of_fmap. exists (k, SObject l).
           split; [|exact Hl]. cbn. rewrite bool_decide_eq_true_2 by reflexivity. reflexivity.
        -- exists l'. apply list_elem_of_fmap. exists (k', SObject l').
           split; [|exact Hl']. cbn. rewrite bool_decide_eq_false_2 by exact Hne. reflexivity.
      * exists k2. rewrite carried_setitem by exact Hkin.
        apply elem_of_cons in Hk2 as [->|Hk2]; [contradiction|].
        split; assumption.
Qed.

Lemma strip_text_fields_raises df w :
  (exists k l, (k, SObject l) ∈ items df /\ (2 <= carried df k)%nat) ->
  strip_text_fields df w = (inl AttributeError, w).
Proof.
  intros [k [l [Hl Hbad]]]. unfold strip_text_fields, mbind, M_bind, lift.
  rewrite strip_loop_raises; [reflexivity| |].
  - intros k' [[k0 s] [-> [Hdt Hin]%list_elem_of_filter]]%list_elem_of_fmap.
    destruct s as [l'|l'|l']; cbn in Hdt; try (exfalso; dtype_mem).
    exists l'. exact Hin.
  - exists k. split; [|exact Hbad].
    unfold columns, select_dtypes. cbn. apply list_elem_of_fmap.
    exists (k, SObject l). split; [reflexivity|].
    apply list_elem_of_filter. split; [apply list_elem_of_here | exact Hl].
Qed.

(** X3.  [strip_text_fields] raises [AttributeError], with nothing printed,
    when the label of a text column is carried by another column too (the
    selection is then a table, which has no [.str]); it returns when every
    label of a text column names that column only. *)
Theorem strip_text_fields_shared_label (df : DataFrame) (w : World) :
  ((exists k l, (k, SObject l) ∈ items df /\ (2 <= carried df k)%nat) ->
   strip_text_fields df w = (inl AttributeError, w))
  /\ (text_labels_single df -> exists df' w', strip_text_fields df w = (inr df', w')).
Proof.
  split; [apply strip_text_fields_raises|].
  intros H. eexists _, _. apply strip_text_fields_run, H.
Qed.

Lemma carried_two (l : list (string * Series)) k : forall i j c1 c2,
  i <> j -> l !! i = Some c1 -> l !! j = Some c2 -> c1.1 = k -> c2.1 = k ->
  (2 <= length (filter (fun c : string * Series => c.1 = k) l))%nat.
Proof.
  induction l as [|c l IH]; intros i j c1 c2 Hne Hi Hj E1 E2; [discriminate|].
  rewrite filter_cons. destruct i as [|i], j as [|j]; cbn in Hi, Hj; [lia| | |].
  - injection Hi as ->. rewrite decide_True by exact E1. cbn.
    pose proof (filter_one_more k c2 l (list_elem_of_lookup_2 _ _ _ Hj) E2). lia.
  - injection Hj as ->. rewrite decide_True by exact E2. cbn.
    pose proof (filter_one_more k c1 l (list_elem_of_lookup_2 _ _ _ Hi) E1). lia.
  - assert (H := IH i j c1 c2 ltac:(lia) Hi Hj E1 E2).
    destruct (decide (c.1 = k)); cbn; lia.
Qed.

(** X4.  Two columns, one of them a text column, whose labels
    [clean_column_names] makes equal stop the pipeline: the table
    [clean_column_names] returns makes [strip_text_fields] raise
    [AttributeError]. *)
Theorem clean_column_names_collision
    (df : DataFrame) (w : World) (i j : nat) (k1 k2 : string)
    (l1 : list (option string)) (s2 : Series) :
  i <> j ->
  items df !! i = Some (k1, SObject l1) ->
  items df !! j = Some (k2, s2) ->
  clean_label k1 = clean_label k2 ->
  exists df1 w1,
    clean_column_names df w = (inr df1, w1)
    /\ strip_text_fields df1 w1 = (inl AttributeError, w1).
Proof.
  intros Hne Hi Hj E. eexists _, _. split; [apply clean_column_names_run|].
  apply strip_text_fields_raises.
  exists (clean_label k1), l1. split.
  - unfold map_columns. cbn. apply list_elem_of_fmap.
    exists (k1, SObject l1). split; [reflexivity|].
    apply (list_elem_of_lookup_2 _ _ _ Hi).
  - unfold carried, map_columns. cbn.
    apply (carried_two _ _ i j (clean_label k1, SObject l1) (clean_label k2, s2));
      [exact Hne | | | reflexivity | symmetry; exact E];
      rewrite list_lookup_fmap; [rewrite Hi | rewrite Hj]; reflexivity.
Qed.

Lemma getitem_Column_carried df k s : getitem df k = Column s -> carried df k = 1%nat.
Proof.
  unfold getitem, carried.
  destruct (filter _ (items df)) as [|c [|c' cs]]; try discriminate. reflexivity.
Qed.

(** Distinct labels: every label names one column. *)
Lemma distinct_text_labels df : NoDup (columns df) -> text_labels_single df.
Proof.
  intros Hnd k l Hin.
  apply (getitem_Column_carried df k (SObject l)), getitem_distinct; assumption.
Qed.

Example strip_text_fields_padded :
  (strip_text_fields padded Sample.empty_world).1 = inr padded_stripped.
Proof. vm_compute. reflexivity. Qed.

Lemma padded_single : text_labels_single padded.
Proof. apply distinct_text_labels. by_decision. Qed.

Lemma strip_text_fields_cells_witness :
  text_labels_single padded
  /\ exists df' w',
       strip_text_fields padded Sample.empty_world = (inr df', w')
       /\ index df' = index padded
       /\ columns df' = columns padded
       /\ (forall (i : nat) (k : string) (l : list (option string)),
             items padded !! i = Some (k, SObject l) ->
             exists l',
               items df' !! i = Some (k, SObject l')
               /\ length l' = length l
               /\ (forall (j : nat) (v : string),
                     l !! j = Some (Some v) -> l' !! j = Some (Some (PyStr.strip v)))
               /\ (forall j : nat, l !! j = Some None -> l' !! j = Some None))
       /\ (forall (i : nat) (k : string) (s : Series),
             items padded !! i = Some (k, s) ->
             Series_dtype s <> Object ->
             items df' !! i = Some (k, s)).
Proof.
  split; [exact padded_single|].
  apply (strip_text_fields_cells padded Sample.empty_world padded_single).
Defined.

Lemma strip_text_fields_idempotent_witness :
  text_labels_single padded
  /\ exists df1 w1 w2,
       strip_text_fields padded Sample.empty_world = (inr df1, w1)
       /\ strip_text_fields df1 w1 = (inr df1, w2).
Proof.
  split; [exact padded_single|].
  apply (strip_text_fields_idempotent padded Sample.empty_world padded_single).
Defined.

Example strip_text_fields_twice_named :
  strip_text_fields twice_named Sample.empty_world
  = (inl AttributeError, Sample.empty_world).
Proof. vm_compute. reflexivity. Qed.

Lemma strip_text_fields_shared_label_witness :
  (exists k l, (k, SObject l) ∈ items twice_named /\ (2 <= carried twice_named k)%nat)
  /\ strip_text_fields twice_named Sample.empty_world
     = (inl AttributeError, Sample.empty_world)
  /\ text_labels_single padded
  /\ exists df' w', strip_text_fields padded Sample.empty_world = (inr df', w').
Proof.
  assert (Hshared : exists k l, (k, SObject l) ∈ items twice_named
                                /\ (2 <= carried twice_named k)%nat).
  { exists "name", [Some "a"]. split; [apply list_elem_of_here | vm_compute; lia]. }
  split; [exact Hshared|].
  split; [exact (proj1 (strip_text_fields_shared_label twice_named Sample.empty_world)
                   Hshared)|].
  split; [exact padded_single|].
  exact (proj2 (strip_text_fields_shared_label padded Sample.empty_world) padded_single).
Defined.

Example clean_then_strip_colliding :
  columns colliding = ["Name"; " name"]
  /\ (clean_column_names colliding Sample.empty_world).1
     = inr {| index := [0%nat];
              items := [("name", SObject [Some "Ann"]); ("name", SObject [Some "Bob"])] |}.
Proof. vm_compute. split; reflexivity. Qed.

Lemma clean_column_names_collision_witness :
  0%nat <> 1%nat
  /\ items colliding !! 0%nat = Some ("Name", SObject [Some "Ann"])
  /\ items colliding !! 1%nat = Some (" name", SObject [Some "Bob"])
  /\ clean_label "Name" = clean_label " name"
  /\ exists df1 w1,
       clean_column_names colliding Sample.empty_world = (inr df1, w1)
       /\ strip_text_fields df1 w1 = (inl AttributeError, w1).
Proof.
  split; [lia|]. split; [reflexivity|]. split; [reflexivity|]. split; [reflexivity|].
  apply (clean_column_names_collision colliding Sample.empty_world 0 1
           "Name" " name" [Some "Ann"] (SObject [Some "Bob"]));
    [lia | reflexivity | reflexivity | reflexivity].
Defined.

(** ** [remove_invalid_rows]: when it raises, and what it keeps *)

Lemma filter_relabel (g : string * Series -> string * Series)
    (l : list (string * Series)) k :
  (forall c, (g c).1 = c.1) ->
  filter (fun c : string * Series => c.1 = k) (g <$> l)
  = g <$> filter (fun c : string * Series => c.1 = k) l.
Proof.
  intros Hg. induction l as [|c l IH]; [reflexivity|].
  cbn [fmap list_fmap]. rewrite !filter_cons, Hg.
  destruct (decide (c.1 = k)); cbn; rewrite IH; reflexivity.
Qed.

Lemma getitem_take_rows mask df k s :
  getitem df k = Column s ->
  getitem (take_rows mask df) k = Column (Series_select mask s).
Proof.
  unfold getitem, take_rows. cbn.
  rewrite filter_relabel by (intros [k0 s0]; reflexivity).
  destruct (filter _ (items df)) as [|c [|c' cs]]; try discriminate.
  intros [= <-]. reflexivity.
Qed.

Lemma carried_take_rows mask df k : carried (take_rows mask df) k = carried df k.
Proof. unfold carried, take_rows. cbn. apply carried_relabel. intros [k0 s0]. reflexivity. Qed.

Lemma carried_map_columns_items (g : string * Series -> string * Series) df df' k :
  items df' = g <$> items df -> (forall c, (g c).1 = c.1) -> carried df' k = carried df k.
Proof. intros E Hg. unfold carried. rewrite E. apply carried_relabel, Hg. Qed.

Lemma designated_numeric_take_rows mask df :
  designated_numeric df -> designated_numeric (take_rows mask df).
Proof.
  intros H col Hcol Hin. rewrite columns_take_rows in Hin.
  destruct (H col Hcol Hin) as [s [G Hdt]].
  exists (Series_select mask s). split; [apply getitem_take_rows, G|].
  destruct s; cbn in *; assumption.
Qed.

Lemma keep_nonnegative_numeric df col :
  designated_numeric df -> col ∈ designated ->
  exists df', keep_nonnegative df col = inr df' /\ designated_numeric df'.
Proof.
  intros H Hcol. unfold keep_nonnegative. case_bool_decide as Hin.
  - destruct (H col Hcol Hin) as [s [G Hdt]]. rewrite G.
    destruct s as [l|l|l]; cbn in *; [| |congruence];
      (eexists; split; [reflexivity | apply designated_numeric_take_rows, H]).
  - exists df. split; [reflexivity | exact H].
Qed.

Section Outcome.

Variable parse_number : string -> option number.

Lemma coerce_column_single df col :
  (carried df col <= 1)%nat ->
  exists df', coerce_column parse_number df col = inr df'.
Proof.
  intros H. unfold coerce_column. case_bool_decide as Hin; [|eexists; reflexivity].
  apply carried_columns in Hin.
  destruct (getitem_single df col ltac:(lia)) as [s [-> _]]. eexists. reflexivity.
Qed.

Lemma coerce_column_several df col :
  (2 <= carried df col)%nat -> coerce_column parse_number df col = inl TypeError.
Proof.
  intros H. unfold coerce_column.
  rewrite bool_decide_eq_true_2 by (apply carried_columns; lia).
  destruct (getitem_several _ _ H) as [cs ->]. reflexivity.
Qed.

Lemma coerce_item_label col c : (coerce_item parse_number col c).1 = c.1.
Proof. unfold coerce_item. case_bool_decide; reflexivity. Qed.

Lemma coerce_loop_single df :
  designated_single df ->
  exists df',
    for_each (coerce_column parse_number) designated df = inr df'
    /\ index df' = index df
    /\ items df' = coerced parse_number <$> items df.
Proof.
  intros H.
  destruct (coerce_column_single df "price") as [df1 E1];
    [apply H, list_elem_of_here|].
  pose proof (coerce_column_items _ _ _ _ E1) as [_ T1].
  destruct (coerce_column_single df1 "quantity") as [df2 E2].
  { rewrite (carried_map_columns_items _ _ _ _ T1 (coerce_item_label "price")).
    apply H, list_elem_of_further, list_elem_of_here. }
  assert (L : for_each (coerce_column parse_number) designated df = inr df2)
    by (unfold designated; cbn [for_each]; rewrite E1, E2; reflexivity).
  exists df2. split; [exact L|]. apply coerce_loop_items, L.
Qed.

Lemma coerce_loop_several df :
  (exists col, col ∈ designated /\ (2 <= carried df col)%nat) ->
  for_each (coerce_column parse_number) designated df = inl TypeError.
Proof.
  intros [col [Hcol Hbad]]. unfold designated. cbn [for_each].
  destruct (decide (2 <= carried df "price")%nat) as [Hp|Hp].
  - rewrite (coerce_column_several _ _ Hp). reflexivity.
  - destruct (coerce_column_single df "price" ltac:(lia)) as [df1 E1]. rewrite E1.
    pose proof (coerce_column_items _ _ _ _ E1) as [_ T1].
    rewrite coerce_column_several; [reflexivity|].
    rewrite (carried_map_columns_items _ _ _ _ T1 (coerce_item_label "price")).
    unfold designated in Hcol.
    apply elem_of_cons in Hcol as [->|Hcol]; [contradiction|].
    apply list_elem_of_singleton in Hcol as ->. exact Hbad.
Qed.

Lemma coerced_numeric df df' :
  designated_single df ->
  items df' = coerced parse_number <$> items df ->
  designated_numeric df'.
Proof.
  intros H T col Hcol Hin.
  assert (Hlabel : forall c, (coerced parse_number c).1 = c.1)
    by (intros c; unfold coerced; case_bool_decide; reflexivity).
  assert (Hone : carried df' col = 1%nat).
  { apply carried_columns in Hin.
    pose proof (H col Hcol) as Hle.
    rewrite <- (carried_map_columns_items _ _ _ col T Hlabel) in Hle. lia. }
  destruct (getitem_single _ _ Hone) as [s [G Hs]]. exists s. split; [exact G|].
  rewrite T in Hs. apply list_elem_of_fmap in Hs as [[k x] [E _]].
  unfold coerced in E. cbn in E. case_bool_decide as Hk.
  - injection E as -> ->. apply to_numeric_not_object.
  - injection E as -> ->. contradiction.
Qed.

Lemma remove_invalid_rows_single df w :
  designated_single (map_columns fix_typo df) ->
  exists df' w', remove_invalid_rows parse_number df w = (inr df', w').
Proof.
  intros H. destruct (coerce_loop_single _ H) as [df1 [E1 [_ T1]]].
  pose proof (coerced_numeric _ _ H T1) as N1.
  unfold remove_invalid_rows, mbind, M_bind, lift. fold fix_typo. rewrite E1.
  set (df2 := match filter _ designated with [] => df1 | _ => _ end).
  assert (N2 : designated_numeric df2).
  { subst df2. destruct (filter _ designated); [exact N1|].
    apply designated_numeric_take_rows, N1. }
  destruct (keep_nonnegative_numeric df2 "price" N2) as [df3 [E3 N3]];
    [apply list_elem_of_here|].
  destruct (keep_nonnegative_numeric df3 "quantity" N3) as [df4 [E4 _]];
    [apply list_elem_of_further, list_elem_of_here|].
  unfold designated. cbn [for_each]. rewrite E3, E4.
  eexists _, _. reflexivity.
Qed.

(** X5.  [remove_invalid_rows] raises [TypeError], with nothing printed,
    when [price] or [quantity] is, once the typo is corrected, the label of
    several columns ([pd.to_numeric] is then given a table); it returns when
    each of the two labels is carried by one column at most. *)
Theorem remove_invalid_rows_shared_label (df : DataFrame) (w : World) :
  ((exists col,
      (col = "price" \/ col = "quantity")
      /\ (2 <= carried (map_columns fix_typo df) col)%nat) ->
   remove_invalid_rows parse_number df w = (inl TypeError, w))
  /\ ((forall col,
         col = "price" \/ col = "quantity" ->
         (carried (map_columns fix_typo df) col <= 1)%nat) ->
      exists df' w', remove_invalid_rows parse_number df w = (inr df', w')).
Proof.
  split.
  - intros [col [Hcol Hbad]].
    unfold remove_invalid_rows, mbind, M_bind, lift. fold fix_typo.
    rewrite coerce_loop_several; [reflexivity|].
    exists col. split; [|exact Hbad]. unfold designated.
    destruct Hcol as [-> | ->];
      [apply list_elem_of_here | apply list_elem_of_further, list_elem_of_here].
  - intros H. apply remove_invalid_rows_single.
    intros col Hcol. apply H. unfold designated in Hcol.
    apply elem_of_cons in Hcol as [->|Hcol]; [left; reflexivity|].
    apply list_elem_of_singleton in Hcol as ->. right; reflexivity.
Qed.

(** X6.  When, once the typo is corrected, no column is labelled [price]
    or [quantity], [remove_invalid_rows] drops no row and changes no cell:
    it returns its argument with the corrected labels. *)
Theorem remove_invalid_rows_no_designated (df : DataFrame) (w : World) :
  "price" ∉ columns (map_columns fix_typo df) ->
  "quantity" ∉ columns (map_columns fix_typo df) ->
  remove_invalid_rows parse_number df w
  = (inr (map_columns fix_typo df),
     {| fs := fs w;
        stdout := stdout w ++ [Line "Removed invalid rows (negative price/quantity)."] |}).
Proof.
  intros Hp Hq.
  unfold remove_invalid_rows, mbind, M_bind, lift. fold fix_typo.
  unfold designated. cbn [for_each]. unfold coerce_column.
  rewrite (bool_decide_eq_false_2 _ Hp). rewrite (bool_decide_eq_false_2 _ Hq).
  rewrite !filter_cons, filter_nil.
  rewrite (decide_False (P := "price" ∈ _)) by exact Hp.
  rewrite (decide_False (P := "quantity" ∈ _)) by exact Hq.
  cbn [for_each]. unfold keep_nonnegative.
  rewrite (bool_decide_eq_false_2 _ Hp). rewrite (bool_decide_eq_false_2 _ Hq).
  reflexivity.
Qed.

End Outcome.

(** *** Masks applied one after the other *)

Lemma select_rows_select {A} (m g : list bool) (l : list A) :
  select_rows (select_rows m g) (select_rows m l) = select_rows (zip_with andb m g) l.
Proof.
  revert g l. induction m as [|b m IH]; intros g l; [reflexivity|].
  destruct g as [|x g].
  - cbn. destruct l; [reflexivity|]. destruct b; reflexivity.
  - destruct l as [|y l]; [cbn; destruct b; cbn; rewrite ?select_rows_nil; reflexivity|].
    destruct b; cbn; [destruct x; rewrite IH; reflexivity | apply IH].
Qed.

Lemma take_rows_filtered m g df :
  take_rows (select_rows m g) (take_rows m df) = take_rows (zip_with andb m g) df.
Proof.
  unfold take_rows. cbn. f_equal; [apply select_rows_select|].
  rewrite <- list_fmap_compose. apply list_fmap_ext.
  intros _ [k s] _. unfold prod_map. cbn. f_equal.
  destruct s; cbn; rewrite select_rows_select; reflexivity.
Qed.

Lemma select_rows_fmap {A B} (f : A -> B) (m : list bool) (l : list A) :
  select_rows m (f <$> l) = f <$> select_rows m l.
Proof.
  revert l. induction m as [|b m IH]; intros [|x l]; try reflexivity.
  cbn. destruct b; cbn; rewrite IH; reflexivity.
Qed.

Lemma ge_zero_select m s g :
  ge_zero s = inr g -> ge_zero (Series_select m s) = inr (select_rows m g).
Proof.
  destruct s as [l|l|l]; cbn; intros H; [| |discriminate]; injection H as <-;
    rewrite select_rows_fmap; reflexivity.
Qed.

Lemma zip_with_andb_true (m : list bool) (n : nat) :
  (length m <= n)%nat -> zip_with andb m (replicate n true) = m.
Proof.
  revert n. induction m as [|b m IH]; intros n H; [reflexivity|].
  destruct n as [|n]; cbn in *; [lia|]. rewrite andb_true_r, IH by lia. reflexivity.
Qed.

Lemma lookup_zip_andb (a b : list bool) (i : nat) :
  zip_with andb a b !! i = Some true <-> a !! i = Some true /\ b !! i = Some true.
Proof.
  revert b i. induction a as [|x a IH]; intros b i.
  - cbn. split; [discriminate | intros [H _]; discriminate H].
  - destruct b as [|y b].
    + cbn. split; [discriminate | intros [_ H]; discriminate H].
    + destruct i as [|i]; cbn; [|apply IH].
      destruct x, y; cbn; intuition congruence.
Qed.

Lemma lookup_replicate_true (n i : nat) :
  replicate n true !! i = Some true <-> (i < n)%nat.
Proof.
  rewrite lookup_replicate. split; [intros [_ H]; exact H | intros H; split; [reflexivity | exact H]].
Qed.

Lemma getitem_absent df k : k ∉ columns df -> getitem df k = NoColumn.
Proof.
  intros H. unfold getitem.
  assert (E : carried df k = 0%nat).
  { destruct (carried df k) eqn:C; [reflexivity|].
    exfalso. apply H, carried_columns. lia. }
  unfold carried in E. destruct (filter _ (items df)); [reflexivity | discriminate].
Qed.

Lemma take_rows_full df : aligned df -> take_rows (replicate (nrows df) true) df = df.
Proof.
  intros H. destruct df as [idx its]. unfold take_rows, aligned, nrows in *. cbn in *.
  f_equal; [apply select_rows_replicate_ge; lia|].
  rewrite <- (list_fmap_id its) at 2. apply Forall_fmap_ext_1.
  eapply Forall_impl; [exact H|]. intros [k s] E. cbn in *.
  unfold prod_map. cbn. f_equal.
  destruct s; cbn in *; f_equal; apply select_rows_replicate_ge; lia.
Qed.

Lemma notna_mask_length subset df : (length (notna_mask subset df) <= nrows df)%nat.
Proof.
  unfold notna_mask. induction (filter _ (items df)) as [|c l IH]; cbn.
  - rewrite length_replicate. lia.
  - rewrite length_zip_with. lia.
Qed.

Lemma notna_mask_nil df : notna_mask [] df = replicate (nrows df) true.
Proof.
  unfold notna_mask.
  assert (E : filter (fun c : string * Series => c.1 ∈ @nil string) (items df) = []);
    [|rewrite E; reflexivity].
  induction (items df) as [|c l IH]; [reflexivity|].
  rewrite filter_cons, decide_False by apply not_elem_of_nil. exact IH.
Qed.

Lemma notna_mask_lookup subset df i :
  notna_mask subset df !! i = Some true
  <-> (i < nrows df)%nat
      /\ forall c, c ∈ items df -> c.1 ∈ subset -> isna c.2 !! i = Some false.
Proof.
  unfold notna_mask.
  assert (H : forall l : list (string * Series),
            foldr (fun c m => zip_with andb (negb <$> isna c.2) m)
                  (replicate (nrows df) true) l !! i = Some true
            <-> (i < nrows df)%nat /\ forall c, c ∈ l -> isna c.2 !! i = Some false).
  { induction l as [|c l IH]; cbn [foldr].
    - rewrite lookup_replicate_true. split; [intros H; split; [exact H|] | tauto].
      intros c Hc. apply elem_of_nil in Hc. contradiction.
    - rewrite lookup_zip_andb, IH, list_lookup_fmap. split.
      + intros [Hc [Hn Hl]]. split; [exact Hn|].
        intros c' [->|Hc']%elem_of_cons; [|apply Hl, Hc'].
        destruct (isna c.2 !! i) as [[]|]; cbn in Hc; congruence.
      + intros [Hn Hl]. split; [|split; [exact Hn|]].
        * rewrite (Hl c (list_elem_of_here _ _)). reflexivity.
        * intros c' Hc'. apply Hl, list_elem_of_further, Hc'. }
  rewrite H. split; intros [Hn Hl]; (split; [exact Hn|]).
  - intros c Hc Hs. apply Hl, list_elem_of_filter. split; assumption.
  - intros c [Hs Hc]%list_elem_of_filter. apply Hl; assumption.
Qed.

Lemma ge_mask_lookup s i :
  Series_dtype s <> Object -> (ge_mask s !! i = Some true <-> nonneg_at s i).
Proof.
  destruct s as [l|l|l]; cbn; intros Hdt; [| |congruence];
    unfold ge_mask; cbn; rewrite list_lookup_fmap.
  - split.
    + destruct (l !! i) as [z|]; cbn; [|discriminate].
      intros [= H]. exists z. split; [reflexivity | lia].
    + intros [z [-> Hz]]. cbn. f_equal. lia.
  - split.
    + destruct (l !! i) as [x|]; cbn; [|discriminate].
      intros [= H]. exists x. split; [reflexivity | exact H].
    + intros [x [-> Hx]]. cbn. rewrite Hx. reflexivity.
Qed.

Lemma nonneg_at_notna s i : nonneg_at s i -> isna s !! i = Some false.
Proof.
  destruct s as [l|l|l]; cbn; [| |tauto]; intros [x [E H]];
    rewrite list_lookup_fmap, E; [reflexivity|].
  cbn. destruct x; (reflexivity || discriminate H).
Qed.

Lemma nonneg_at_bound s i : nonneg_at s i -> (i < Series_len s)%nat.
Proof.
  destruct s as [l|l|l]; cbn; [| |tauto]; intros [x [E _]];
    apply lookup_lt_Some in E; exact E.
Qed.

(** The filter on [col], after the rows of [m] have been kept. *)
Lemma keep_nonnegative_step df col m :
  designated_numeric df -> col ∈ designated -> (length m <= nrows df)%nat ->
  keep_nonnegative (take_rows m df) col
  = inr (take_rows (zip_with andb m (col_mask df col)) df).
Proof.
  intros H Hcol Hm. unfold keep_nonnegative, col_mask. rewrite columns_take_rows.
  case_bool_decide as Hin.
  - destruct (H col Hcol Hin) as [s [G Hdt]].
    rewrite (getitem_take_rows _ _ _ _ G), G.
    assert (Z : ge_zero s = inr (ge_mask s))
      by (unfold ge_mask; destruct s; cbn in *; congruence).
    rewrite (ge_zero_select _ _ _ Z), take_rows_filtered. reflexivity.
  - rewrite (getitem_absent _ _ Hin), zip_with_andb_true by exact Hm. reflexivity.
Qed.

Section KeptRows.

Variable parse_number : string -> option number.

Lemma coerced_label c : (coerced parse_number c).1 = c.1.
Proof. unfold coerced. case_bool_decide; reflexivity. Qed.

Lemma aligned_coerced df df' :
  index df' = index df ->
  items df' = coerced parse_number <$> items (map_columns fix_typo df) ->
  aligned df -> aligned df'.
Proof.
  unfold aligned, nrows. intros -> -> H. unfold map_columns. cbn.
  rewrite <- list_fmap_compose. apply Forall_fmap.
  eapply Forall_impl; [exact H|]. intros [k x] E. cbn in *.
  unfold coerced. cbn. case_bool_decide; cbn; [rewrite Series_len_to_numeric|]; exact E.
Qed.

(** The rows [remove_invalid_rows] keeps, on a table it does not raise on. *)
Lemma remove_invalid_rows_mask df w :
  aligned df ->
  designated_single (map_columns fix_typo df) ->
  exists d1 mask,
    index d1 = index df
    /\ items d1 = coerced parse_number <$> items (map_columns fix_typo df)
    /\ aligned d1
    /\ remove_invalid_rows parse_number df w
       = (inr (take_rows mask d1),
          {| fs := fs w;
             stdout := stdout w
               ++ [Line "Removed invalid rows (negative price/quantity)."] |})
    /\ forall i,
         mask !! i = Some true
         <-> (i < nrows d1)%nat
             /\ forall col s, col ∈ designated -> (col, s) ∈ items d1 -> nonneg_at s i.
Proof.
  intros Hal Hsingle.
  destruct (coerce_loop_single parse_number _ Hsingle) as [d1 [E1 [I1 T1]]].
  pose proof (coerced_numeric parse_number _ _ Hsingle T1) as N1.
  pose proof (aligned_coerced df d1 I1 T1 Hal) as A1.
  set (cols := filter (fun c : string => c ∈ columns d1) designated).
  set (md := notna_mask cols d1).
  set (mp := col_mask d1 "price").
  set (mq := col_mask d1 "quantity").
  exists d1, (zip_with andb (zip_with andb md mp) mq).
  split; [exact I1|]. split; [exact T1|]. split; [exact A1|]. split.
  - unfold remove_invalid_rows, mbind, M_bind, lift. fold fix_typo. rewrite E1.
    fold cols.
    assert (D : match cols with [] => d1 | _ => dropna cols d1 end = take_rows md d1).
    { subst md. destruct cols; [|reflexivity].
      rewrite notna_mask_nil, take_rows_full by exact A1. reflexivity. }
    rewrite D. unfold designated at 1. cbn [for_each].
    rewrite keep_nonnegative_step;
      [|exact N1 | apply list_elem_of_here | apply notna_mask_length].
    rewrite keep_nonnegative_step;
      [reflexivity | exact N1 | apply list_elem_of_further, list_elem_of_here|].
    rewrite length_zip_with. pose proof (notna_mask_length cols d1). subst md. lia.
  - intros i. rewrite !lookup_zip_andb. subst md. rewrite notna_mask_lookup.
    assert (Hmask : forall col, col ∈ designated ->
              (i < nrows d1)%nat ->
              (col_mask d1 col !! i = Some true
               <-> forall s, (col, s) ∈ items d1 -> nonneg_at s i)).
    { intros col Hcol Hi. unfold col_mask.
      destruct (decide (col ∈ columns d1)) as [Hin|Hin].
      - destruct (N1 col Hcol Hin) as [s [G Hdt]]. rewrite G, (ge_mask_lookup _ _ Hdt).
        split.
        + intros Hs s' Hs'. rewrite (getitem_Column_unique _ _ _ G _ Hs'). exact Hs.
        + intros Hs. apply Hs.
          destruct (getitem_single _ _ (getitem_Column_carried _ _ _ G)) as [s' [G' Hs']].
          rewrite G in G'. injection G' as <-. exact Hs'.
      - rewrite (getitem_absent _ _ Hin), lookup_replicate_true.
        split; [|intros _; exact Hi].
        intros _ s Hs. exfalso. apply Hin. unfold columns.
        apply list_elem_of_fmap. exists (col, s). split; [reflexivity | exact Hs]. }
    assert (Hp : "price" ∈ designated) by apply list_elem_of_here.
    assert (Hq : "quantity" ∈ designated) by apply list_elem_of_further, list_elem_of_here.
    split.
    + intros [[[Hi _] Hpm] Hqm]. split; [exact Hi|].
      intros col s Hcol Hs. unfold designated in Hcol.
      apply elem_of_cons in Hcol as [->|Hcol].
      * apply (proj1 (Hmask "price" Hp Hi) Hpm s Hs).
      * apply list_elem_of_singleton in Hcol as ->.
        apply (proj1 (Hmask "quantity" Hq Hi) Hqm s Hs).
    + intros [Hi Hall]. split; [split; [split; [exact Hi|]|]|].
      * intros [k s] Hc Hk. apply nonneg_at_notna. cbn [fst snd] in Hk |- *.
        apply (Hall k s); [|exact Hc].
        subst cols. apply list_elem_of_filter in Hk as [_ Hk]. exact Hk.
      * apply (Hmask "price" Hp Hi). intros s. apply Hall, Hp.
      * apply (Hmask "quantity" Hq Hi). intros s. apply Hall, Hq.
Qed.

Lemma remove_invalid_rows_keeps (df : DataFrame) (w : World) :
  aligned df ->
  (forall col,
     col = "price" \/ col = "quantity" ->
     (carried (map_columns fix_typo df) col <= 1)%nat) ->
  exists mask df' w',
    remove_invalid_rows parse_number df w = (inr df', w')
    /\ index df' = select_rows mask (index df)
    /\ items df' = cleaned_item parse_number mask <$> items df
    /\ forall i : nat,
         mask !! i = Some true
         <-> (i < nrows df)%nat
             /\ forall (k : string) (s : Series),
                  (k, s) ∈ items df ->
                  fix_typo k = "price" \/ fix_typo k = "quantity" ->
                  nonneg_at (to_numeric parse_number s) i.
Proof.
  intros Hal Hsingle.
  assert (Hdes : forall col, col ∈ designated <-> col = "price" \/ col = "quantity").
  { intros col. unfold designated. rewrite !elem_of_cons, elem_of_nil. tauto. }
  destruct (remove_invalid_rows_mask df w Hal) as [d1 [mask [I1 [T1 [A1 [R Hmask]]]]]].
  { intros col Hcol. apply Hsingle, Hdes, Hcol. }
  exists mask. eexists _, _. split; [exact R|].
  split; [cbn; rewrite I1; reflexivity|]. split.
  - unfold take_rows. cbn. rewrite T1. unfold map_columns. cbn.
    rewrite <- !list_fmap_compose. apply list_fmap_ext.
    intros _ [k x] _. unfold cleaned_item, coerced, prod_map. cbn.
    case_bool_decide; reflexivity.
  - intros i. rewrite Hmask. unfold nrows. rewrite I1.
    split; intros [Hi Hall]; (split; [exact Hi|]).
    + intros k s Hs Hk. apply (Hall (fix_typo k)); [apply Hdes, Hk|].
      rewrite T1. unfold map_columns. cbn. rewrite <- list_fmap_compose.
      apply list_elem_of_fmap. exists (k, s). split; [|exact Hs].
      unfold coerced. cbn. rewrite bool_decide_eq_true_2 by (apply Hdes, Hk). reflexivity.
    + intros col s Hcol Hs. rewrite T1 in Hs. unfold map_columns in Hs. cbn in Hs.
      rewrite <- list_fmap_compose in Hs.
      apply list_elem_of_fmap in Hs as [[k x] [E Hx]].
      unfold coerced in E. cbn in E. case_bool_decide as Hk.
      * injection E as -> ->. apply (Hall k x Hx), Hdes, Hk.
      * injection E as -> ->. contradiction.
Qed.

(** X7.  On a table whose columns have one cell per row and in which, once
    the typo is corrected, [price] and [quantity] each label one column at
    most, [remove_invalid_rows] returns the rows of some mask, and the mask
    keeps row [i] exactly when, in each column that the corrected label
    makes a [price] or [quantity] column, the cell of row [i] reads as a
    number that is at least 0: a row is dropped for no other reason. *)
Theorem remove_invalid_rows_kept_rows (df : DataFrame) (w : World) :
  aligned df ->
  (forall col,
     col = "price" \/ col = "quantity" ->
     (carried (map_columns fix_typo df) col <= 1)%nat) ->
  exists mask df' w',
    remove_invalid_rows parse_number df w = (inr df', w')
    /\ index df' = select_rows mask (index df)
    /\ items df' = cleaned_item parse_number mask <$> items df
    /\ forall i : nat,
         mask !! i = Some true
         <-> (i < nrows df)%nat
             /\ forall (k : string) (s : Series),
                  (k, s) ∈ items df ->
                  fix_typo k = "price" \/ fix_typo k = "quantity" ->
                  nonneg_at (to_numeric parse_number s) i.
Proof. apply remove_invalid_rows_keeps. Qed.

End KeptRows.

Section OtherLabels.

Variable parse_number : string -> option number.

(** X8.  [remove_invalid_rows] renames no other column: a label in which
    [quanitity] does not occur is, in the table it returns, the label of the
    same column. *)
Theorem remove_invalid_rows_other_labels
    (df : DataFrame) (w : World) (df' : DataFrame) (w' : World) (i : nat) (name : string) :
  columns df !! i = Some name ->
  PyStr.contains "quanitity" name = false ->
  remove_invalid_rows parse_number df w = (inr df', w') ->
  columns df' !! i = Some name.
Proof.
  intros Hi Hno H. apply remove_invalid_rows_items in H as [mask [_ [T _]]].
  assert (E : fix_typo name = name)
    by (unfold fix_typo; apply (replace_absent "q" "uanitity" "quantity" name Hno)).
  unfold columns in *. rewrite T, <- list_fmap_compose, list_lookup_fmap.
  rewrite list_lookup_fmap in Hi.
  destruct (items df !! i) as [[k x]|]; [|discriminate].
  injection Hi as Hi. cbn [fst] in Hi. subst k.
  change (Some (fix_typo name) = Some name). rewrite E. reflexivity.
Qed.

End OtherLabels.

(** ** [handle_missing_values], applied again *)

Lemma pad_idem {A} (l : list (option A)) : forall last,
  pad is_none last (pad is_none last l) = pad is_none last l.
Proof.
  induction l as [|x l IH]; intros last; [reflexivity|].
  destruct x as [v|]; cbn.
  - f_equal. apply IH.
  - destruct last as [[v|]|]; cbn; f_equal; apply IH.
Qed.

Lemma fill_column_idem s : fill_column (fill_column s) = fill_column s.
Proof.
  destruct s as [l|l|l]; cbn; [reflexivity | |rewrite pad_idem; reflexivity].
  f_equal. rewrite <- list_fmap_compose. apply list_fmap_ext.
  intros _ x _. unfold fill_zero. cbn. destruct (is_nan x) eqn:E; [reflexivity|].
  rewrite E. reflexivity.
Qed.

Lemma columns_fill_frame df : columns (fill_frame df) = columns df.
Proof.
  unfold columns, fill_frame. cbn. rewrite <- list_fmap_compose.
  apply list_fmap_ext. intros _ [k s] _. reflexivity.
Qed.


(** ** Filling, then filtering *)

Lemma carried_by_labels df df' k : columns df = columns df' -> carried df k = carried df' k.
Proof.
  unfold carried, columns. generalize (items df') as l'.
  induction (items df) as [|c l IH]; intros [|c' l'] E; try discriminate; [reflexivity|].
  cbn in E. injection E as E1 E2. rewrite !filter_cons, E1.
  destruct (decide (c'.1 = k)); cbn; rewrite (IH l' E2); reflexivity.
Qed.

Lemma Series_len_fill_column s : Series_len (fill_column s) = Series_len s.
Proof. destruct s; cbn; [reflexivity | apply length_fmap | apply pad_length]. Qed.

Lemma aligned_fill_frame df : aligned df -> aligned (fill_frame df).
Proof.
  unfold aligned, fill_frame, nrows. cbn. intros H.
  apply Forall_fmap. eapply Forall_impl; [exact H|].
  intros [k s] E. cbn in *. rewrite Series_len_fill_column. exact E.
Qed.

Section FillThenFilter.

Variable parse_number : string -> option number.

Lemma nonneg_at_filled s i :
  nonneg_at (to_numeric parse_number (fill_column s)) i <-> survives parse_number s i.
Proof.
  destruct s as [l|l|l]; [reflexivity | | reflexivity].
  cbn. split.
  - intros [x' [E H]]. rewrite list_lookup_fmap in E.
    destruct (l !! i) as [x|]; [|discriminate]. cbn in E. injection E as <-.
    exists x. split; [reflexivity|]. unfold fill_zero in H.
    destruct (is_nan x); [left; reflexivity | right; exact H].
  - intros [x [E H]]. exists (fill_zero x). rewrite list_lookup_fmap, E.
    split; [reflexivity|]. unfold fill_zero.
    destruct (is_nan x) eqn:N; [reflexivity|].
    destruct H as [H|H]; [discriminate | exact H].
Qed.

(** X10.  [handle_missing_values] followed by [remove_invalid_rows], as the
    pipeline runs them, on a table with distinct labels whose columns have
    one cell per row and in which, once the typo is corrected, [price] and
    [quantity] each label one column at most: both return, and a row stays
    exactly when, in each [price] or [quantity] column, its cell is at least
    0 or, in a float column, missing; the missing number has become 0
    before the filter, so it does not cost the row.  In a text column the
    cell is read as a number after the forward fill. *)
Theorem fill_then_filter_rows (df : DataFrame) (w : World) :
  NoDup (columns df) ->
  aligned df ->
  (forall col,
     col = "price" \/ col = "quantity" ->
     (carried (map_columns fix_typo df) col <= 1)%nat) ->
  exists df1 w1 mask df' w',
    handle_missing_values df w = (inr df1, w1)
    /\ remove_invalid_rows parse_number df1 w1 = (inr df', w')
    /\ index df' = select_rows mask (index df)
    /\ forall i : nat,
         mask !! i = Some true
         <-> (i < nrows df)%nat
             /\ forall (k : string) (s : Series),
                  (k, s) ∈ items df ->
                  fix_typo k = "price" \/ fix_typo k = "quantity" ->
                  survives parse_number s i.
Proof.
  intros Hnd Hal Hsingle.
  eexists _, _. 
  destruct (remove_invalid_rows_keeps parse_number (fill_frame df)
              {| fs := fs w;
                 stdout := stdout w ++ [Line "Handled missing numeric and text values."] |}
              (aligned_fill_frame _ Hal))
    as [mask [df' [w' [R [I [_ Hmask]]]]]].
  { intros col Hcol.
    rewrite (carried_by_labels _ (map_columns fix_typo df)); [apply Hsingle, Hcol|].
    rewrite !columns_map_columns, columns_fill_frame. reflexivity. }
  exists mask, df', w'.
  split; [apply handle_missing_values_run, Hnd|].
  split; [exact R|]. split; [exact I|].
  intros i. rewrite Hmask. unfold nrows, fill_frame. cbn.
  split; intros [Hi Hall]; (split; [exact Hi|]).
  - intros k s Hs Hk. apply nonneg_at_filled. apply (Hall k (fill_column s)); [|exact Hk].
    apply list_elem_of_fmap. exists (k, s). split; [reflexivity | exact Hs].
  - intros k s' Hs' Hk. apply list_elem_of_fmap in Hs' as [[k0 s] [E Hs]].
    unfold prod_map in E. cbn in E. injection E as -> ->.
    apply nonneg_at_filled. apply (Hall k0 s Hs Hk).
Qed.

End FillThenFilter.

(** ** Instances of the further properties *)

Lemma sales_aligned : aligned Sample.sales.
Proof. by_decision. Qed.

Lemma sales_designated_single :
  forall col,
    col = "price" \/ col = "quantity" ->
    (carried (map_columns fix_typo Sample.sales) col <= 1)%nat.
Proof. intros col [-> | ->]; vm_compute; lia. Qed.

Lemma remove_invalid_rows_shared_label_witness :
  (exists col,
     (col = "price" \/ col = "quantity")
     /\ (2 <= carried (map_columns fix_typo both_labels) col)%nat)
  /\ remove_invalid_rows Sample.parse_number both_labels Sample.empty_world
     = (inl TypeError, Sample.empty_world)
  /\ (forall col,
        col = "price" \/ col = "quantity" ->
        (carried (map_columns fix_typo Sample.sales) col <= 1)%nat)
  /\ exists df' w',
       remove_invalid_rows Sample.parse_number Sample.sales Sample.empty_world
       = (inr df', w').
Proof.
  assert (Hshared : exists col,
             (col = "price" \/ col = "quantity")
             /\ (2 <= carried (map_columns fix_typo both_labels) col)%nat).
  { exists "quantity". split; [right; reflexivity | vm_compute; lia]. }
  split; [exact Hshared|].
  split; [exact (proj1 (remove_invalid_rows_shared_label Sample.parse_number
                          both_labels Sample.empty_world) Hshared)|].
  split; [exact sales_designated_single|].
  exact (proj2 (remove_invalid_rows_shared_label Sample.parse_number
                  Sample.sales Sample.empty_world) sales_designated_single).
Defined.

Lemma remove_invalid_rows_no_designated_witness :
  ("price" ∉ columns (map_columns fix_typo plain))
  /\ ("quantity" ∉ columns (map_columns fix_typo plain))
  /\ remove_invalid_rows Sample.parse_number plain Sample.empty_world
     = (inr (map_columns fix_typo plain), filtered_world).
Proof.
  assert (Hp : "price" ∉ columns (map_columns fix_typo plain)) by by_decision.
  assert (Hq : "quantity" ∉ columns (map_columns fix_typo plain)) by by_decision.
  split; [exact Hp|]. split; [exact Hq|].
  exact (remove_invalid_rows_no_designated Sample.parse_number plain
           Sample.empty_world Hp Hq).
Defined.

Lemma remove_invalid_rows_kept_rows_witness :
  aligned Sample.sales
  /\ (forall col,
        col = "price" \/ col = "quantity" ->
        (carried (map_columns fix_typo Sample.sales) col <= 1)%nat)
  /\ exists mask df' w',
       remove_invalid_rows Sample.parse_number Sample.sales Sample.empty_world
       = (inr df', w')
       /\ index df' = select_rows mask (index Sample.sales)
       /\ items df' = cleaned_item Sample.parse_number mask <$> items Sample.sales
       /\ forall i : nat,
            mask !! i = Some true
            <-> (i < nrows Sample.sales)%nat
                /\ forall (k : string) (s : Series),
                     (k, s) ∈ items Sample.sales ->
                     fix_typo k = "price" \/ fix_typo k = "quantity" ->
                     nonneg_at (to_numeric Sample.parse_number s) i.
Proof.
  split; [exact sales_aligned|]. split; [exact sales_designated_single|].
  exact (remove_invalid_rows_kept_rows Sample.parse_number Sample.sales
           Sample.empty_world sales_aligned sales_designated_single).
Defined.

Lemma remove_invalid_rows_other_labels_witness :
  columns Sample.sales !! 0%nat = Some "price"
  /\ PyStr.contains "quanitity" "price" = false
  /\ remove_invalid_rows Sample.parse_number Sample.sales Sample.empty_world
     = (inr sales_clean, filtered_world)
  /\ columns sales_clean !! 0%nat = Some "price".
Proof.
  split; [reflexivity|]. split; [reflexivity|].
  split; [vm_compute; reflexivity|].
  apply (remove_invalid_rows_other_labels Sample.parse_number Sample.sales
           Sample.empty_world sales_clean filtered_world 0 "price");
    [reflexivity | reflexivity | vm_compute; reflexivity].
Defined.

Lemma gaps_distinct : NoDup (columns gaps).
Proof. by_decision. Qed.


Lemma float_sales_single :
  forall col,
    col = "price" \/ col = "quantity" ->
    (carried (map_columns fix_typo float_sales) col <= 1)%nat.
Proof. intros col [-> | ->]; vm_compute; lia. Qed.

(** The row with the missing price stays, with price 0; the row with the
    negative price goes. *)
Example fill_then_filter_float_sales :
  let r1 := handle_missing_values float_sales Sample.empty_world in
  exists df1, r1.1 = inr df1
    /\ (remove_invalid_rows Sample.parse_number df1 r1.2).1
       = inr {| index := [0; 2]%nat;
                items := [("price", SFloat [float_zero; float_of_Z 7]);
                          ("item", SObject [Some "a"; Some "c"])] |}.
Proof. eexists. split; vm_compute; reflexivity. Qed.

Lemma fill_then_filter_rows_witness :
  NoDup (columns float_sales)
  /\ aligned float_sales
  /\ (forall col,
        col = "price" \/ col = "quantity" ->
        (carried (map_columns fix_typo float_sales) col <= 1)%nat)
  /\ exists df1 w1 mask df' w',
       handle_missing_values float_sales Sample.empty_world = (inr df1, w1)
       /\ remove_invalid_rows Sample.parse_number df1 w1 = (inr df', w')
       /\ index df' = select_rows mask (index float_sales)
       /\ forall i : nat,
            mask !! i = Some true
            <-> (i < nrows float_sales)%nat
                /\ forall (k : string) (s : Series),
                     (k, s) ∈ items float_sales ->
                     fix_typo k = "price" \/ fix_typo k = "quantity" ->
                     survives Sample.parse_number s i.
Proof.
  assert (Hnd : NoDup (columns float_sales)) by by_decision.
  assert (Hal : aligned float_sales) by by_decision.
  split; [exact Hnd|]. split; [exact Hal|]. split; [exact float_sales_single|].
  exact (fill_then_filter_rows Sample.parse_number float_sales Sample.empty_world
           Hnd Hal float_sales_single).
Defined.

(** ** Saving *)

Lemma bind_returns {A B} (m : M A) (f : A -> M B) w b w' :
  (m ≫= f) w = (inr b, w') ->
  exists a w1, m w = (inr a, w1) /\ f a w1 = (inr b, w').
Proof.
  unfold mbind, M_bind. destruct (m w) as [[e|a] w1]; [discriminate|].
  intros H. exists a, w1. split; [reflexivity | exact H].
Qed.

Lemma cut_empty p : posixpath.cut p = ("", "") -> p = "".
Proof.
  destruct p as [|c p]; [reflexivity|]. cbn.
  destruct (posixpath.cut p) as [h t].
  destruct (posixpath.is_sep c || negb (bool_decide (h = ""))); discriminate.
Qed.

(** A path that does not end with a separator is its own key. *)
Lemma entry_plain p : (posixpath.cut p).2 <> "" -> entry p = p.
Proof.
  unfold entry. induction p as [|c p IH]; [reflexivity|].
  cbn [posixpath.cut PyStr.rstrip_by].
  destruct (posixpath.cut p) as [h t] eqn:C. cbn [snd] in IH.
  destruct (posixpath.is_sep c || negb (bool_decide (h = ""))) eqn:B; cbn [snd].
  - intros Ht. rewrite (IH Ht).
    destruct p; [cbn in C; injection C as _ <-; contradiction | reflexivity].
  - intros _. apply orb_false_iff in B as [Hc Hh].
    apply negb_false_iff, bool_decide_eq_true in Hh. subst h.
    destruct t as [|c' t].
    + rewrite (cut_empty p C). cbn. rewrite Hc. reflexivity.
    + rewrite IH by discriminate.
      destruct p; [cbn in C; discriminate C | reflexivity].
Qed.

Lemma split_tail p : (posixpath.split p).2 = (posixpath.cut p).2.
Proof. unfold posixpath.split. destruct (posixpath.cut p). reflexivity. Qed.

Lemma write_file_written path content w w' :
  write_file path content w = (inr tt, w') ->
  stat w' path = Some (File content)
  /\ fs w' = <[path := File content]> (fs w)
  /\ stdout w' = stdout w.
Proof.
  unfold write_file. case_bool_decide as Hp; [discriminate|].
  destruct (stat w path) as [[c|]|] eqn:S; try discriminate;
    (case_bool_decide as Ht; [discriminate|]); rewrite split_tail in Ht;
    (destruct (check_parent w path); [discriminate|]);
    intros [= <-]; cbn; (split; [|split; reflexivity]);
    unfold stat in *; cbn;
    rewrite bool_decide_eq_false_2 in * by exact Hp;
    (destruct (posixpath.all_sep path || bool_decide (path = ".")); [discriminate S|]);
    rewrite (entry_plain path Ht), lookup_insert_eq;
    rewrite bool_decide_eq_true_2 by reflexivity; reflexivity.
Qed.

Section Saving.

Variable to_csv_text : DataFrame -> string.

Lemma save_cleaned_data_written df path w w' :
  save_cleaned_data to_csv_text df path w = (inr tt, w') ->
  stat w' path = Some (File (to_csv_text df))
  /\ fs w' !! path = Some (File (to_csv_text df))
  /\ last (stdout w') = Some (Line ("Saved cleaned data â†’ " +:+ path)).
Proof.
  unfold save_cleaned_data. intros H.
  apply bind_returns in H as [[] [w1 [_ H]]].
  apply bind_returns in H as [[] [w2 [Hw H]]].
  unfold to_csv in Hw. apply write_file_written in Hw as [S [F _]].
  unfold print, emit in H. injection H as <-. cbn.
  split; [|split].
  - unfold stat in *. cbn. exact S.
  - rewrite F. apply lookup_insert_eq.
  - apply last_snoc.
Qed.

End Saving.

(** ** A run of the pipeline that returns *)

Section PipelineReturns.

Variable parse_number : string -> option number.
Variable read_csv_text : string -> option DataFrame.
Variable to_csv_text : DataFrame -> string.

(** X12.  When [clean_pipeline] returns, the input path existed, the output
    path holds the CSV text of a table whose [price] and [quantity] columns
    are numeric with every cell present and at least 0, and the last thing
    printed is the first rows of that table. *)
Theorem clean_pipeline_returns (raw_path cleaned_path : string) (w w' : World) :
  clean_pipeline parse_number read_csv_text to_csv_text raw_path cleaned_path w
  = (inr tt, w') ->
  exists_in w raw_path
  /\ exists df,
       fs w' !! cleaned_path = Some (File (to_csv_text df))
       /\ (forall col s,
             col ∈ designated -> (col, s) ∈ items df -> valid_column s)
       /\ last (stdout w') = Some (Frame (head_rows df)).
Proof.
  unfold clean_pipeline. intros H.
  apply bind_returns in H as [df0 [w0 [Hload H]]].
  apply bind_returns in H as [df1 [w1 [_ H]]].
  apply bind_returns in H as [df2 [w2 [_ H]]].
  apply bind_returns in H as [df3 [w3 [_ H]]].
  apply bind_returns in H as [df [w4 [Hfilter H]]].
  apply bind_returns in H as [[] [w5 [Hsave H]]].
  apply bind_returns in H as [[] [w6 [Hdone H]]].
  split.
  - destruct (decide (exists_in w raw_path)) as [E|E]; [exact E|].
    rewrite (load_data_missing read_csv_text raw_path w E) in Hload.
    discriminate Hload.
  - exists df.
    apply (save_cleaned_data_written to_csv_text) in Hsave as [_ [F _]].
    apply remove_invalid_rows_items in Hfilter as [mask [_ [_ V]]].
    unfold print, emit in Hdone, H.
    injection Hdone as <-. injection H as <-. cbn.
    split; [exact F|]. split; [exact V|]. apply last_snoc.
Qed.

End PipelineReturns.

Lemma clean_pipeline_returns_witness :
  sample_pipeline "raw.csv" "out/clean.csv" Sample.raw_world = (inr tt, cleaned_world)
  /\ exists_in Sample.raw_world "raw.csv"
  /\ exists df,
       fs cleaned_world !! "out/clean.csv" = Some (File (Sample.to_csv_text df))
       /\ (forall col s,
             col ∈ designated -> (col, s) ∈ items df -> valid_column s)
       /\ last (stdout cleaned_world) = Some (Frame (head_rows df)).
Proof.
  assert (H : sample_pipeline "raw.csv" "out/clean.csv" Sample.raw_world
              = (inr tt, cleaned_world)) by (vm_compute; reflexivity).
  split; [exact H|].
  exact (clean_pipeline_returns Sample.parse_number Sample.read_csv_text
           Sample.to_csv_text "raw.csv" "out/clean.csv" Sample.raw_world
           cleaned_world H).
Defined.
